(** * websocket-cpp: the connection engine of the WebSocket server

    A shallow embedding of [details/Connection.hpp] (classes [Connection]
    and [ConnectionTable]) and of [ServerImpl.hpp] (classes [ServerLogic]
    and [ServerImpl]), followed by the properties of the connection
    lifecycle, the send queue, identifier allocation and shutdown.

    The C++ code mutates objects in place and is driven by completion
    handlers that Boost.Asio runs one at a time on a single worker thread.
    Here every member function is a pure function that takes the object
    (and, where the code calls back into [ServerLogic], the logic state)
    and returns the updated one; one run of a handler is one call of
    [dispatch]. *)

From Stdlib Require Import NArith ZArith List String Bool Lia Sorted.
From stdpp Require Import base option list gmap strings.

Open Scope N_scope.

(** ** Declarations of headers that are included by the sources *)

(** [server_fwd.hpp]: [ConnectionId] is an unsigned integer type; its
    width in bits is the one thing the code below depends on. *)
Class ServerFwd := { ConnectionId_bits : N }.

Definition ConnectionId := N.

(** [++id] on the unsigned type [ConnectionId]. *)
Definition ConnectionId_incr `{ServerFwd} (id : ConnectionId) : ConnectionId :=
  (id + 1) mod 2 ^ ConnectionId_bits.

Inductive Event := NewConnection | Message | Disconnect.

(** Modelled from the spec: the enumeration [Opcode] of [frames.hpp],
    "enumerated variant over Continuation, Text, Binary, Close, Ping,
    Pong, Reserved". *)
Inductive Opcode := Continuation | Text | Binary | Close | Ping | Pong | Reserved.

(** [ServerFrame] of [frames.hpp] is built from an opcode and the payload;
    its header bytes are a function of the two. *)
Record ServerFrame := mkServerFrame { frame_opcode : Opcode; m_data : string }.

(** [FrameReceiver] of [frames.hpp], through the member functions that
    [Connection] calls. *)
Class Frames := {
  FrameReceiver : Type;
  FrameReceiver_new : FrameReceiver;
  addBytes : N -> FrameReceiver -> FrameReceiver;
  isValidFrame : FrameReceiver -> bool;
  opcode : FrameReceiver -> Opcode;
  unmask : FrameReceiver -> FrameReceiver;
  message : FrameReceiver -> string;
  shiftBuffer : FrameReceiver -> FrameReceiver
}.

(** [http::Status] and [handshake] of [details/handshake.hpp]: the status
    and the reply bytes computed from the request bytes. *)
Inductive Status := OK | NotOK (code : Z).

Class Handshake := { handshake : string -> Status * string }.

(** [boost::system::error_code]: its integer value; zero is success. *)
Definition error_code := Z.

Definition ec_failed (ec : error_code) : bool := negb (ec =? 0)%Z.

Definition asio_error_eof : Z := 2%Z.

(** ** The transport

    [boost::asio::ip::tcp::socket] as the connection sees it: whether it
    has been closed, how many asynchronous reads are outstanding, the
    frames of the outstanding asynchronous writes (oldest first), and the
    frames whose write has completed without error, in order. *)
Record Socket := mkSocket {
  sock_open : bool;
  reads_pending : nat;
  writes_pending : list ServerFrame;
  wire : list ServerFrame
}.

Definition Socket_new : Socket :=
  {| sock_open := true; reads_pending := 0%nat; writes_pending := []; wire := [] |}.

Definition async_read (s : Socket) : Socket :=
  {| sock_open := sock_open s; reads_pending := S (reads_pending s);
     writes_pending := writes_pending s; wire := wire s |}.

Definition async_write (f : ServerFrame) (s : Socket) : Socket :=
  {| sock_open := sock_open s; reads_pending := reads_pending s;
     writes_pending := writes_pending s ++ [f]; wire := wire s |}.

(** [cancel], [shutdown] and [close] in a row: outstanding operations stay
    outstanding until their completion handlers have run. *)
Definition socket_close (s : Socket) : Socket :=
  {| sock_open := false; reads_pending := reads_pending s;
     writes_pending := writes_pending s; wire := wire s |}.

(** The transport finishes the oldest outstanding read. *)
Definition read_completes (s : Socket) : Socket :=
  {| sock_open := sock_open s; reads_pending := pred (reads_pending s);
     writes_pending := writes_pending s; wire := wire s |}.

(** The transport finishes the oldest outstanding write; its frame has
    reached the peer when there was no error. *)
Definition write_completes (ec : error_code) (s : Socket) : Socket :=
  match writes_pending s with
  | [] => s
  | f :: rest =>
      {| sock_open := sock_open s; reads_pending := reads_pending s;
         writes_pending := rest;
         wire := if ec_failed ec then wire s else wire s ++ [f] |}
  end.

(** ** Connection (details/Connection.hpp) *)

Record Connection `{Frames} := mkConnection {
  m_id : ConnectionId;
  m_isSending : bool;
  m_isReading : bool;
  m_isClosed : bool;
  m_socket : Socket;
  m_sendQueue : list ServerFrame;
  m_receiver : FrameReceiver
}.

Section ConnectionMembers.
Context `{Frames}.

Definition set_isSending (b : bool) (c : Connection) : Connection :=
  {| m_id := m_id c; m_isSending := b; m_isReading := m_isReading c;
     m_isClosed := m_isClosed c; m_socket := m_socket c;
     m_sendQueue := m_sendQueue c; m_receiver := m_receiver c |}.

Definition set_isReading (b : bool) (c : Connection) : Connection :=
  {| m_id := m_id c; m_isSending := m_isSending c; m_isReading := b;
     m_isClosed := m_isClosed c; m_socket := m_socket c;
     m_sendQueue := m_sendQueue c; m_receiver := m_receiver c |}.

Definition set_isClosed (b : bool) (c : Connection) : Connection :=
  {| m_id := m_id c; m_isSending := m_isSending c; m_isReading := m_isReading c;
     m_isClosed := b; m_socket := m_socket c;
     m_sendQueue := m_sendQueue c; m_receiver := m_receiver c |}.

Definition set_socket (s : Socket) (c : Connection) : Connection :=
  {| m_id := m_id c; m_isSending := m_isSending c; m_isReading := m_isReading c;
     m_isClosed := m_isClosed c; m_socket := s;
     m_sendQueue := m_sendQueue c; m_receiver := m_receiver c |}.

Definition set_sendQueue (q : list ServerFrame) (c : Connection) : Connection :=
  {| m_id := m_id c; m_isSending := m_isSending c; m_isReading := m_isReading c;
     m_isClosed := m_isClosed c; m_socket := m_socket c;
     m_sendQueue := q; m_receiver := m_receiver c |}.

Definition set_receiver (r : FrameReceiver) (c : Connection) : Connection :=
  {| m_id := m_id c; m_isSending := m_isSending c; m_isReading := m_isReading c;
     m_isClosed := m_isClosed c; m_socket := m_socket c;
     m_sendQueue := m_sendQueue c; m_receiver := r |}.

(** [Connection::close] *)
Definition close (c : Connection) : Connection :=
  if m_isClosed c then c
  else set_socket (socket_close (m_socket c)) (set_isClosed true c).

(** [Connection::sendNext]; [front()] is only reached with a queue that
    is not empty. *)
Definition sendNext (c : Connection) : Connection :=
  let c1 := set_isSending true c in
  match m_sendQueue c1 with
  | frame :: _ => set_socket (async_write frame (m_socket c1)) c1
  | [] => c1
  end.

(** [Connection::sendFrame] *)
Definition sendFrame (op : Opcode) (data : string) (c : Connection) : Connection :=
  let c1 := set_sendQueue (m_sendQueue c ++ [mkServerFrame op data]) c in
  if (length (m_sendQueue c1) =? 1)%nat then sendNext c1 else c1.

(** [Connection::beginRecvFrame] *)
Definition beginRecvFrame (c : Connection) : Connection :=
  let c1 := set_isReading true c in
  set_socket (async_read (m_socket c1)) c1.

(** The constructor [Connection::Connection]. *)
Definition Connection_new (id : ConnectionId) (socket : Socket) : Connection :=
  beginRecvFrame
    {| m_id := id; m_isSending := false; m_isReading := false; m_isClosed := false;
       m_socket := socket; m_sendQueue := []; m_receiver := FrameReceiver_new |}.
End ConnectionMembers.

(** ** ConnectionTable (details/Connection.hpp) *)

(** [m_connections] owns the connections. [destroyed] is not a member of
    the class: it lists, oldest first, the connection objects whose
    destructor has run, each as it was at that moment: those that [erase]
    has removed from the table, and those that [add] has made for a key
    that was taken. *)
Record ConnectionTable `{Frames} := mkConnectionTable {
  m_lastConnId : ConnectionId;
  m_connections : gmap ConnectionId Connection;
  destroyed : list Connection
}.

Section ConnectionTableMembers.
Context `{ServerFwd} `{Frames}.

Definition ConnectionTable_new : ConnectionTable :=
  {| m_lastConnId := 0; m_connections := ∅; destroyed := [] |}.

(** [ConnectionTable::add]. The connection is made, its constructor
    starting the first read, before [emplace] looks the key up. [emplace]
    leaves an element that already has the key in place: the reference
    returned is then to that element, and the object just made, which has
    never been in the table, is destroyed with its read outstanding. *)
Definition add (socket : Socket) (t : ConnectionTable) : Connection * ConnectionTable :=
  let id := ConnectionId_incr (m_lastConnId t) in
  let conn := Connection_new id socket in
  match m_connections t !! id with
  | Some present =>
      (present,
       {| m_lastConnId := id; m_connections := m_connections t;
          destroyed := destroyed t ++ [conn] |})
  | None =>
      (conn,
       {| m_lastConnId := id; m_connections := <[id := conn]> (m_connections t);
          destroyed := destroyed t |})
  end.

(** [ConnectionTable::find]; [None] is the null pointer. *)
Definition find (connId : ConnectionId) (t : ConnectionTable) : option Connection :=
  m_connections t !! connId.

(** [ConnectionTable::erase]: the element is removed and the object that
    the reference designates is destroyed. *)
Definition erase (conn : Connection) (t : ConnectionTable) : ConnectionTable :=
  {| m_lastConnId := m_lastConnId t;
     m_connections := delete (m_id conn) (m_connections t);
     destroyed := destroyed t ++ [conn] |}.

(** [ConnectionTable::closeAll] *)
Definition closeAll (t : ConnectionTable) : ConnectionTable :=
  {| m_lastConnId := m_lastConnId t; m_connections := close <$> m_connections t;
     destroyed := destroyed t |}.

(** The object a reference designates lives in the table: writing the
    updated object back under its key is the in-place mutation. *)
Definition store (conn : Connection) (t : ConnectionTable) : ConnectionTable :=
  {| m_lastConnId := m_lastConnId t;
     m_connections := <[m_id conn := conn]> (m_connections t);
     destroyed := destroyed t |}.

(** The destructor [Connection::~Connection] consists of
    [assert(m_isClosed)]; this is whether the assertion holds. *)
Definition Connection_dtor_assert (c : Connection) : bool := m_isClosed c.
End ConnectionTableMembers.

(** ** ServerLogic (ServerImpl.hpp) *)

(** What [ServerLogic::log] is called with. *)
Inductive LogLine :=
| LogUnknownOpcode (id : ConnectionId) (op : Opcode)
| LogSendError (id : ConnectionId) (ec : error_code)
| LogRecvError (id : ConnectionId) (ec : error_code)
| LogInvalidFrame (id : ConnectionId)
| LogHandshakeReadError (ec : error_code)
| LogHandshakeError (status : Status)
| LogHandshakeWriteError (ec : error_code)
| LogAcceptError (ec : error_code).

(** [m_log] is the text written so far; [m_callback], the application's
    function object, is represented by the calls made to it, oldest
    first. *)
Record ServerLogic `{Frames} := mkServerLogic {
  m_log : list LogLine;
  m_callback : list (Event * ConnectionId * string);
  m_connTable : ConnectionTable
}.

(** The outcome of the handshake exchange on an accepted socket: the
    result of [async_read_until], the request bytes read, and the result
    of [async_write] of the reply. *)
Record HandshakeIO := mkHandshakeIO {
  hs_read_ec : error_code;
  hs_request : string;
  hs_write_ec : error_code
}.

Section ServerLogicMembers.
Context `{ServerFwd} `{Frames} `{Handshake}.

Definition ServerLogic_new : ServerLogic :=
  {| m_log := []; m_callback := []; m_connTable := ConnectionTable_new |}.

(** [ServerLogic::log] *)
Definition log (line : LogLine) (L : ServerLogic) : ServerLogic :=
  {| m_log := m_log L ++ [line]; m_callback := m_callback L; m_connTable := m_connTable L |}.

(** A call [m_callback(event, id, payload)]. *)
Definition callback (ev : Event) (id : ConnectionId) (payload : string)
    (L : ServerLogic) : ServerLogic :=
  {| m_log := m_log L; m_callback := m_callback L ++ [(ev, id, payload)];
     m_connTable := m_connTable L |}.

Definition with_connTable (f : ConnectionTable -> ConnectionTable)
    (L : ServerLogic) : ServerLogic :=
  {| m_log := m_log L; m_callback := m_callback L; m_connTable := f (m_connTable L) |}.

(** [ServerLogic::processFrame] *)
Definition processFrame (id : ConnectionId) (op : Opcode) (msg : string)
    (L : ServerLogic) : ServerLogic :=
  match op with
  | Text | Binary => callback Message id msg L
  | _ => log (LogUnknownOpcode id op) L
  end.

(** [ServerLogic::drop] *)
Definition drop (conn : Connection) (L : ServerLogic) : ServerLogic :=
  let '(conn1, L1) :=
    if negb (m_isClosed conn)
    then (close conn, callback Disconnect (m_id conn) "" L)
    else (conn, L) in
  if negb (m_isReading conn1) && negb (m_isSending conn1)
  then with_connTable (erase conn1) L1
  else with_connTable (store conn1) L1.

(** [ServerLogic::performHandshake]; the reply is written to the
    accepted socket whatever the status. *)
Definition performHandshake (io : HandshakeIO) (L : ServerLogic) : bool * ServerLogic :=
  if ec_failed (hs_read_ec io)
  then (false, log (LogHandshakeReadError (hs_read_ec io)) L)
  else
    let '(status, reply) := handshake (hs_request io) in
    match status with
    | NotOK _ => (false, log (LogHandshakeError status) L)
    | OK =>
        if ec_failed (hs_write_ec io)
        then (false, log (LogHandshakeWriteError (hs_write_ec io)) L)
        else (true, L)
    end.

(** [ServerLogic::onAccept] *)
Definition onAccept (io : HandshakeIO) (L : ServerLogic) : ServerLogic :=
  let '(ok, L1) := performHandshake io L in
  if ok then
    let '(conn, t) := add Socket_new (m_connTable L1) in
    callback NewConnection (m_id conn) "" (with_connTable (fun _ => t) L1)
  else L1.

(** [ServerLogic::find] *)
Definition ServerLogic_find (id : ConnectionId) (L : ServerLogic) : option Connection :=
  find id (m_connTable L).

(** [ServerLogic::closeAll] *)
Definition ServerLogic_closeAll (L : ServerLogic) : ServerLogic :=
  with_connTable closeAll L.

(** ** The completion handlers of Connection *)

(** [Connection::onSendComplete] *)
Definition onSendComplete (ec : error_code) (conn : Connection)
    (L : ServerLogic) : ServerLogic :=
  let c1 := set_isSending false conn in
  if ec_failed ec then drop c1 (log (LogSendError (m_id c1) ec) L)
  else if negb (m_isClosed c1) then
    let c2 := set_sendQueue (tail (m_sendQueue c1)) c1 in
    let c3 := match m_sendQueue c2 with [] => c2 | _ :: _ => sendNext c2 end in
    with_connTable (store c3) L
  else drop c1 L.

(** [Connection::onRecvComplete] *)
Definition onRecvComplete (ec : error_code) (bytesTransferred : N)
    (conn : Connection) (L : ServerLogic) : ServerLogic :=
  let c1 := set_isReading false conn in
  if ec_failed ec then
    drop c1 (if negb (ec =? asio_error_eof)%Z then log (LogRecvError (m_id c1) ec) L else L)
  else if negb (m_isClosed c1) then
    let c2 := set_receiver (addBytes bytesTransferred (m_receiver c1)) c1 in
    if isValidFrame (m_receiver c2) then
      match opcode (m_receiver c2) with
      | Close => drop (sendFrame Close "" c2) L
      | _ =>
          let c3 := set_receiver (unmask (m_receiver c2)) c2 in
          let L1 := processFrame (m_id c3) (opcode (m_receiver c3)) (message (m_receiver c3)) L in
          let c4 := set_receiver (shiftBuffer (m_receiver c3)) c3 in
          with_connTable (store (beginRecvFrame c4)) L1
      end
    else drop c2 (log (LogInvalidFrame (m_id c2)) L)
  else drop c1 L.
End ServerLogicMembers.

(** ** ServerImpl (ServerImpl.hpp) *)

(** The two function objects that [ServerImpl::send] and
    [ServerImpl::drop] post to the io_service. *)
Inductive Task :=
| SendTask (connId : ConnectionId) (message : string) (isBinary : bool)
| DropTask (connId : ConnectionId).

(** Where the coroutine that runs [acceptLoop] is: suspended in
    [async_accept], suspended in the reads and writes of
    [performHandshake], or returned. *)
Inductive AcceptLoop := WaitingAccept | InHandshake | LoopReturned.

(** [m_ioService] holds the posted handlers, oldest first; [m_acceptor] is
    open or closed; [accept_loop] is the state of the coroutine spawned by
    the constructor; [m_workerThread] is joinable or not. *)
Record ServerImpl `{Frames} := mkServerImpl {
  m_isStopped : bool;
  m_ioService : list Task;
  m_acceptor : bool;
  accept_loop : AcceptLoop;
  m_workerThread : bool;
  m_logic : ServerLogic
}.

(** One handler that [m_ioService.run()] invokes on the worker thread:
    a posted function object, the resumption of the accept loop after
    [async_accept] or after the exchange of the handshake, or the
    completion handler of a read or of a write of a connection. *)
Inductive Completion :=
| Posted
| Accepted (ec : error_code)
| HandshakeDone (io : HandshakeIO)
| RecvDone (id : ConnectionId) (ec : error_code) (bytesTransferred : N)
| SendDone (id : ConnectionId) (ec : error_code).

(** How a call of a member function that may block or throw ends. *)
Inductive Outcome `{Frames} :=
| Returned (s : ServerImpl)
| Throws (s : ServerImpl)
| Blocked (s : ServerImpl).

(** Where the worker thread is in [ServerImpl::workerThread]: about to
    test [while (!m_isStopped)], as it is when the thread has just been
    started, or inside [m_ioService.run()]. *)
Inductive WorkerPosition := AtLoopGuard | InsideRun.

Section ServerImplMembers.
Context `{ServerFwd} `{Frames} `{Handshake}.

(** The constructor: the accept loop is spawned and the worker started. *)
Definition ServerImpl_new : ServerImpl :=
  {| m_isStopped := false; m_ioService := []; m_acceptor := true;
     accept_loop := WaitingAccept; m_workerThread := true; m_logic := ServerLogic_new |}.

Definition with_logic (f : ServerLogic -> ServerLogic) (s : ServerImpl) : ServerImpl :=
  {| m_isStopped := m_isStopped s; m_ioService := m_ioService s;
     m_acceptor := m_acceptor s; accept_loop := accept_loop s;
     m_workerThread := m_workerThread s; m_logic := f (m_logic s) |}.

(** [ServerImpl::enqueue] *)
Definition enqueue (f : Task) (s : ServerImpl) : ServerImpl :=
  {| m_isStopped := m_isStopped s; m_ioService := m_ioService s ++ [f];
     m_acceptor := m_acceptor s; accept_loop := accept_loop s;
     m_workerThread := m_workerThread s; m_logic := m_logic s |}.

(** [ServerImpl::send] *)
Definition ServerImpl_send (connId : ConnectionId) (message : string) (isBinary : bool)
    (s : ServerImpl) : ServerImpl :=
  enqueue (SendTask connId message isBinary) s.

(** [ServerImpl::drop] *)
Definition ServerImpl_drop (connId : ConnectionId) (s : ServerImpl) : ServerImpl :=
  enqueue (DropTask connId) s.

(** The bodies of the two lambdas, run on the worker thread. *)
Definition runTask (f : Task) (L : ServerLogic) : ServerLogic :=
  match f with
  | SendTask connId message isBinary =>
      match ServerLogic_find connId L with
      | Some conn =>
          with_connTable
            (store (sendFrame (if isBinary then Binary else Text) message conn)) L
      | None => L
      end
  | DropTask connId =>
      match ServerLogic_find connId L with
      | Some conn => drop conn L
      | None => L
      end
  end.

Definition set_accept_loop (a : AcceptLoop) (s : ServerImpl) : ServerImpl :=
  {| m_isStopped := m_isStopped s; m_ioService := m_ioService s;
     m_acceptor := m_acceptor s; accept_loop := a;
     m_workerThread := m_workerThread s; m_logic := m_logic s |}.

(** [ServerImpl::acceptLoop], from the completion of [async_accept] to the
    next suspension: the loop returns when the server is stopped, enters
    [onAccept], which suspends in the handshake, when a socket was
    accepted, and otherwise logs the error and accepts again. *)
Definition acceptLoop (ec : error_code) (s : ServerImpl) : ServerImpl :=
  if m_isStopped s then set_accept_loop LoopReturned s
  else if negb (ec_failed ec) then set_accept_loop InHandshake s
  else with_logic (log (LogAcceptError ec)) s.

(** [ServerImpl::acceptLoop], from the end of the exchange of the
    handshake to the next suspension: the rest of [onAccept] runs and the
    loop accepts again. *)
Definition acceptLoop_handshake (io : HandshakeIO) (s : ServerImpl) : ServerImpl :=
  set_accept_loop WaitingAccept (with_logic (onAccept io) s).

(** The worker runs one ready handler. A completion for an operation
    that is not outstanding cannot occur and changes nothing. *)
Definition dispatch (ev : Completion) (s : ServerImpl) : ServerImpl :=
  match ev with
  | Posted =>
      match m_ioService s with
      | [] => s
      | f :: rest =>
          {| m_isStopped := m_isStopped s; m_ioService := rest;
             m_acceptor := m_acceptor s; accept_loop := accept_loop s;
             m_workerThread := m_workerThread s; m_logic := runTask f (m_logic s) |}
      end
  | Accepted ec =>
      match accept_loop s with
      | WaitingAccept => acceptLoop ec s
      | _ => s
      end
  | HandshakeDone io =>
      match accept_loop s with
      | InHandshake => acceptLoop_handshake io s
      | _ => s
      end
  | RecvDone id ec n =>
      match ServerLogic_find id (m_logic s) with
      | Some conn =>
          match reads_pending (m_socket conn) with
          | O => s
          | S _ =>
              with_logic
                (onRecvComplete ec n (set_socket (read_completes (m_socket conn)) conn)) s
          end
      | None => s
      end
  | SendDone id ec =>
      match ServerLogic_find id (m_logic s) with
      | Some conn =>
          match writes_pending (m_socket conn) with
          | [] => s
          | _ :: _ =>
              with_logic
                (onSendComplete ec (set_socket (write_completes ec (m_socket conn)) conn)) s
          end
      | None => s
      end
  end.

(** The worker runs the handlers of a schedule in order. *)
Definition run (sched : list Completion) (s : ServerImpl) : ServerImpl :=
  fold_left (fun acc ev => dispatch ev acc) sched s.

Definition Connection_busy (c : Connection) : bool :=
  negb (Nat.eqb (reads_pending (m_socket c)) 0)
  || negb (Nat.eqb (length (writes_pending (m_socket c))) 0).

(** [m_ioService.run()] does not return while a handler is posted or an
    asynchronous operation is outstanding, be it of the accept loop or of
    a connection. *)
Definition io_service_has_work (s : ServerImpl) : bool :=
  negb (Nat.eqb (length (m_ioService s)) 0)
  || match accept_loop s with LoopReturned => false | _ => true end
  || existsb Connection_busy
       (map snd (map_to_list (m_connections (m_connTable (m_logic s))))).

(** [ServerImpl::workerThread] from the position [pos] of the thread,
    [m_isStopped] being as in [s]. At the loop guard the thread returns
    at once when the flag is set, without running a handler, whatever
    work there is. Inside [m_ioService.run()] it runs the handlers of
    [sched] and does not leave [run] while there is work; when [run] has
    returned, the guard is tested again. [Blocked] is a thread function
    that has not returned; with the flag not set after [run] has returned,
    [assert(m_isStopped)] fails or the loop spins. No handler of this
    development throws, so that the [catch] is not reached. *)
Definition workerThread (pos : WorkerPosition) (sched : list Completion)
    (s : ServerImpl) : Outcome :=
  let serve :=
    let s1 := run sched s in
    if io_service_has_work s1 then Blocked s1
    else if m_isStopped s1 then Returned s1 else Blocked s1 in
  match pos with
  | AtLoopGuard => if m_isStopped s then Returned s else serve
  | InsideRun => serve
  end.

(** [m_workerThread->join()]: throws [std::system_error] when the thread
    is not joinable; otherwise returns once [workerThread] has
    returned. *)
Definition join_from (pos : WorkerPosition) (sched : list Completion)
    (s : ServerImpl) : Outcome :=
  if m_workerThread s then
    match workerThread pos sched s with
    | Returned s1 =>
        Returned
          {| m_isStopped := m_isStopped s1; m_ioService := m_ioService s1;
             m_acceptor := m_acceptor s1; accept_loop := accept_loop s1;
             m_workerThread := false; m_logic := m_logic s1 |}
    | Throws s1 => Throws s1
    | Blocked s1 => Blocked s1
    end
  else Throws s.

(** The join when the worker is serving, that is inside
    [m_ioService.run()], as it is from its first test of the loop guard
    on: [sched] is what it runs while the caller waits. *)
Definition join (sched : list Completion) (s : ServerImpl) : Outcome :=
  join_from InsideRun sched s.

(** The statements of [ServerImpl::stop] before the join, taken as one
    step between two handlers of the worker. *)
Definition stop_begin (s : ServerImpl) : ServerImpl :=
  {| m_isStopped := true; m_ioService := m_ioService s;
     m_acceptor := false; accept_loop := accept_loop s;
     m_workerThread := m_workerThread s;
     m_logic := ServerLogic_closeAll (m_logic s) |}.

(** [ServerImpl::stop]; [pos] is where the worker thread is when the
    flag is set, [sched] what it runs while the caller waits in the
    join. *)
Definition ServerImpl_stop (pos : WorkerPosition) (sched : list Completion)
    (s : ServerImpl) : Outcome :=
  join_from pos sched (stop_begin s).

(** [ServerImpl::stop] when the worker is serving. *)
Definition stop (sched : list Completion) (s : ServerImpl) : Outcome :=
  join sched (stop_begin s).

(** The destructor [ServerImpl::~ServerImpl]; where it calls [stop], the
    worker is serving. *)
Definition ServerImpl_dtor (sched : list Completion) (s : ServerImpl) : Outcome :=
  if negb (m_isStopped s) then stop sched s else Returned s.
End ServerImplMembers.

(** ** Runs of the server *)

(** What can happen to a server between its construction and the join of
    [stop]: the worker runs a handler, or a thread calls [send], [drop]
    or [stop]. *)
Inductive Step :=
| Worker (ev : Completion)
| CallSend (connId : ConnectionId) (message : string) (isBinary : bool)
| CallDrop (connId : ConnectionId)
| CallStop.

Section Runs.
Context `{ServerFwd} `{Frames} `{Handshake}.

Definition step (a : Step) (s : ServerImpl) : ServerImpl :=
  match a with
  | Worker ev => dispatch ev s
  | CallSend connId message isBinary => ServerImpl_send connId message isBinary s
  | CallDrop connId => ServerImpl_drop connId s
  | CallStop => stop_begin s
  end.

Definition steps (l : list Step) (s : ServerImpl) : ServerImpl :=
  fold_left (fun acc a => step a acc) l s.

Definition Reachable (s : ServerImpl) : Prop :=
  exists l, s = steps l ServerImpl_new.

(** The server after [n] more sockets have been accepted without error
    and the exchange of each handshake has ended as [io]. *)
Fixpoint accept_n (io : HandshakeIO) (n : nat) (s : ServerImpl) : ServerImpl :=
  match n with
  | O => s
  | S n' =>
      step (Worker (HandshakeDone io)) (step (Worker (Accepted 0%Z)) (accept_n io n' s))
  end.

(** The table of a server. *)
Definition table (s : ServerImpl) : ConnectionTable := m_connTable (m_logic s).

(** The calls made to the application callback so far. *)
Definition events (s : ServerImpl) : list (Event * ConnectionId * string) :=
  m_callback (m_logic s).

Definition is_Disconnect (id : ConnectionId) (e : Event * ConnectionId * string) : bool :=
  match e with
  | (Disconnect, id', _) => N.eqb id id'
  | _ => false
  end.

(** How many times [Disconnect] has been delivered for [id]. *)
Definition Disconnects (id : ConnectionId) (l : list (Event * ConnectionId * string)) : nat :=
  length (List.filter (is_Disconnect id) l).


(** What a handler may do about the [Disconnect] event of the
    connection [id]: either it delivers none, and the connection, if it
    was closed and is still there, is still closed; or the connection
    was open, exactly one is delivered, and the connection, if still
    there, is closed. *)
Definition Disconnect_effect (id : ConnectionId) (L L' : ServerLogic) : Prop :=
  (Disconnects id (m_callback L') = Disconnects id (m_callback L)
   /\ forall c c', find id (m_connTable L) = Some c -> m_isClosed c = true ->
        find id (m_connTable L') = Some c' -> m_isClosed c' = true)
  \/ (exists c, find id (m_connTable L) = Some c /\ m_isClosed c = false
       /\ Disconnects id (m_callback L') = S (Disconnects id (m_callback L))
       /\ forall c', find id (m_connTable L') = Some c' -> m_isClosed c' = true).

(** What a handler may do to the table: it destroys no connection and
    every connection stays in the table; or it destroys exactly one, [c],
    which is closed, and every other connection stays; or it destroys the
    connection that [add] has made for a key that was taken, which is not
    closed, and every connection stays. *)
Definition Erase_effect (L L' : ServerLogic) : Prop :=
  (destroyed (m_connTable L') = destroyed (m_connTable L)
   /\ forall id, is_Some (find id (m_connTable L)) -> is_Some (find id (m_connTable L')))
  \/ (exists c, destroyed (m_connTable L') = destroyed (m_connTable L) ++ [c]
       /\ m_isClosed c = true
       /\ forall id, is_Some (find id (m_connTable L)) -> id <> m_id c ->
            is_Some (find id (m_connTable L')))
  \/ (exists c, destroyed (m_connTable L') = destroyed (m_connTable L) ++ [c]
       /\ m_isClosed c = false
       /\ is_Some (find (m_id c) (m_connTable L))
       /\ forall id, is_Some (find id (m_connTable L)) -> is_Some (find id (m_connTable L'))).

(** A handler that runs for the connection [k] leaves the counter and
    the other connections of the table alone. *)
Definition Touches (k : ConnectionId) (L L' : ServerLogic) : Prop :=
  m_lastConnId (m_connTable L') = m_lastConnId (m_connTable L)
  /\ forall j, j <> k -> find j (m_connTable L') = find j (m_connTable L).

(** Every connection of the table but the one under [k], if any, has
    been closed. *)
Definition ClosedExcept (k : ConnectionId) (t : ConnectionTable) : Prop :=
  forall j c, find j t = Some c -> j <> k -> m_isClosed c = true.

(** What holds of a server from [stop] on, [last] being the last
    identifier handed out when [stop] was called: the only connection
    that may still be open is the one whose handshake was in progress. *)
Definition Stopping (last : ConnectionId) (s : ServerImpl) : Prop :=
  m_isStopped s = true
  /\ ClosedExcept (ConnectionId_incr last) (table s)
  /\ (accept_loop s = InHandshake -> m_lastConnId (table s) = last).

(** The tasks posted by sending the texts [msgs] to [id] in a row. *)
Definition SendTasks (id : ConnectionId) (msgs : list string) : list Task :=
  map (fun m => SendTask id m false) msgs.

(** ** Sequences of table operations *)

Inductive TableOp :=
| OpAdd (socket : Socket)
| OpErase (connId : ConnectionId).

(** Runs the operations and collects the identifiers of the connections
    that [add] returned, oldest first. *)
Fixpoint allocated (ops : list TableOp) (t : ConnectionTable) : list ConnectionId :=
  match ops with
  | [] => []
  | OpAdd socket :: ops' =>
      let '(conn, t') := add socket t in m_id conn :: allocated ops' t'
  | OpErase connId :: ops' =>
      match find connId t with
      | Some conn => allocated ops' (erase conn t)
      | None => allocated ops' t
      end
  end.

Definition is_OpAdd (op : TableOp) : bool :=
  match op with OpAdd _ => true | OpErase _ => false end.

Definition count_adds (ops : list TableOp) : N :=
  N.of_nat (length (List.filter is_OpAdd ops)).

(** A connection is accepted, closed and erased, [n] times over. *)
Definition come_and_go (n : N) (t : ConnectionTable) : ConnectionTable :=
  N.iter n (fun t => let '(conn, t') := add Socket_new t in erase (close conn) t') t.

(** When the handshake of the spec succeeds: the request was read, the
    status is OK and the reply was written. *)
Definition handshake_succeeded (io : HandshakeIO) : bool :=
  negb (ec_failed (hs_read_ec io))
  && match fst (handshake (hs_request io)) with OK => true | NotOK _ => false end
  && negb (ec_failed (hs_write_ec io)).
End Runs.

(** ** Invariants of the connection objects *)

Section Invariants.
Context `{Frames}.

(** The flags of a connection agree with what is outstanding on its
    socket: a read exactly while [m_isReading], one write, carrying the
    frame at the front of the queue, exactly while [m_isSending]; the
    socket is closed exactly when [m_isClosed]. *)
Record Connection_wf (c : Connection) : Prop := {
  wf_reads : reads_pending (m_socket c) = if m_isReading c then 1%nat else 0%nat;
  wf_writes : writes_pending (m_socket c)
              = if m_isSending c then firstn 1 (m_sendQueue c) else [];
  wf_sending : m_isSending c = true -> m_sendQueue c <> [];
  wf_sock : sock_open (m_socket c) = negb (m_isClosed c)
}.

(** What holds of a connection stored under key [k] between two
    handlers. *)
Record Connection_ok (k : ConnectionId) (c : Connection) : Prop := {
  ok_id : m_id c = k;
  ok_wf : Connection_wf c;
  ok_open_reading : m_isClosed c = false -> m_isReading c = true;
  ok_open_queue : m_isClosed c = false -> m_isSending c = false -> m_sendQueue c = [];
  ok_live : m_isReading c || m_isSending c = true
}.

(** The removable state of the spec, together with what it is meant to
    guarantee: no asynchronous operation is outstanding. *)
Definition Removable (c : Connection) : Prop :=
  m_isClosed c = true /\ m_isReading c = false /\ m_isSending c = false
  /\ reads_pending (m_socket c) = 0%nat /\ writes_pending (m_socket c) = [].

(** The object that [add] has made and [emplace] has not taken: as its
    constructor left it, open, with its first read outstanding. *)
Definition Discarded (c : Connection) : Prop :=
  c = Connection_new (m_id c) Socket_new.

(** Every connection of the table is as [Connection_ok] says, and every
    object destroyed so far was removable or had been discarded by
    [add]. *)
Definition Table_ok (t : ConnectionTable) : Prop :=
  map_Forall Connection_ok (m_connections t)
  /\ Forall (fun c => Removable c \/ Discarded c) (destroyed t).

(** No key of the table is beyond the last identifier handed out. *)
Definition Keys_bounded (t : ConnectionTable) : Prop :=
  forall k, is_Some (m_connections t !! k) -> k <= m_lastConnId t.

(** Every connection of the table has been closed. *)
Definition AllClosed (t : ConnectionTable) : Prop :=
  map_Forall (fun _ c => m_isClosed c = true) (m_connections t).
End Invariants.

(** ** Instances and states for the examples *)

Definition ConnectionId8 : ServerFwd := {| ConnectionId_bits := 8 |}.
Definition ConnectionId32 : ServerFwd := {| ConnectionId_bits := 32 |}.
Definition ConnectionId64 : ServerFwd := {| ConnectionId_bits := 64 |}.

(** A receiver that decodes every transfer to the same frame. *)
Definition SameFrame (valid : bool) (op : Opcode) (msg : string) : Frames :=
  {| FrameReceiver := unit;
     FrameReceiver_new := tt;
     addBytes := fun _ r => r;
     isValidFrame := fun _ => valid;
     opcode := fun _ => op;
     unmask := fun r => r;
     message := fun _ => msg;
     shiftBuffer := fun r => r |}.

(** A handshake that answers every request with the same status. *)
Definition SameStatus (status : Status) : Handshake :=
  {| handshake := fun _ => (status, ""%string) |}.

Definition io_ok : HandshakeIO :=
  {| hs_read_ec := 0%Z; hs_request := "GET / HTTP/1.1"; hs_write_ec := 0%Z |}.

(** [boost::asio::error::operation_aborted] *)
Definition operation_aborted : error_code := 125%Z.


Definition PingFrames : Frames := SameFrame true Ping "".
Definition CloseFrames : Frames := SameFrame true Close "".
Definition AcceptAll : Handshake := SameStatus OK.

Section NarrowExamples.
#[local] Existing Instance ConnectionId8.
#[local] Existing Instance PingFrames.
#[local] Existing Instance AcceptAll.

(** With identifiers of 8 bits: 256 connections have been accepted and
    none has been closed, so that every identifier designates a
    connection of the table; one more socket has been accepted and its
    handshake is in progress. *)
Definition all_ids_taken : ServerImpl :=
  step (Worker (Accepted 0%Z)) (accept_n io_ok 256 ServerImpl_new).
End NarrowExamples.

Section PingExamples.
#[local] Existing Instance ConnectionId64.
#[local] Existing Instance PingFrames.
#[local] Existing Instance AcceptAll.

(** One connection has been accepted. *)
Definition one_open : ServerImpl :=
  steps [Worker (Accepted 0%Z); Worker (HandshakeDone io_ok)] ServerImpl_new.

(** Two connections have been accepted; each has its read outstanding. *)
Definition two_open : ServerImpl :=
  steps [Worker (Accepted 0%Z); Worker (HandshakeDone io_ok);
         Worker (Accepted 0%Z); Worker (HandshakeDone io_ok)] ServerImpl_new.

(** A connection has been accepted and its peer has gone away. *)
Definition peer_gone : ServerImpl :=
  steps [Worker (Accepted 0%Z); Worker (HandshakeDone io_ok);
         Worker (RecvDone 1 asio_error_eof 0)] ServerImpl_new.

(** What the worker runs while [stop] waits on [two_open]: the accept
    and the two reads end with [operation_aborted]. *)
Definition two_open_drain : list Completion :=
  [Accepted operation_aborted;
   RecvDone 1 operation_aborted 0;
   RecvDone 2 operation_aborted 0].

(** [two_open] after [stop] has returned. *)
Definition two_open_stopped : ServerImpl :=
  match stop two_open_drain two_open with
  | Returned s => s
  | Throws s => s
  | Blocked s => s
  end.

(** A hundred connections have been accepted; each has its read
    outstanding. *)
Definition hundred_open : ServerImpl :=
  steps (concat (repeat [Worker (Accepted 0%Z); Worker (HandshakeDone io_ok)] 100))
    ServerImpl_new.

(** What the worker runs while [stop] waits on [hundred_open]: the accept
    and the hundred reads end with [operation_aborted]. *)
Definition hundred_drain : list Completion :=
  Accepted operation_aborted
  :: map (fun i => RecvDone (N.of_nat i) operation_aborted 0) (seq 1 100).

(** [hundred_open] after [stop] has returned. *)
Definition hundred_stopped : ServerImpl :=
  match stop hundred_drain hundred_open with
  | Returned s => s
  | Throws s => s
  | Blocked s => s
  end.
End PingExamples.

Section CloseExamples.
#[local] Existing Instance ConnectionId64.
#[local] Existing Instance CloseFrames.
#[local] Existing Instance AcceptAll.

(** A connection has been accepted and the application has sent it a
    text whose write is still outstanding. *)
Definition one_busy : ServerImpl :=
  steps [Worker (Accepted 0%Z); Worker (HandshakeDone io_ok);
         CallSend 1 "hello" false; Worker Posted] ServerImpl_new.

(** The connection of [one_busy]. *)
Definition one_busy_conn : Connection :=
  {| m_id := 1; m_isSending := true; m_isReading := true; m_isClosed := false;
     m_socket := {| sock_open := true; reads_pending := 1;
                    writes_pending := [mkServerFrame Text "hello"]; wire := [] |};
     m_sendQueue := [mkServerFrame Text "hello"]; m_receiver := tt |}.
End CloseExamples.


(** ** Events and calls, for the further properties *)

Section Observations.
Context `{ServerFwd} `{Frames} `{Handshake}.

(** The identifiers announced by [NewConnection], oldest first. *)
Fixpoint NewConnection_ids (l : list (Event * ConnectionId * string)) : list ConnectionId :=
  match l with
  | [] => []
  | (NewConnection, id, _) :: l' => id :: NewConnection_ids l'
  | _ :: l' => NewConnection_ids l'
  end.

(** What one step may deliver to the application: an event [Message]
    or [Disconnect] for a connection that is in the table of [s] and
    open, or the [NewConnection] of a handshake that has succeeded, for
    the next identifier. *)
Definition Deliverable (a : Step) (s : ServerImpl)
    (e : Event * ConnectionId * string) : Prop :=
  match e with
  | (NewConnection, id, msg) =>
      id = ConnectionId_incr (m_lastConnId (table s)) /\ msg = ""%string
      /\ exists io, a = Worker (HandshakeDone io) /\ handshake_succeeded io = true
  | (_, id, _) => exists c, find id (table s) = Some c /\ m_isClosed c = false
  end.

(** What a handler that runs for a connection delivers: nothing, or
    one event [Message] or [Disconnect] about that connection, which was
    open. *)
Definition Delivers_for (conn : Connection) (L L' : ServerLogic) : Prop :=
  m_callback L' = m_callback L
  \/ (m_isClosed conn = false
      /\ exists e msg, (e = Message \/ e = Disconnect)
           /\ m_callback L' = m_callback L ++ [(e, m_id conn, msg)]).

(** The steps at which a handshake ends, and their number in a run. *)
Definition is_handshake_end (a : Step) : bool :=
  match a with
  | Worker (HandshakeDone _) => true
  | _ => false
  end.

Definition handshakes (l : list Step) : N :=
  N.of_nat (length (List.filter is_handshake_end l)).

(** The identifiers announced so far are increasing and lie between 1
    and the last one handed out, which no key of the table exceeds. *)
Definition Announced_ok (s : ServerImpl) : Prop :=
  Table_ok (table s) /\ Keys_bounded (table s)
  /\ StronglySorted N.lt (NewConnection_ids (events s))
  /\ Forall (fun id => 0 < id <= m_lastConnId (table s)) (NewConnection_ids (events s)).

(** The call of the public interface that posts the task [f]. *)
Definition call_of_task (f : Task) : Step :=
  match f with
  | SendTask connId message isBinary => CallSend connId message isBinary
  | DropTask connId => CallDrop connId
  end.

(** The object [ServerLogic::drop] leaves behind or destroys: the
    connection, closed. It stays in the table while an operation is
    outstanding. *)
Definition dropped (conn : Connection) (t : ConnectionTable) : ConnectionTable :=
  if negb (m_isReading conn) && negb (m_isSending conn)
  then erase (close conn) t
  else store (close conn) t.
End Observations.

(** ** Further instances and states for the examples *)

Definition TextFrames : Frames := SameFrame true Text "hi".
Definition InvalidFrames : Frames := SameFrame false Text "".

Section TextExamples.
#[local] Existing Instance ConnectionId64.
#[local] Existing Instance TextFrames.
#[local] Existing Instance AcceptAll.

(** One connection has been accepted; its peer sends text frames. *)
Definition one_open_text : ServerImpl :=
  steps [Worker (Accepted 0%Z); Worker (HandshakeDone io_ok)] ServerImpl_new.
End TextExamples.

Section InvalidExamples.
#[local] Existing Instance ConnectionId64.
#[local] Existing Instance InvalidFrames.
#[local] Existing Instance AcceptAll.

(** One connection has been accepted; its peer sends frames that are
    not valid. *)
Definition one_open_invalid : ServerImpl :=
  steps [Worker (Accepted 0%Z); Worker (HandshakeDone io_ok)] ServerImpl_new.
End InvalidExamples.

Section MoreExamples.
#[local] Existing Instance ConnectionId64.
#[local] Existing Instance PingFrames.
#[local] Existing Instance AcceptAll.

(** One connection is open and a second socket has been accepted, whose
    handshake is in progress. *)
Definition one_open_one_handshaking : ServerImpl :=
  steps [Worker (Accepted 0%Z); Worker (HandshakeDone io_ok); Worker (Accepted 0%Z)]
    ServerImpl_new.

(** One connection is open with the write of a text outstanding. *)
Definition one_sending : ServerImpl :=
  steps [Worker (Accepted 0%Z); Worker (HandshakeDone io_ok);
         CallSend 1 "hello" false; Worker Posted] ServerImpl_new.

(** The connection of [one_sending]. *)
Definition one_sending_conn : Connection :=
  {| m_id := 1; m_isSending := true; m_isReading := true; m_isClosed := false;
     m_socket := {| sock_open := true; reads_pending := 1;
                    writes_pending := [mkServerFrame Text "hello"]; wire := [] |};
     m_sendQueue := [mkServerFrame Text "hello"]; m_receiver := tt |}.

(** The connection with identifier 1 as its last completion leaves it:
    closed, with nothing outstanding. *)
Definition one_removable_conn : Connection :=
  {| m_id := 1; m_isSending := false; m_isReading := false; m_isClosed := true;
     m_socket := {| sock_open := false; reads_pending := 0;
                    writes_pending := []; wire := [] |};
     m_sendQueue := []; m_receiver := tt |}.

(** The application has dropped the connection of [one_open]; its read
    is still outstanding. *)
Definition one_dropped : ServerImpl :=
  steps [CallDrop 1; Worker Posted] one_open.

(** The connection of [one_dropped]. *)
Definition one_dropped_conn : Connection :=
  {| m_id := 1; m_isSending := false; m_isReading := true; m_isClosed := true;
     m_socket := {| sock_open := false; reads_pending := 1;
                    writes_pending := []; wire := [] |};
     m_sendQueue := []; m_receiver := tt |}.

(** The application has dropped the connection of [one_sending]; its
    read and its write are still outstanding. *)
Definition one_closing : ServerImpl :=
  steps [CallDrop 1; Worker Posted] one_sending.
End MoreExamples.

(** * Properties *)

(** ** The flags track the outstanding operations *)

Section WellFormed.
Context `{Frames}.

Lemma Connection_new_wf id : Connection_wf (Connection_new id Socket_new).
Proof. split; simpl; auto; discriminate. Qed.

Lemma close_wf c : Connection_wf c -> Connection_wf (close c).
Proof.
  intros [Hr Hw Hs Hk]. unfold close.
  destruct (m_isClosed c) eqn:E; split; simpl; auto; by rewrite E.
Qed.

Lemma close_closed c : m_isClosed (close c) = true.
Proof. unfold close. destruct (m_isClosed c) eqn:E; auto. Qed.

Lemma close_flags c :
  m_id (close c) = m_id c /\ m_isReading (close c) = m_isReading c
  /\ m_isSending (close c) = m_isSending c /\ m_sendQueue (close c) = m_sendQueue c.
Proof. unfold close. destruct (m_isClosed c); auto. Qed.

Lemma close_idem c : m_isClosed c = true -> close c = c.
Proof. unfold close. by intros ->. Qed.

Lemma sendFrame_empty op data c :
  m_sendQueue c = [] ->
  sendFrame op data c
  = set_socket (async_write (mkServerFrame op data) (m_socket c))
      (set_isSending true (set_sendQueue [mkServerFrame op data] c)).
Proof. intros E. unfold sendFrame, sendNext. simpl. rewrite E. reflexivity. Qed.

Lemma sendFrame_nonempty op data c :
  m_sendQueue c <> [] ->
  sendFrame op data c = set_sendQueue (m_sendQueue c ++ [mkServerFrame op data]) c.
Proof.
  intros E. unfold sendFrame. simpl. rewrite length_app. simpl.
  destruct (m_sendQueue c) as [|f q]; [done|]. simpl.
  replace (length q + 1)%nat with (S (length q)) by lia. reflexivity.
Qed.

Lemma sendFrame_queue op data c :
  m_sendQueue (sendFrame op data c) = m_sendQueue c ++ [mkServerFrame op data].
Proof.
  destruct (m_sendQueue c) as [|f q] eqn:E.
  - rewrite sendFrame_empty by done. simpl. reflexivity.
  - rewrite sendFrame_nonempty by (rewrite E; done). simpl. by rewrite E.
Qed.

Lemma sendFrame_flags op data c :
  m_id (sendFrame op data c) = m_id c
  /\ m_isClosed (sendFrame op data c) = m_isClosed c
  /\ m_isReading (sendFrame op data c) = m_isReading c
  /\ m_isSending (sendFrame op data c)
     = (m_isSending c || match m_sendQueue c with [] => true | _ => false end).
Proof.
  destruct (m_sendQueue c) as [|f q] eqn:E.
  - rewrite sendFrame_empty by done. simpl. by rewrite orb_true_r.
  - rewrite sendFrame_nonempty by (rewrite E; done). simpl. by rewrite orb_false_r.
Qed.

Lemma sendFrame_wf op data c : Connection_wf c -> Connection_wf (sendFrame op data c).
Proof.
  intros [Hr Hw Hs Hk].
  destruct (m_sendQueue c) as [|f q] eqn:E.
  - rewrite sendFrame_empty by done.
    destruct (m_isSending c) eqn:Es; [by destruct Hs|].
    split; simpl; auto. by rewrite Hw.
  - rewrite sendFrame_nonempty by (rewrite E; done).
    split; simpl; auto.
    + rewrite Hw, E. reflexivity.
    + intros _. rewrite E. discriminate.
Qed.

(** The object a completion handler of a read starts from. *)
Lemma read_completed_wf c :
  Connection_wf c -> m_isReading c = true ->
  Connection_wf (set_isReading false (set_socket (read_completes (m_socket c)) c)).
Proof. intros [Hr Hw Hs Hk] E. split; simpl; auto. rewrite Hr, E. reflexivity. Qed.

(** The object a completion handler of a write starts from. *)
Lemma write_completed_wf ec c :
  Connection_wf c -> m_isSending c = true ->
  Connection_wf (set_isSending false (set_socket (write_completes ec (m_socket c)) c)).
Proof.
  intros [Hr Hw Hs Hk] E. rewrite E in Hw.
  destruct (m_sendQueue c) as [|f q] eqn:Eq; [by destruct Hs|].
  unfold write_completes. rewrite Hw. simpl.
  split; simpl; auto.
Qed.

Lemma beginRecvFrame_wf c :
  Connection_wf c -> m_isReading c = false -> Connection_wf (beginRecvFrame c).
Proof. intros [Hr Hw Hs Hk] E. split; simpl; auto. rewrite Hr, E. reflexivity. Qed.

Lemma set_receiver_wf r c : Connection_wf c -> Connection_wf (set_receiver r c).
Proof. intros [Hr Hw Hs Hk]. split; simpl; auto. Qed.

Lemma wf_Removable c :
  Connection_wf c -> m_isClosed c = true -> m_isReading c = false ->
  m_isSending c = false -> Removable c.
Proof.
  intros [Hr Hw Hs Hk] Ec Er Es. rewrite Er in Hr. rewrite Es in Hw.
  repeat split; auto.
Qed.
End WellFormed.

(** ** The table invariant holds in every reachable state *)

Section TableInvariant.
Context `{ServerFwd} `{Frames} `{Handshake}.

(** [ServerLogic::drop], with the two conditionals separated. *)
Lemma drop_unfold conn L :
  drop conn L
  = let L1 := if m_isClosed conn then L else callback Disconnect (m_id conn) "" L in
    if negb (m_isReading conn) && negb (m_isSending conn)
    then with_connTable (erase (close conn)) L1
    else with_connTable (store (close conn)) L1.
Proof.
  unfold drop. destruct (m_isClosed conn) eqn:E; simpl.
  - by rewrite (close_idem conn E).
  - destruct (close_flags conn) as (_ & -> & -> & _). reflexivity.
Qed.

Lemma store_ok conn t :
  Table_ok t -> Connection_ok (m_id conn) conn -> Table_ok (store conn t).
Proof.
  intros [Hm Hd] Hc. split; simpl; [|done].
  by apply map_Forall_insert_2.
Qed.

Lemma erase_ok conn t : Table_ok t -> Removable conn -> Table_ok (erase conn t).
Proof.
  intros [Hm Hd] Hc. split; simpl.
  - by apply map_Forall_delete.
  - apply Forall_app. split; [done|]. constructor; [by left|constructor].
Qed.

Lemma drop_ok conn L :
  Table_ok (m_connTable L) -> Connection_wf conn -> Table_ok (m_connTable (drop conn L)).
Proof.
  intros Ht Hwf. rewrite drop_unfold. simpl.
  pose proof (close_wf conn Hwf) as Hcw.
  pose proof (close_closed conn) as Hcc.
  destruct (close_flags conn) as (Hid & Hr & Hs & Hq).
  assert (Ht1 : Table_ok (m_connTable
            (if m_isClosed conn then L else callback Disconnect (m_id conn) "" L)))
    by (destruct (m_isClosed conn); done).
  destruct (m_isReading conn) eqn:Er; destruct (m_isSending conn) eqn:Es; simpl;
    try (apply store_ok; [done|];
         split; auto; try congruence; rewrite Hr, Hs; done).
  apply erase_ok; [done|]. apply wf_Removable; congruence.
Qed.

Lemma closeAll_ok t : Table_ok t -> Table_ok (closeAll t).
Proof.
  intros [Hm Hd]. split; simpl; [|done].
  apply map_Forall_fmap. eapply map_Forall_impl; [exact Hm|].
  intros k c [Hid Hwf Hor Hoq Hl]. simpl.
  destruct (close_flags c) as (Hid' & Hr & Hs & Hq).
  split; auto using close_wf; try congruence.
  - rewrite close_closed. discriminate.
  - rewrite close_closed. discriminate.
Qed.

Lemma Connection_new_ok id : Connection_ok id (Connection_new id Socket_new).
Proof. split; auto using Connection_new_wf. Qed.

Lemma add_ok t : Table_ok t -> Table_ok (snd (add Socket_new t)).
Proof.
  intros [Hm Hd]. unfold add.
  destruct (m_connections t !! _) eqn:E; split; simpl; auto.
  - apply Forall_app. split; [done|]. constructor; [|constructor].
    by right.
  - apply map_Forall_insert_2; auto using Connection_new_ok.
Qed.

Lemma onAccept_ok io L : Table_ok (m_connTable L) -> Table_ok (m_connTable (onAccept io L)).
Proof.
  intros Ht. unfold onAccept.
  assert (Hp : m_connTable (snd (performHandshake io L)) = m_connTable L).
  { unfold performHandshake. destruct (ec_failed (hs_read_ec io)); [done|].
    destruct (handshake _) as [[|code] reply]; [|done].
    destruct (ec_failed (hs_write_ec io)); done. }
  destruct (performHandshake io L) as [[|] L1]; simpl in *; [|congruence].
  pose proof (add_ok (m_connTable L1)) as Ha.
  destruct (add Socket_new (m_connTable L1)) as [conn t]. simpl in *.
  apply Ha. by rewrite Hp.
Qed.

Lemma sendFrame_ok k op data c :
  Connection_ok k c -> Connection_ok (m_id (sendFrame op data c)) (sendFrame op data c).
Proof.
  intros [Hid Hwf Hor Hoq Hl].
  destruct (sendFrame_flags op data c) as (Hi & Hc & Hr & Hs).
  split; auto using sendFrame_wf.
  - rewrite Hc, Hr. done.
  - rewrite Hc, Hs. intros Ec Eq.
    apply orb_false_iff in Eq as [Es Eq].
    rewrite (Hoq Ec Es) in Eq. discriminate.
  - rewrite Hr, Hs. destruct (m_isReading c), (m_isSending c); done.
Qed.

Lemma runTask_ok f L : Table_ok (m_connTable L) -> Table_ok (m_connTable (runTask f L)).
Proof.
  intros Ht. destruct f as [connId message isBinary|connId]; simpl.
  - destruct (ServerLogic_find connId L) as [conn|] eqn:E; [|done].
    simpl. apply store_ok; [done|]. eapply sendFrame_ok. apply (proj1 Ht _ _ E).
  - destruct (ServerLogic_find connId L) as [conn|] eqn:E; [|done].
    apply drop_ok; [done|]. apply (proj1 Ht _ _ E).
Qed.

Lemma onSendComplete_ok ec k c L :
  Table_ok (m_connTable L) -> Connection_ok k c -> m_isSending c = true ->
  Table_ok (m_connTable
    (onSendComplete ec (set_socket (write_completes ec (m_socket c)) c) L)).
Proof.
  intros Ht [Hid Hwf Hor Hoq Hl] Es.
  pose proof (write_completed_wf ec c Hwf Es) as Hwf1.
  unfold onSendComplete.
  destruct (ec_failed ec) eqn:Eec; [by apply drop_ok|].
  cbn [m_isClosed set_isSending set_socket].
  destruct (m_isClosed c) eqn:Ec; [by apply drop_ok|]. simpl negb. cbv iota.
  simpl. apply store_ok; [done|].
  destruct Hwf as [Hr Hw Hs Hk]. rewrite Es in Hw.
  destruct (m_sendQueue c) as [|f q] eqn:Eq; [by destruct Hs|].
  unfold write_completes. rewrite Hw. simpl.
  destruct q as [|g q]; unfold sendNext; simpl;
    (split; simpl; [done|split; simpl; auto|..]); simpl; auto;
    try discriminate; try (by rewrite ?orb_true_r).
  by rewrite Hor.
Qed.

Lemma onRecvComplete_ok ec n k c L :
  Table_ok (m_connTable L) -> Connection_ok k c -> m_isReading c = true ->
  Table_ok (m_connTable
    (onRecvComplete ec n (set_socket (read_completes (m_socket c)) c) L)).
Proof.
  intros Ht [Hid Hwf Hor Hoq Hl] Er.
  pose proof (read_completed_wf c Hwf Er) as Hwf1.
  unfold onRecvComplete.
  destruct (ec_failed ec) eqn:Eec.
  { apply drop_ok; [|done]. by destruct (negb _). }
  cbn [m_isClosed set_isReading set_socket].
  destruct (m_isClosed c) eqn:Ec; [by apply drop_ok|]. simpl negb. cbv iota.
  set (c2 := set_receiver _ _).
  assert (Hwf2 : Connection_wf c2) by by apply set_receiver_wf.
  destruct (isValidFrame (m_receiver c2)); [|by apply drop_ok].
  assert (Hst : forall L1 : ServerLogic, m_connTable L1 = m_connTable L ->
    Table_ok (m_connTable (with_connTable
      (store (beginRecvFrame
        (set_receiver (shiftBuffer (m_receiver (set_receiver (unmask (m_receiver c2)) c2)))
          (set_receiver (unmask (m_receiver c2)) c2)))) L1))).
  { intros L1 E1. simpl. rewrite E1. apply store_ok; [done|].
    split; simpl; auto.
    apply beginRecvFrame_wf; [|done]. by do 2 apply set_receiver_wf. }
  destruct (opcode (m_receiver c2));
    try (apply Hst; unfold processFrame;
         destruct (opcode _); reflexivity).
  apply drop_ok; [done|]. by apply sendFrame_wf.
Qed.

Lemma dispatch_ok ev s : Table_ok (table s) -> Table_ok (table (dispatch ev s)).
Proof.
  unfold table. intros Ht. destruct ev as [|ec|io|id ec n|id ec]; simpl.
  - destruct (m_ioService s); [done|]. simpl. by apply runTask_ok.
  - destruct (accept_loop s); try done. unfold acceptLoop.
    destruct (m_isStopped s); [done|]. by destruct (negb (ec_failed ec)).
  - destruct (accept_loop s); try done. simpl. by apply onAccept_ok.
  - destruct (ServerLogic_find id (m_logic s)) as [conn|] eqn:E; [|done].
    pose proof (proj1 Ht _ _ E) as Hok.
    destruct (reads_pending (m_socket conn)) eqn:Er; [done|]. simpl.
    eapply onRecvComplete_ok; eauto.
    destruct Hok as [_ [Hr _ _ _] _ _ _].
    destruct (m_isReading conn); [done|congruence].
  - destruct (ServerLogic_find id (m_logic s)) as [conn|] eqn:E; [|done].
    pose proof (proj1 Ht _ _ E) as Hok.
    destruct (writes_pending (m_socket conn)) eqn:Ew; [done|]. simpl.
    eapply onSendComplete_ok; eauto.
    destruct Hok as [_ [_ Hw _ _] _ _ _].
    destruct (m_isSending conn); [done|congruence].
Qed.

Lemma step_ok a s : Table_ok (table s) -> Table_ok (table (step a s)).
Proof.
  destruct a; simpl; auto using dispatch_ok.
  unfold table. simpl. apply closeAll_ok.
Qed.

Lemma steps_ok l s : Table_ok (table s) -> Table_ok (table (steps l s)).
Proof.
  revert s. induction l as [|a l IH]; intros s Hs; simpl; [done|].
  apply IH. by apply step_ok.
Qed.

Lemma ServerImpl_new_ok : Table_ok (table ServerImpl_new).
Proof. split; simpl; [apply map_Forall_empty|constructor]. Qed.

Lemma Reachable_ok s : Reachable s -> Table_ok (table s).
Proof. intros [l ->]. apply steps_ok, ServerImpl_new_ok. Qed.

Lemma Reachable_step a s : Reachable s -> Reachable (step a s).
Proof.
  intros [l ->]. exists (l ++ [a]). unfold steps. by rewrite fold_left_app.
Qed.

Lemma Reachable_steps l s : Reachable s -> Reachable (steps l s).
Proof.
  intros [l0 ->]. exists (l0 ++ l). unfold steps. by rewrite fold_left_app.
Qed.
End TableInvariant.

(** ** Delivery of the Disconnect event *)

Section DisconnectEvents.
Context `{ServerFwd} `{Frames} `{Handshake}.

Lemma Disconnects_snoc id l e :
  Disconnects id (l ++ [e])
  = (Disconnects id l + if is_Disconnect id e then 1 else 0)%nat.
Proof.
  unfold Disconnects. rewrite List.filter_app, length_app. simpl.
  destruct (is_Disconnect id e); reflexivity.
Qed.

Lemma is_Disconnect_same id payload : is_Disconnect id (Disconnect, id, payload) = true.
Proof. simpl. apply N.eqb_refl. Qed.

Lemma is_Disconnect_other id id' payload :
  id <> id' -> is_Disconnect id (Disconnect, id', payload) = false.
Proof. intros Hne. simpl. by apply N.eqb_neq. Qed.

Lemma drop_effect id c0 conn L0 L :
  find (m_id conn) (m_connTable L) = Some c0 ->
  m_isClosed conn = m_isClosed c0 ->
  m_connTable L0 = m_connTable L ->
  Disconnects id (m_callback L0) = Disconnects id (m_callback L) ->
  Disconnect_effect id L (drop conn L0).
Proof.
  intros Hf Hc Ht Hd. rewrite drop_unfold.
  destruct (close_flags conn) as (Hid & _).
  pose proof (close_closed conn) as Hcc.
  destruct (N.eq_dec id (m_id conn)) as [->|Hne].
  - destruct (m_isClosed conn) eqn:Ec.
    + left. cbv zeta.
      destruct (negb (m_isReading conn) && negb (m_isSending conn)); simpl;
        (split; [done|]); intros c c' _ _; unfold find; simpl; rewrite Hid.
      * by rewrite lookup_delete_eq.
      * rewrite lookup_insert_eq. by intros [= <-].
    + right. exists c0. split; [done|]. split; [done|]. cbv zeta.
      destruct (negb (m_isReading conn) && negb (m_isSending conn)); simpl;
        rewrite Disconnects_snoc, is_Disconnect_same, Hd;
        (split; [lia|]); intros c'; unfold find; simpl; rewrite Hid.
      * by rewrite lookup_delete_eq.
      * rewrite lookup_insert_eq. by intros [= <-].
  - left. cbv zeta.
    assert (Hd' : Disconnects id (m_callback
               (if m_isClosed conn then L0 else callback Disconnect (m_id conn) "" L0))
             = Disconnects id (m_callback L)).
    { destruct (m_isClosed conn); [done|]. simpl.
      rewrite Disconnects_snoc, is_Disconnect_other by done. lia. }
    destruct (negb (m_isReading conn) && negb (m_isSending conn)); simpl;
      (split; [by destruct (m_isClosed conn)|]);
      intros c c' Hfc Hcl; unfold find in *; simpl; rewrite Hid.
    * rewrite lookup_delete_ne by done. destruct (m_isClosed conn); simpl;
        rewrite Ht, Hfc; by intros [= <-].
    * rewrite lookup_insert_ne by done. destruct (m_isClosed conn); simpl;
        rewrite Ht, Hfc; by intros [= <-].
Qed.

Lemma store_effect id c0 conn L0 L :
  find (m_id conn) (m_connTable L) = Some c0 ->
  (m_isClosed c0 = true -> m_isClosed conn = true) ->
  m_connTable L0 = m_connTable L ->
  Disconnects id (m_callback L0) = Disconnects id (m_callback L) ->
  Disconnect_effect id L (with_connTable (store conn) L0).
Proof.
  intros Hf Hc Ht Hd. left. simpl. split; [done|].
  intros c c' Hfc Hcl. unfold find in *. simpl. rewrite Ht.
  destruct (N.eq_dec id (m_id conn)) as [->|Hne].
  - rewrite lookup_insert_eq. intros [= <-]. apply Hc. congruence.
  - rewrite lookup_insert_ne by done. rewrite Hfc. by intros [= <-].
Qed.

Lemma Disconnect_effect_refl id L : Disconnect_effect id L L.
Proof. left. split; [done|]. intros c c' -> Hc [= <-]. done. Qed.

Lemma sendNext_flags c :
  m_id (sendNext c) = m_id c /\ m_isClosed (sendNext c) = m_isClosed c
  /\ m_isReading (sendNext c) = m_isReading c /\ m_isSending (sendNext c) = true
  /\ m_sendQueue (sendNext c) = m_sendQueue c.
Proof. unfold sendNext. simpl. destruct (m_sendQueue c) eqn:E; simpl; by rewrite ?E. Qed.

Lemma onSendComplete_effect id ec sock c L :
  find (m_id c) (m_connTable L) = Some c ->
  Disconnect_effect id L (onSendComplete ec (set_socket sock c) L).
Proof.
  intros Hf. unfold onSendComplete.
  destruct (ec_failed ec); [by apply (drop_effect id c)|].
  cbn [m_isClosed set_isSending set_socket].
  destruct (m_isClosed c) eqn:Ec; [by apply (drop_effect id c)|].
  simpl negb. cbv iota zeta.
  apply (store_effect id c); simpl; try done.
  - destruct (tail (m_sendQueue c)); [done|].
    by destruct (sendNext_flags (set_sendQueue (s :: l)
         (set_isSending false (set_socket sock c)))) as (-> & _).
  - rewrite Ec. discriminate.
Qed.

Lemma processFrame_quiet id k op msg L :
  m_connTable (processFrame k op msg L) = m_connTable L
  /\ Disconnects id (m_callback (processFrame k op msg L)) = Disconnects id (m_callback L).
Proof.
  unfold processFrame.
  destruct op; simpl; split; try done; rewrite Disconnects_snoc; simpl; lia.
Qed.

Lemma onRecvComplete_effect id ec n sock c L :
  find (m_id c) (m_connTable L) = Some c ->
  Disconnect_effect id L (onRecvComplete ec n (set_socket sock c) L).
Proof.
  intros Hf. unfold onRecvComplete.
  destruct (ec_failed ec).
  { apply (drop_effect id c); try done; by destruct (negb _). }
  cbn [m_isClosed set_isReading set_socket].
  destruct (m_isClosed c) eqn:Ec; [by apply (drop_effect id c)|].
  simpl negb. cbv iota zeta.
  set (c2 := set_receiver _ _).
  destruct (isValidFrame (m_receiver c2)); [|by apply (drop_effect id c)].
  assert (Hst : Disconnect_effect id L
    (with_connTable
      (store (beginRecvFrame
        (set_receiver (shiftBuffer (m_receiver (set_receiver (unmask (m_receiver c2)) c2)))
          (set_receiver (unmask (m_receiver c2)) c2))))
      (processFrame (m_id (set_receiver (unmask (m_receiver c2)) c2))
         (opcode (m_receiver (set_receiver (unmask (m_receiver c2)) c2)))
         (message (m_receiver (set_receiver (unmask (m_receiver c2)) c2))) L))).
  { apply (store_effect id c); simpl; try done; try apply (processFrame_quiet id). }
  destruct (opcode (m_receiver c2)); try exact Hst.
  destruct (sendFrame_flags Close "" c2) as (Hi & Hc & _).
  apply (drop_effect id c); try done; by rewrite ?Hi, ?Hc.
Qed.

Lemma runTask_effect id f L :
  Table_ok (m_connTable L) -> Disconnect_effect id L (runTask f L).
Proof.
  intros Ht. destruct f as [connId message isBinary|connId]; simpl;
    destruct (ServerLogic_find connId L) as [conn|] eqn:E;
    try apply Disconnect_effect_refl.
  - destruct (proj1 Ht _ _ E) as [Hid _ _ _ _].
    destruct (sendFrame_flags (if isBinary then Binary else Text) message conn)
      as (Hi & Hc & _).
    apply (store_effect id conn); try done.
    + rewrite Hi, Hid. exact E.
    + by rewrite Hc.
  - destruct (proj1 Ht _ _ E) as [Hid _ _ _ _].
    apply (drop_effect id conn); try done. rewrite Hid. exact E.
Qed.

Lemma performHandshake_quiet io L :
  m_connTable (snd (performHandshake io L)) = m_connTable L
  /\ m_callback (snd (performHandshake io L)) = m_callback L.
Proof.
  unfold performHandshake. destruct (ec_failed (hs_read_ec io)); [done|].
  destruct (handshake _) as [[|code] reply]; [|done].
  destruct (ec_failed (hs_write_ec io)); done.
Qed.

Lemma onAccept_effect id io L : Disconnect_effect id L (onAccept io L).
Proof.
  unfold onAccept.
  destruct (performHandshake_quiet io L) as [Ht Hc].
  destruct (performHandshake io L) as [[|] L1]; simpl in *.
  - left. unfold add.
    destruct (m_connections (m_connTable L1) !! _) eqn:E; simpl;
      rewrite Disconnects_snoc, Hc; simpl; (split; [lia|]);
      intros d d'; unfold find; simpl; rewrite <- Ht.
    + intros -> Hcl [= <-]. done.
    + intros Hfc Hcl. rewrite lookup_insert_ne by congruence.
      rewrite Hfc. by intros [= <-].
  - left. rewrite Hc, Ht. split; [done|]. intros d d' -> Hcl [= <-]. done.
Qed.

Lemma closeAll_effect id L : Disconnect_effect id L (ServerLogic_closeAll L).
Proof.
  left. simpl. split; [done|]. intros c c' Hf Hc. unfold find. simpl.
  rewrite lookup_fmap. unfold find in Hf. rewrite Hf. simpl.
  intros [= <-]. apply close_closed.
Qed.

Lemma step_effect id a s :
  Table_ok (table s) -> Disconnect_effect id (m_logic s) (m_logic (step a s)).
Proof.
  intros Ht. destruct a as [[|ec|io|k ec n|k ec]| | |]; simpl;
    try apply Disconnect_effect_refl.
  - destruct (m_ioService s); [apply Disconnect_effect_refl|]. simpl.
    by apply runTask_effect.
  - destruct (accept_loop s); try apply Disconnect_effect_refl.
    unfold acceptLoop. destruct (m_isStopped s); [apply Disconnect_effect_refl|].
    destruct (negb (ec_failed ec)); simpl; [apply Disconnect_effect_refl|].
    left. simpl. split; [done|]. intros c c' -> Hc [= <-]. done.
  - destruct (accept_loop s); try apply Disconnect_effect_refl.
    simpl. apply onAccept_effect.
  - destruct (ServerLogic_find k (m_logic s)) as [conn|] eqn:E;
      [|apply Disconnect_effect_refl].
    destruct (reads_pending (m_socket conn)); [apply Disconnect_effect_refl|].
    simpl. apply onRecvComplete_effect.
    destruct (proj1 Ht _ _ E) as [-> _ _ _ _]. exact E.
  - destruct (ServerLogic_find k (m_logic s)) as [conn|] eqn:E;
      [|apply Disconnect_effect_refl].
    destruct (writes_pending (m_socket conn)); [apply Disconnect_effect_refl|].
    simpl. apply onSendComplete_effect.
    destruct (proj1 Ht _ _ E) as [-> _ _ _ _]. exact E.
  - apply closeAll_effect.
Qed.
End DisconnectEvents.

Section DisconnectOnce.
Context `{ServerFwd} `{Frames} `{Handshake}.




End DisconnectOnce.

(** ** The send queue *)

Section SendQueue.
Context `{ServerFwd} `{Frames} `{Handshake}.

Lemma sendFrame_writes op data c :
  writes_pending (m_socket (sendFrame op data c))
  = writes_pending (m_socket c)
    ++ match m_sendQueue c with [] => [mkServerFrame op data] | _ :: _ => [] end.
Proof.
  destruct (m_sendQueue c) as [|f q] eqn:E.
  - rewrite sendFrame_empty by done. reflexivity.
  - rewrite sendFrame_nonempty by (rewrite E; done). simpl. by rewrite app_nil_r.
Qed.

Lemma sendFrame_wire op data c :
  wire (m_socket (sendFrame op data c)) = wire (m_socket c).
Proof.
  destruct (m_sendQueue c) as [|f q] eqn:E.
  - rewrite sendFrame_empty by done. reflexivity.
  - rewrite sendFrame_nonempty by (rewrite E; done). reflexivity.
Qed.

Lemma ok_writes_at_most_one k c :
  Connection_ok k c -> (length (writes_pending (m_socket c)) <= 1)%nat.
Proof.
  intros [_ [_ Hw _ _] _ _ _]. rewrite Hw.
  destruct (m_isSending c); simpl; [|lia].
  destruct (m_sendQueue c); simpl; lia.
Qed.

(** An open connection with a frame in its queue has exactly the write
    of the front frame outstanding. *)
Lemma ok_open_front k c f q :
  Connection_ok k c -> m_isClosed c = false -> m_sendQueue c = f :: q ->
  m_isSending c = true /\ writes_pending (m_socket c) = [f].
Proof.
  intros [_ [_ Hw _ _] _ Hoq _] Ec Eq.
  destruct (m_isSending c) eqn:Es.
  - split; [done|]. by rewrite Hw, Eq.
  - rewrite (Hoq Ec eq_refl) in Eq. discriminate.
Qed.

(** A write completes without error on an open connection: the frame
    is on the wire and popped, and the write of the next one starts. *)
Lemma SendDone_success id ec s c f q :
  Table_ok (table s) -> find id (table s) = Some c ->
  m_isClosed c = false -> m_sendQueue c = f :: q -> ec_failed ec = false ->
  exists c',
    find id (table (dispatch (SendDone id ec) s)) = Some c'
    /\ m_isClosed c' = false /\ m_sendQueue c' = q
    /\ wire (m_socket c') = wire (m_socket c) ++ [f]
    /\ writes_pending (m_socket c') = firstn 1 q
    /\ events (dispatch (SendDone id ec) s) = events s.
Proof.
  intros Ht Hf Ec Eq Eec.
  pose proof (proj1 Ht _ _ Hf) as Hok.
  destruct (ok_open_front id c f q Hok Ec Eq) as [Es Ew].
  destruct Hok as [Hid _ _ _ _].
  unfold dispatch, ServerLogic_find. unfold table in Hf. rewrite Hf, Ew.
  unfold table, events, with_logic, onSendComplete. cbn [m_logic].
  rewrite Eec. cbn [m_isClosed set_isSending set_socket]. rewrite Ec.
  simpl negb. cbv iota zeta.
  unfold write_completes. rewrite Ew, Eec.
  cbn [m_sendQueue set_sendQueue set_isSending set_socket]. rewrite Eq. simpl tail.
  destruct q as [|g q]; unfold find; simpl; rewrite Hid, lookup_insert_eq;
    eexists; (split; [reflexivity|]); simpl; auto.
Qed.

(** The frames of the queue reach the wire in queue order, one write at
    a time, as the writes complete without error. *)
Lemma queue_drains_in_order id q :
  forall s c, Table_ok (table s) -> find id (table s) = Some c ->
  m_isClosed c = false -> m_sendQueue c = q ->
  exists c',
    find id (table (steps (repeat (Worker (SendDone id 0%Z)) (length q)) s)) = Some c'
    /\ m_isClosed c' = false /\ m_sendQueue c' = []
    /\ wire (m_socket c') = wire (m_socket c) ++ q
    /\ writes_pending (m_socket c') = []
    /\ events (steps (repeat (Worker (SendDone id 0%Z)) (length q)) s) = events s.
Proof.
  induction q as [|f q IH]; intros s c Ht Hf Ec Eq; simpl.
  - exists c. rewrite app_nil_r. repeat split; auto.
    destruct (proj1 Ht _ _ Hf) as [_ [_ Hw Hs _] _ _ _].
    rewrite Hw. destruct (m_isSending c); [|done]. by rewrite Eq.
  - destruct (SendDone_success id 0%Z s c f q Ht Hf Ec Eq eq_refl)
      as (c1 & Hf1 & Ec1 & Eq1 & Hw1 & _ & Hev1).
    destruct (IH _ c1 (dispatch_ok _ s Ht) Hf1 Ec1 Eq1)
      as (c' & Hf' & Ec' & Eq' & Hw' & Hp' & Hev').
    exists c'. repeat split; auto.
    + rewrite Hw', Hw1, <- app_assoc. reflexivity.
    + etransitivity; [exact Hev'|exact Hev1].
Qed.

Lemma CallSend_posts id msgs s :
  steps (map (fun m => CallSend id m false) msgs) s
  = {| m_isStopped := m_isStopped s; m_ioService := m_ioService s ++ SendTasks id msgs;
       m_acceptor := m_acceptor s; accept_loop := accept_loop s;
       m_workerThread := m_workerThread s; m_logic := m_logic s |}.
Proof.
  revert s. induction msgs as [|m msgs IH]; intros s; simpl.
  - rewrite app_nil_r. by destruct s.
  - rewrite IH. simpl. by rewrite <- app_assoc.
Qed.

Lemma Posted_runs tasks :
  forall s, m_ioService s = tasks ->
  steps (repeat (Worker Posted) (length tasks)) s
  = {| m_isStopped := m_isStopped s; m_ioService := [];
       m_acceptor := m_acceptor s; accept_loop := accept_loop s;
       m_workerThread := m_workerThread s;
       m_logic := fold_left (fun L f => runTask f L) tasks (m_logic s) |}.
Proof.
  induction tasks as [|f tasks IH]; intros s E; simpl.
  - destruct s; simpl in *; by subst.
  - rewrite E. rewrite IH by done. reflexivity.
Qed.

(** Sends on an open connection queue up behind what is there. *)
Lemma SendTasks_queue id msgs :
  forall L c, Table_ok (m_connTable L) -> find id (m_connTable L) = Some c ->
  m_isClosed c = false ->
  let L' := fold_left (fun L f => runTask f L) (SendTasks id msgs) L in
  Table_ok (m_connTable L')
  /\ m_callback L' = m_callback L
  /\ exists c', find id (m_connTable L') = Some c'
      /\ m_isClosed c' = false
      /\ m_sendQueue c' = m_sendQueue c ++ map (mkServerFrame Text) msgs
      /\ wire (m_socket c') = wire (m_socket c).
Proof.
  induction msgs as [|m msgs IH]; intros L c Ht Hf Ec; simpl.
  - split; [done|]. split; [done|]. exists c. by rewrite app_nil_r.
  - unfold ServerLogic_find. rewrite Hf.
    destruct (proj1 Ht _ _ Hf) as [Hid _ _ _ _].
    destruct (sendFrame_flags Text m c) as (Hi & Hc & _).
    set (L1 := with_connTable (store (sendFrame Text m c)) L).
    assert (Ht1 : Table_ok (m_connTable L1)).
    { apply (runTask_ok (SendTask id m false)) in Ht. simpl in Ht.
      unfold ServerLogic_find in Ht. by rewrite Hf in Ht. }
    assert (Hf1 : find id (m_connTable L1) = Some (sendFrame Text m c)).
    { unfold find. simpl. rewrite Hi, Hid. apply lookup_insert_eq. }
    destruct (IH L1 _ Ht1 Hf1) as (Ht' & Hcb & c' & Hf' & Ec' & Eq' & Hw');
      [congruence|].
    split; [done|]. split; [done|]. exists c'. repeat split; auto.
    + rewrite Eq', sendFrame_queue, <- app_assoc. reflexivity.
    + by rewrite Hw', sendFrame_wire.
Qed.
End SendQueue.

(** ** Completion of a read *)

Section Receive.
Context `{ServerFwd} `{Frames} `{Handshake}.

(** An open connection in the table has its read outstanding. *)
Lemma ok_open_read k c :
  Connection_ok k c -> m_isClosed c = false ->
  m_isReading c = true /\ reads_pending (m_socket c) = 1%nat
  /\ sock_open (m_socket c) = true.
Proof.
  intros [_ [Hr _ _ Hk] Hor _ _] Ec. rewrite (Hor Ec) in Hr.
  rewrite Ec in Hk. auto.
Qed.

(** A valid frame other than Close arrives on an open connection. *)
Lemma RecvDone_frame id ec n s c :
  Table_ok (table s) -> find id (table s) = Some c -> m_isClosed c = false ->
  ec_failed ec = false ->
  isValidFrame (addBytes n (m_receiver c)) = true ->
  opcode (addBytes n (m_receiver c)) <> Close ->
  let r := unmask (addBytes n (m_receiver c)) in
  let c' := beginRecvFrame (set_receiver (shiftBuffer r)
              (set_isReading false (set_socket (read_completes (m_socket c)) c))) in
  table (dispatch (RecvDone id ec n) s) = store c' (table s)
  /\ m_log (m_logic (dispatch (RecvDone id ec n) s))
     = m_log (processFrame id (opcode r) (message r) (m_logic s))
  /\ events (dispatch (RecvDone id ec n) s)
     = m_callback (processFrame id (opcode r) (message r) (m_logic s)).
Proof.
  intros Ht Hf Ec Eec Hv Hop r c'.
  pose proof (proj1 Ht _ _ Hf) as Hok.
  destruct (ok_open_read id c Hok Ec) as (Er & Hrp & _).
  destruct Hok as [Hid _ _ _ _].
  unfold dispatch, ServerLogic_find. unfold table in Hf. rewrite Hf, Hrp.
  unfold table, events, with_logic, onRecvComplete. cbn [m_logic].
  rewrite Eec. cbn [m_isClosed set_isReading set_socket m_receiver set_receiver].
  rewrite Ec. simpl negb. cbv iota zeta.
  cbn [m_isClosed set_isReading set_socket m_receiver set_receiver m_id].
  rewrite Hv, Hid. fold r.
  destruct (opcode (addBytes n (m_receiver c))); try done;
    unfold processFrame; destruct (opcode r); simpl; done.
Qed.

(** A valid Close frame arrives on an open connection. *)
Lemma RecvDone_Close id ec n s c :
  Table_ok (table s) -> find id (table s) = Some c -> m_isClosed c = false ->
  ec_failed ec = false ->
  isValidFrame (addBytes n (m_receiver c)) = true ->
  opcode (addBytes n (m_receiver c)) = Close ->
  exists c1,
    find id (table (dispatch (RecvDone id ec n) s)) = Some c1
    /\ m_isClosed c1 = true /\ m_isReading c1 = false /\ m_isSending c1 = true
    /\ sock_open (m_socket c1) = false
    /\ m_sendQueue c1 = m_sendQueue c ++ [mkServerFrame Close ""]
    /\ writes_pending (m_socket c1)
       = writes_pending (m_socket c)
         ++ match m_sendQueue c with [] => [mkServerFrame Close ""] | _ :: _ => [] end
    /\ wire (m_socket c1) = wire (m_socket c)
    /\ events (dispatch (RecvDone id ec n) s) = events s ++ [(Disconnect, id, ""%string)]
    /\ destroyed (table (dispatch (RecvDone id ec n) s)) = destroyed (table s).
Proof.
  intros Ht Hf Ec Eec Hv Hop.
  pose proof (proj1 Ht _ _ Hf) as Hok.
  destruct (ok_open_read id c Hok Ec) as (Er & Hrp & _).
  destruct Hok as [Hid Hwf _ Hoq _].
  unfold dispatch, ServerLogic_find. unfold table in Hf. rewrite Hf, Hrp.
  unfold table, events, with_logic, onRecvComplete. cbn [m_logic].
  rewrite Eec. cbn [m_isClosed set_isReading set_socket m_receiver set_receiver].
  rewrite Ec. simpl negb. cbv iota zeta.
  cbn [m_isClosed set_isReading set_socket m_receiver set_receiver m_id].
  rewrite Hv, Hop.
  set (c0 := set_receiver _ _).
  destruct (sendFrame_flags Close "" c0) as (Hi & Hc & Hr & Hs).
  assert (Hsend : m_isSending (sendFrame Close "" c0) = true).
  { rewrite Hs. simpl. destruct (m_isSending c) eqn:Es; [done|].
    by rewrite (Hoq Ec eq_refl). }
  rewrite drop_unfold. cbv zeta. rewrite Hc, Hr, Hsend. simpl.
  rewrite Ec. simpl.
  destruct (close_flags (sendFrame Close "" c0)) as (Hi' & Hr' & Hs' & Hq').
  exists (close (sendFrame Close "" c0)).
  unfold find. simpl. rewrite Hi', Hi. simpl. rewrite Hid, lookup_insert_eq.
  rewrite Hr', Hs', Hq', Hr, Hsend, close_closed, sendFrame_queue.
  unfold close. rewrite Hc. simpl. rewrite Ec. simpl.
  rewrite sendFrame_writes, sendFrame_wire. simpl.
  repeat split; reflexivity.
Qed.

(** A write completes, with or without error, on a connection that is
    closed and has no read outstanding: the connection is erased, no
    frame is popped and no event is delivered. *)
Lemma SendDone_closed id ec s c :
  Table_ok (table s) -> find id (table s) = Some c ->
  m_isClosed c = true -> m_isReading c = false -> m_isSending c = true ->
  exists c',
    find id (table (dispatch (SendDone id ec) s)) = None
    /\ destroyed (table (dispatch (SendDone id ec) s)) = destroyed (table s) ++ [c']
    /\ m_sendQueue c' = m_sendQueue c
    /\ wire (m_socket c')
       = wire (m_socket c) ++ (if ec_failed ec then [] else firstn 1 (m_sendQueue c))
    /\ events (dispatch (SendDone id ec) s) = events s.
Proof.
  intros Ht Hf Ec Er Es.
  destruct (proj1 Ht _ _ Hf) as [Hid [_ Hw Hsq _] _ _ _].
  rewrite Es in Hw. destruct (m_sendQueue c) as [|f q] eqn:Eq; [by destruct Hsq|].
  simpl in Hw.
  unfold dispatch, ServerLogic_find. unfold table in Hf. rewrite Hf, Hw.
  unfold table, events, with_logic, onSendComplete. cbn [m_logic].
  set (c0 := set_isSending false _).
  assert (Hdrop : forall L0 : ServerLogic,
    drop c0 L0 = with_connTable (erase c0) L0).
  { intros L0. rewrite drop_unfold. cbv zeta. subst c0. simpl.
    rewrite Ec, Er. simpl. unfold close. simpl. by rewrite Ec. }
  exists c0.
  assert (Hwire : wire (m_socket c0)
            = wire (m_socket c) ++ (if ec_failed ec then [] else [f])).
  { subst c0. simpl. unfold write_completes. rewrite Hw. simpl.
    destruct (ec_failed ec); by rewrite ?app_nil_r. }
  destruct (ec_failed ec) eqn:Eec.
  - rewrite Hdrop. unfold find. simpl. rewrite Hid, lookup_delete_eq.
    split; [done|]. split; [done|]. split; [done|]. split; [exact Hwire|done].
  - cbn [m_isClosed set_isSending set_socket c0]. rewrite Ec. simpl negb. cbv iota.
    fold c0. rewrite Hdrop. unfold find. simpl. rewrite Hid, lookup_delete_eq.
    split; [done|]. split; [done|]. split; [done|]. split; [exact Hwire|done].
Qed.
End Receive.

(** ** Shutdown *)

Section Shutdown.
Context `{ServerFwd} `{Frames} `{Handshake}.

Lemma dispatch_fields ev s :
  m_isStopped (dispatch ev s) = m_isStopped s
  /\ m_acceptor (dispatch ev s) = m_acceptor s
  /\ m_workerThread (dispatch ev s) = m_workerThread s.
Proof.
  destruct ev as [|ec|io|id ec n|id ec]; simpl.
  - by destruct (m_ioService s).
  - destruct (accept_loop s); try done. unfold acceptLoop.
    destruct (m_isStopped s) eqn:E; simpl; rewrite ?E; [done|].
    destruct (negb (ec_failed ec)); simpl; by rewrite ?E.
  - by destruct (accept_loop s).
  - destruct (ServerLogic_find id (m_logic s)); [|done].
    by destruct (reads_pending _).
  - destruct (ServerLogic_find id (m_logic s)); [|done].
    by destruct (writes_pending _).
Qed.

Lemma run_fields sched s :
  m_isStopped (run sched s) = m_isStopped s
  /\ m_acceptor (run sched s) = m_acceptor s
  /\ m_workerThread (run sched s) = m_workerThread s.
Proof.
  revert s. induction sched as [|ev sched IH]; intros s; simpl; [done|].
  destruct (IH (dispatch ev s)) as (-> & -> & ->). apply dispatch_fields.
Qed.

Lemma run_ok sched s : Table_ok (table s) -> Table_ok (table (run sched s)).
Proof.
  revert s. induction sched as [|ev sched IH]; intros s Ht; simpl; [done|].
  apply IH. by apply dispatch_ok.
Qed.

Lemma stop_begin_AllClosed s : AllClosed (table (stop_begin s)).
Proof.
  unfold AllClosed, table. simpl. apply map_Forall_fmap.
  intros k c _. apply close_closed.
Qed.

(** Dropping a closed connection delivers no event and leaves only
    closed connections. *)
Lemma drop_closed_silent conn L :
  AllClosed (m_connTable L) -> m_isClosed conn = true ->
  AllClosed (m_connTable (drop conn L)) /\ m_callback (drop conn L) = m_callback L.
Proof.
  intros Ha Hc. rewrite drop_unfold. cbv zeta. rewrite Hc, (close_idem conn Hc).
  destruct (negb (m_isReading conn) && negb (m_isSending conn)); simpl; (split; [|done]);
    unfold AllClosed; simpl.
  - by apply map_Forall_delete.
  - by apply map_Forall_insert_2.
Qed.

(** Once [stop] has closed every connection and no handshake is in
    progress, no handler delivers an event to the application any more. *)
Lemma dispatch_after_stop ev s :
  AllClosed (table s) -> m_isStopped s = true -> accept_loop s <> InHandshake ->
  AllClosed (table (dispatch ev s)) /\ events (dispatch ev s) = events s
  /\ accept_loop (dispatch ev s) <> InHandshake.
Proof.
  unfold table, events. intros Ha Hs Hl.
  destruct ev as [|ec|io|id ec n|id ec]; simpl.
  - destruct (m_ioService s) as [|[connId message isBinary|connId] rest]; [done|..]; simpl;
      destruct (ServerLogic_find _ (m_logic s)) as [conn|] eqn:E; try done.
    + simpl. split; [|done]. unfold AllClosed. simpl.
      apply map_Forall_insert_2; [|done].
      destruct (sendFrame_flags (if isBinary then Binary else Text) message conn)
        as (_ & -> & _).
      apply (Ha _ _ E).
    + split; [|split; [|done]]; apply drop_closed_silent; try done; apply (Ha _ _ E).
  - destruct (accept_loop s) eqn:El; simpl; rewrite ?El; try done.
    unfold acceptLoop. rewrite Hs. simpl. done.
  - destruct (accept_loop s) eqn:El; simpl; rewrite ?El; done.
  - destruct (ServerLogic_find id (m_logic s)) as [conn|] eqn:E; [|done].
    destruct (reads_pending _); [done|]. simpl. unfold onRecvComplete.
    pose proof (Ha _ _ E) as Hc.
    destruct (ec_failed ec).
    + destruct (negb (ec =? asio_error_eof)%Z);
        (split; [|split; [|done]]);
        apply (drop_closed_silent _ (log _ _)) || apply drop_closed_silent; done.
    + cbn [m_isClosed set_isReading set_socket]. rewrite Hc. simpl negb. cbv iota.
      split; [|split; [|done]]; by apply drop_closed_silent.
  - destruct (ServerLogic_find id (m_logic s)) as [conn|] eqn:E; [|done].
    destruct (writes_pending _); [done|]. simpl. unfold onSendComplete.
    pose proof (Ha _ _ E) as Hc.
    destruct (ec_failed ec).
    + split; [|split; [|done]]; by apply (drop_closed_silent _ (log _ _)).
    + cbn [m_isClosed set_isSending set_socket]. rewrite Hc. simpl negb. cbv iota.
      split; [|split; [|done]]; by apply drop_closed_silent.
Qed.

Lemma run_after_stop sched s :
  AllClosed (table s) -> m_isStopped s = true -> accept_loop s <> InHandshake ->
  events (run sched s) = events s.
Proof.
  revert s. induction sched as [|ev sched IH]; intros s Ha Hs Hl; simpl; [done|].
  destruct (dispatch_after_stop ev s Ha Hs Hl) as (Ha' & He' & Hl').
  rewrite IH; try done. by destruct (dispatch_fields ev s) as (-> & _).
Qed.

Lemma Touches_same k L L' : m_connTable L' = m_connTable L -> Touches k L L'.
Proof. intros E. split; by rewrite E. Qed.

Lemma store_touches conn L0 L :
  m_connTable L0 = m_connTable L -> Touches (m_id conn) L (with_connTable (store conn) L0).
Proof.
  intros E. split; simpl; rewrite E; [done|].
  intros j Hj. unfold find. simpl. by rewrite lookup_insert_ne.
Qed.

Lemma drop_touches conn L0 L :
  m_connTable L0 = m_connTable L -> Touches (m_id conn) L (drop conn L0).
Proof.
  intros E. rewrite drop_unfold. cbv zeta.
  destruct (close_flags conn) as (Hid & _).
  set (L1 := if m_isClosed conn then L0 else _).
  assert (E1 : m_connTable L1 = m_connTable L) by (subst L1; by destruct (m_isClosed conn)).
  destruct (negb (m_isReading conn) && negb (m_isSending conn)).
  - split; simpl; rewrite E1; [done|].
    intros j Hj. unfold find. simpl. rewrite Hid. by rewrite lookup_delete_ne.
  - rewrite <- Hid. by apply store_touches.
Qed.

Lemma onSendComplete_touches ec sock c L :
  Touches (m_id c) L (onSendComplete ec (set_socket sock c) L).
Proof.
  unfold onSendComplete.
  set (c1 := set_isSending false (set_socket sock c)).
  change (m_id c) with (m_id c1).
  destruct (ec_failed ec); [by apply drop_touches|].
  destruct (negb _); [|by apply drop_touches].
  cbv zeta. set (c3 := match _ with [] => _ | _ => _ end).
  assert (Hid : m_id c3 = m_id c1).
  { subst c3. simpl. destruct (tail (m_sendQueue c)); [done|].
    by destruct (sendNext_flags (set_sendQueue (s :: l) c1)) as (-> & _). }
  rewrite <- Hid. by apply store_touches.
Qed.

Lemma onRecvComplete_touches ec n sock c L :
  Touches (m_id c) L (onRecvComplete ec n (set_socket sock c) L).
Proof.
  unfold onRecvComplete.
  set (c1 := set_isReading false (set_socket sock c)).
  change (m_id c) with (m_id c1).
  destruct (ec_failed ec).
  { apply drop_touches. by destruct (negb _). }
  destruct (negb _); [|by apply drop_touches].
  cbv zeta. set (c2 := set_receiver _ c1).
  change (m_id c1) with (m_id c2).
  destruct (isValidFrame _); [|by apply drop_touches].
  destruct (sendFrame_flags Close "" c2) as (Hi & _).
  set (c4 := beginRecvFrame _).
  destruct (opcode (m_receiver c2));
    try (change (m_id c2) with (m_id c4); apply store_touches; unfold processFrame;
         by destruct (opcode _)).
  rewrite <- Hi. by apply drop_touches.
Qed.

Lemma runTask_touches f k conn L :
  Table_ok (m_connTable L) ->
  match f with SendTask connId _ _ => connId | DropTask connId => connId end = k ->
  find k (m_connTable L) = Some conn -> Touches k L (runTask f L).
Proof.
  intros Ht Hk Hf. destruct (proj1 Ht _ _ Hf) as [Hid _ _ _ _].
  destruct f as [connId message isBinary|connId]; simpl; subst connId;
    unfold ServerLogic_find; rewrite Hf.
  - destruct (sendFrame_flags (if isBinary then Binary else Text) message conn)
      as (Hi & _).
    rewrite <- Hid, <- Hi. by apply store_touches.
  - rewrite <- Hid. by apply drop_touches.
Qed.

(** A handler that runs for a connection of the table keeps the closed
    connections closed. *)
Lemma handler_keeps_closed nid k L L' :
  ClosedExcept nid (m_connTable L) -> is_Some (find k (m_connTable L)) ->
  Touches k L L' -> Disconnect_effect k L L' ->
  ClosedExcept nid (m_connTable L').
Proof.
  intros Hc [c Hf] [_ Ht] He j c' Hj Hne.
  destruct (N.eq_dec j k) as [->|Hjk].
  - pose proof (Hc k c Hf Hne) as Hcl.
    destruct He as [[_ Hm]|(c0 & Hf0 & Hc0 & _)]; [by apply (Hm c c')|congruence].
  - rewrite (Ht j Hjk) in Hj. by apply (Hc j c').
Qed.

Lemma stop_begin_Stopping s :
  Stopping (m_lastConnId (table s)) (stop_begin s).
Proof.
  split; [done|]. split; [|done].
  intros j c Hj _. apply (stop_begin_AllClosed s j c Hj).
Qed.

(** From [stop] on, a handler delivers no Disconnect but for the
    connection whose handshake was in progress. *)
Lemma dispatch_Stopping last ev s :
  Table_ok (table s) -> Stopping last s ->
  Stopping last (dispatch ev s)
  /\ forall id, id <> ConnectionId_incr last ->
       Disconnects id (events (dispatch ev s)) = Disconnects id (events s).
Proof.
  intros Ht (Hs & Hc & Hl). split.
  - split; [by destruct (dispatch_fields ev s) as (-> & _)|].
    unfold table in *.
    destruct ev as [|ec|io|id ec n|id ec]; simpl.
    + destruct (m_ioService s) as [|f rest]; [done|]. simpl.
      assert (Hdone : runTask f (m_logic s) = m_logic s \/
        exists k conn, find k (m_connTable (m_logic s)) = Some conn
          /\ Touches k (m_logic s) (runTask f (m_logic s))).
      { destruct f as [connId message isBinary|connId];
          destruct (find connId (m_connTable (m_logic s))) as [conn|] eqn:E.
        - right. exists connId, conn. split; [done|]. by eapply runTask_touches.
        - left. simpl. unfold ServerLogic_find. by rewrite E.
        - right. exists connId, conn. split; [done|]. by eapply runTask_touches.
        - left. simpl. unfold ServerLogic_find. by rewrite E. }
      destruct Hdone as [->|(k & conn & Hf & Hto)]; [done|].
      split; [|by destruct Hto as [-> _]].
      eapply handler_keeps_closed; eauto. by apply runTask_effect.
    + destruct (accept_loop s) eqn:El; try (split; [done|by rewrite El]).
      unfold acceptLoop. rewrite Hs. done.
    + destruct (accept_loop s) eqn:El; try (split; [done|by rewrite El]). simpl.
      split; [|done]. specialize (Hl eq_refl).
      unfold onAccept. destruct (performHandshake_quiet io (m_logic s)) as [Hq _].
      destruct (performHandshake io (m_logic s)) as [[|] L1]; simpl in *;
        [|by rewrite Hq].
      unfold add. rewrite Hq, Hl.
      destruct (_ !! _) eqn:E; simpl; [done|].
      intros j c Hj Hne. unfold find in Hj. simpl in Hj.
      rewrite lookup_insert_ne in Hj by done. by apply (Hc j c).
    + destruct (ServerLogic_find id (m_logic s)) as [conn|] eqn:E; [|done].
      destruct (reads_pending _); [done|]. simpl.
      destruct (proj1 Ht _ _ E) as [Hid _ _ _ _].
      pose proof (onRecvComplete_touches ec n (read_completes (m_socket conn)) conn
                    (m_logic s)) as Hto.
      rewrite Hid in Hto. split; [|by destruct Hto as [-> _]].
      eapply handler_keeps_closed; eauto.
      apply onRecvComplete_effect. by rewrite Hid.
    + destruct (ServerLogic_find id (m_logic s)) as [conn|] eqn:E; [|done].
      destruct (writes_pending _); [done|]. simpl.
      destruct (proj1 Ht _ _ E) as [Hid _ _ _ _].
      pose proof (onSendComplete_touches ec (write_completes ec (m_socket conn)) conn
                    (m_logic s)) as Hto.
      rewrite Hid in Hto. split; [|by destruct Hto as [-> _]].
      eapply handler_keeps_closed; eauto.
      apply onSendComplete_effect. by rewrite Hid.
  - intros id Hne.
    destruct (step_effect id (Worker ev) s Ht) as [[He _]|(c & Hf & Hcl & _)]; [done|].
    rewrite (Hc id c Hf Hne) in Hcl. discriminate.
Qed.

Lemma run_Stopping last sched s :
  Table_ok (table s) -> Stopping last s ->
  forall id, id <> ConnectionId_incr last ->
    Disconnects id (events (run sched s)) = Disconnects id (events s).
Proof.
  revert s. induction sched as [|ev sched IH]; intros s Ht Hst id Hne; simpl; [done|].
  destruct (dispatch_Stopping last ev s Ht Hst) as [Hst' Hd].
  rewrite IH; auto using dispatch_ok.
Qed.

(** A connection of the table always has an operation outstanding. *)
Lemma ok_busy k c : Connection_ok k c -> Connection_busy c = true.
Proof.
  intros [_ [Hr Hw Hs _] _ _ Hl]. unfold Connection_busy. rewrite Hr, Hw.
  destruct (m_isReading c); [done|]. simpl in Hl. rewrite Hl in *.
  destruct (m_sendQueue c); [by destruct Hs|done].
Qed.

(** When the io_service has run out of work, every connection has been
    removed from the table. *)
Lemma no_work_empty s :
  Table_ok (table s) -> io_service_has_work s = false ->
  m_connections (table s) = ∅ /\ m_ioService s = [] /\ accept_loop s = LoopReturned.
Proof.
  intros [Hm _] Hw. unfold io_service_has_work in Hw.
  apply orb_false_iff in Hw as [Hw He]. apply orb_false_iff in Hw as [Hq Ha].
  split; [|split].
  - apply map_empty. intros k.
    destruct (m_connections (table s) !! k) as [c|] eqn:E; [|done].
    exfalso. apply not_true_iff_false in He. apply He.
    apply existsb_exists. exists c. split; [|by apply (ok_busy k), Hm].
    apply in_map_iff. exists (k, c). split; [done|].
    apply list_elem_of_In. by apply elem_of_map_to_list.
  - destruct (m_ioService s); [done|discriminate].
  - by destruct (accept_loop s).
Qed.

(** [stop] with the worker serving: the flag is set when [run] returns,
    so that the worker leaves its loop then. *)
Lemma stop_unfold sched s :
  stop sched s
  = if m_workerThread s then
      let s1 := run sched (stop_begin s) in
      if io_service_has_work s1 then Blocked s1
      else Returned
        {| m_isStopped := m_isStopped s1; m_ioService := m_ioService s1;
           m_acceptor := m_acceptor s1; accept_loop := accept_loop s1;
           m_workerThread := false; m_logic := m_logic s1 |}
    else Throws (stop_begin s).
Proof.
  unfold stop, join, join_from, workerThread. cbn [m_workerThread stop_begin].
  destruct (m_workerThread s); [|done]. cbv zeta.
  destruct (io_service_has_work _); [done|].
  destruct (run_fields sched (stop_begin s)) as (Hs & _).
  simpl in Hs. rewrite Hs at 1. reflexivity.
Qed.

(** What holds when [stop] returns. *)
Lemma stop_Returned sched s s' :
  Table_ok (table s) -> stop sched s = Returned s' ->
  m_isStopped s' = true /\ m_acceptor s' = false /\ m_workerThread s' = false
  /\ accept_loop s' = LoopReturned /\ m_ioService s' = []
  /\ m_connections (table s') = ∅
  /\ (forall id, id <> ConnectionId_incr (m_lastConnId (table s)) ->
        Disconnects id (events s') = Disconnects id (events s))
  /\ (accept_loop s <> InHandshake -> events s' = events s).
Proof.
  intros Ht. rewrite stop_unfold. cbv zeta.
  destruct (m_workerThread s); [|done].
  destruct (io_service_has_work (run sched (stop_begin s))) eqn:Hw; [done|].
  intros [= <-]. simpl.
  assert (Ht1 : Table_ok (table (stop_begin s))).
  { unfold table. simpl. by apply closeAll_ok. }
  destruct (no_work_empty _ (run_ok sched _ Ht1) Hw) as (Hm & Hq & Ha).
  destruct (run_fields sched (stop_begin s)) as (Hs & Hacc & _).
  split; [done|]. split; [done|]. split; [done|]. split; [done|].
  split; [done|]. split; [done|]. split.
  - intros id Hne.
    apply (run_Stopping (m_lastConnId (table s)) sched (stop_begin s) Ht1
             (stop_begin_Stopping s) id Hne).
  - intros Hl.
    apply (run_after_stop sched (stop_begin s) (stop_begin_AllClosed s) eq_refl Hl).
Qed.

(** [join] on a thread that has been joined throws. *)
Lemma stop_not_joinable sched s :
  m_workerThread s = false -> stop sched s = Throws (stop_begin s).
Proof. intros E. rewrite stop_unfold. by rewrite E. Qed.
End Shutdown.

(** ** Allocation of identifiers *)

Section Identifiers.
Context `{ServerFwd} `{Frames}.

Lemma ConnectionId_incr_small id :
  id + 1 < 2 ^ ConnectionId_bits -> ConnectionId_incr id = id + 1.
Proof. intros Hlt. unfold ConnectionId_incr. by apply N.mod_small. Qed.

(** While the counter does not wrap, [add] hands out the successor of
    the last identifier, and it is not in the table yet. *)
Lemma add_fresh socket t :
  Keys_bounded t -> m_lastConnId t + 1 < 2 ^ ConnectionId_bits ->
  m_id (fst (add socket t)) = m_lastConnId t + 1
  /\ m_lastConnId (snd (add socket t)) = m_lastConnId t + 1
  /\ Keys_bounded (snd (add socket t)).
Proof.
  intros Hk Hlt. unfold add. rewrite (ConnectionId_incr_small _ Hlt).
  destruct (_ !! _) as [present|] eqn:E.
  - assert (m_lastConnId t + 1 <= m_lastConnId t) by (apply Hk; eauto). lia.
  - simpl. repeat split; auto. intros k [c Hc]. simpl in *.
    destruct (N.eq_dec k (m_lastConnId t + 1)) as [->|Hne]; [lia|].
    rewrite lookup_insert_ne in Hc by done.
    assert (k <= m_lastConnId t) by (apply Hk; eauto). lia.
Qed.

Lemma erase_bounded conn t : Keys_bounded t -> Keys_bounded (erase conn t).
Proof.
  intros Hk k [c Hc]. simpl in *.
  destruct (N.eq_dec (m_id conn) k) as [E|Hne].
  - rewrite E in Hc. by rewrite lookup_delete_eq in Hc.
  - rewrite lookup_delete_ne in Hc by done. apply Hk. eauto.
Qed.

Lemma count_adds_cons op ops :
  count_adds (op :: ops) = (if is_OpAdd op then 1 else 0) + count_adds ops.
Proof. unfold count_adds. simpl. destruct (is_OpAdd op); simpl; lia. Qed.

Lemma allocated_increasing ops :
  forall t, Keys_bounded t ->
  m_lastConnId t + count_adds ops < 2 ^ ConnectionId_bits ->
  StronglySorted N.lt (allocated ops t)
  /\ Forall (fun id => m_lastConnId t < id) (allocated ops t).
Proof.
  induction ops as [|[socket|connId] ops IH]; intros t Hk Hlt; simpl.
  - split; constructor.
  - rewrite count_adds_cons in Hlt. simpl in Hlt.
    destruct (add_fresh socket t Hk) as (Hid & Hlast & Hk'); [lia|].
    destruct (add socket t) as [conn t']. simpl in *.
    destruct (IH t' Hk') as [Hs Hf]; [lia|].
    rewrite Hid. rewrite Hlast in Hf. split.
    + constructor; [done|]. exact Hf.
    + constructor; [lia|]. eapply Forall_impl; [exact Hf|]. simpl. intros; lia.
  - rewrite count_adds_cons in Hlt. simpl in Hlt.
    destruct (find connId t) as [conn|]; [|by apply IH].
    apply (IH (erase conn t)); [by apply erase_bounded|done].
Qed.

Lemma StronglySorted_lt_NoDup (l : list N) : StronglySorted N.lt l -> NoDup l.
Proof.
  induction 1 as [|x l Hs IH Hf]; constructor; [|done].
  intros Hin. rewrite Forall_forall in Hf. specialize (Hf x Hin). lia.
Qed.

(** After [n] connections have come and gone the table is empty again
    and the counter has advanced by [n], modulo two to the width. *)
Lemma come_and_go_counter n :
  forall t, m_connections t = ∅ -> m_lastConnId t < 2 ^ ConnectionId_bits ->
  m_connections (come_and_go n t) = ∅
  /\ m_lastConnId (come_and_go n t) = (m_lastConnId t + n) mod 2 ^ ConnectionId_bits.
Proof.
  intros t He Hlt. unfold come_and_go.
  induction n as [|n IH] using N.peano_ind.
  - simpl. split; [done|]. rewrite N.add_0_r. symmetry. by apply N.mod_small.
  - rewrite N.iter_succ. destruct IH as [IHe IHl].
    set (t1 := N.iter n _ t) in *.
    unfold add. rewrite IHe, lookup_empty. simpl.
    rewrite delete_insert_eq, delete_empty. split; [done|].
    unfold ConnectionId_incr. rewrite IHl.
    rewrite N.Div0.add_mod_idemp_l.
    f_equal. lia.
Qed.
End Identifiers.

(** ** Erasure from the table *)

Section Erasure.
Context `{ServerFwd} `{Frames} `{Handshake}.

Lemma Erase_effect_same L L' :
  m_connTable L' = m_connTable L -> Erase_effect L L'.
Proof. intros E. left. by rewrite E. Qed.

Lemma store_erase_effect conn L0 L :
  m_connTable L0 = m_connTable L -> Erase_effect L (with_connTable (store conn) L0).
Proof.
  intros E. left. simpl. rewrite E. split; [done|].
  intros id Hid. unfold find in *. simpl.
  destruct (N.eq_dec (m_id conn) id) as [<-|Hne].
  - rewrite lookup_insert_eq. eauto.
  - by rewrite lookup_insert_ne.
Qed.

Lemma drop_erase_effect conn L0 L :
  m_connTable L0 = m_connTable L -> Erase_effect L (drop conn L0).
Proof.
  intros E. rewrite drop_unfold. cbv zeta.
  set (L1 := if m_isClosed conn then L0 else _).
  assert (E1 : m_connTable L1 = m_connTable L) by (subst L1; by destruct (m_isClosed conn)).
  destruct (negb (m_isReading conn) && negb (m_isSending conn)).
  - right. left. exists (close conn). simpl. rewrite E1. split; [done|].
    split; [apply close_closed|].
    intros id Hid Hne. unfold find in *. simpl. by rewrite lookup_delete_ne.
  - by apply store_erase_effect.
Qed.

Lemma onSendComplete_erase_effect ec conn L :
  Erase_effect L (onSendComplete ec conn L).
Proof.
  unfold onSendComplete.
  destruct (ec_failed ec); [by apply drop_erase_effect|].
  destruct (negb _); [by apply store_erase_effect|by apply drop_erase_effect].
Qed.

Lemma onRecvComplete_erase_effect ec n conn L :
  Erase_effect L (onRecvComplete ec n conn L).
Proof.
  unfold onRecvComplete.
  destruct (ec_failed ec).
  { apply drop_erase_effect. by destruct (negb _). }
  destruct (negb _); [|by apply drop_erase_effect].
  destruct (isValidFrame _); [|by apply drop_erase_effect].
  destruct (opcode _); try (by apply drop_erase_effect);
    apply store_erase_effect; unfold processFrame; by destruct (opcode _).
Qed.

Lemma step_erase_effect a s : Erase_effect (m_logic s) (m_logic (step a s)).
Proof.
  destruct a as [[|ec|io|k ec n|k ec]| | |]; simpl; try (by apply Erase_effect_same).
  - destruct (m_ioService s) as [|[connId message isBinary|connId] rest];
      [by apply Erase_effect_same|..]; simpl;
      destruct (ServerLogic_find _ (m_logic s)); try (by apply Erase_effect_same).
    + by apply store_erase_effect.
    + by apply drop_erase_effect.
  - destruct (accept_loop s); try (by apply Erase_effect_same).
    unfold acceptLoop. destruct (m_isStopped s); [by apply Erase_effect_same|].
    destruct (negb (ec_failed ec)); by apply Erase_effect_same.
  - destruct (accept_loop s); try (by apply Erase_effect_same). simpl.
    unfold onAccept. destruct (performHandshake_quiet io (m_logic s)) as [Ht _].
    destruct (performHandshake io (m_logic s)) as [[|] L1]; simpl in *;
      [|by apply Erase_effect_same].
    unfold Erase_effect, add. rewrite <- Ht.
    destruct (_ !! _) eqn:E; simpl.
    + right. right. eexists. split; [done|]. split; [done|]. simpl.
      unfold find. rewrite E. eauto.
    + left. split; [done|].
      intros id Hid. unfold find in *. simpl.
      destruct (N.eq_dec (ConnectionId_incr (m_lastConnId (m_connTable L1))) id)
        as [<-|Hne].
      * rewrite lookup_insert_eq. eauto.
      * by rewrite lookup_insert_ne.
  - destruct (ServerLogic_find k (m_logic s)); [|by apply Erase_effect_same].
    destruct (reads_pending _); [by apply Erase_effect_same|].
    apply onRecvComplete_erase_effect.
  - destruct (ServerLogic_find k (m_logic s)); [|by apply Erase_effect_same].
    destruct (writes_pending _); [by apply Erase_effect_same|].
    apply onSendComplete_erase_effect.
  - left. simpl. split; [done|]. intros id. unfold find. simpl.
    rewrite lookup_fmap. intros [c ->]. simpl. eauto.
Qed.

(** A connection that a step removes from the table is the one the
    step destroys. *)
Lemma step_erased a s id :
  Table_ok (table s) ->
  is_Some (find id (table s)) -> find id (table (step a s)) = None ->
  exists c, destroyed (table (step a s)) = destroyed (table s) ++ [c]
    /\ m_id c = id /\ Removable c.
Proof.
  intros Ht Hin Hout.
  pose proof (step_ok a s Ht) as [_ Hd].
  destruct (step_erase_effect a s)
    as [[_ Hkeep]|[(c & Hdes & Hc & Hkeep)|(c & _ & _ & _ & Hkeep)]]; unfold table in *.
  - apply Hkeep in Hin. rewrite Hout in Hin. by destruct Hin.
  - exists c. split; [done|]. split.
    + destruct (N.eq_dec id (m_id c)) as [->|Hne]; [done|].
      apply Hkeep in Hin; [|done]. rewrite Hout in Hin. by destruct Hin.
    + rewrite Hdes in Hd. apply Forall_app in Hd as [_ Hd].
      inversion Hd as [|? ? [Hrem|Hnew] _]; subst; [done|].
      rewrite Hnew in Hc. discriminate.
  - apply Hkeep in Hin. rewrite Hout in Hin. by destruct Hin.
Qed.
End Erasure.

(** * The lifecycle of a connection *)

Section Lifecycle.
Context `{ServerFwd} `{Frames} `{Handshake}.

(** A handshake that succeeds writes no log line: [performHandshake]
    returns true and leaves the logic as it is. *)
Lemma performHandshake_ok io L :
  handshake_succeeded io = true -> performHandshake io L = (true, L).
Proof.
  unfold performHandshake, handshake_succeeded.
  destruct (ec_failed (hs_read_ec io)); [done|].
  destruct (handshake (hs_request io)) as [[|code] reply]; [|done].
  simpl. by destruct (ec_failed (hs_write_ec io)).
Qed.

(** Every width has a reachable state in which the identifier that
    [add] hands out next is taken. *)
Lemma accept_n_Reachable io n s : Reachable s -> Reachable (accept_n io n s).
Proof.
  intros Hr. induction n as [|n IH]; simpl; [done|].
  apply (Reachable_step (Worker (HandshakeDone io))).
  by apply (Reachable_step (Worker (Accepted 0%Z))).
Qed.

Lemma accept_n_keys io n :
  handshake_succeeded io = true -> N.of_nat n <= 2 ^ ConnectionId_bits ->
  let s := accept_n io n ServerImpl_new in
  m_isStopped s = false /\ accept_loop s = WaitingAccept
  /\ m_lastConnId (table s) = N.of_nat n mod 2 ^ ConnectionId_bits
  /\ (forall k, is_Some (find k (table s))
        <-> exists j, 1 <= j <= N.of_nat n /\ k = j mod 2 ^ ConnectionId_bits).
Proof.
  intros Hok. pose proof (N.pow_nonzero 2 ConnectionId_bits ltac:(lia)) as HW.
  set (W := 2 ^ ConnectionId_bits) in *.
  induction n as [|n IH]; intros Hn s.
  - subst s. simpl. split; [done|]. split; [done|].
    split; [by rewrite N.Div0.mod_0_l|].
    intros k. unfold find. simpl. rewrite lookup_empty. split.
    + by intros [? ?].
    + intros (j & Hj & _). lia.
  - destruct (IH ltac:(lia)) as (Hst & Hal & Hlast & Hkeys). clear IH.
    subst s. cbn [accept_n]. set (s0 := accept_n io n ServerImpl_new) in *.
    assert (Hs1 : step (Worker (Accepted 0%Z)) s0 = set_accept_loop InHandshake s0).
    { simpl. rewrite Hal. unfold acceptLoop. by rewrite Hst. }
    rewrite Hs1. cbn [step dispatch set_accept_loop accept_loop].
    unfold acceptLoop_handshake, table. cbn [set_accept_loop with_logic m_logic
      m_isStopped accept_loop].
    unfold onAccept. rewrite (performHandshake_ok _ _ Hok).
    fold (table s0).
    assert (Hid : ConnectionId_incr (m_lastConnId (table s0)) = N.of_nat (S n) mod W).
    { unfold ConnectionId_incr. fold W. rewrite Hlast.
      rewrite N.Div0.add_mod_idemp_l. f_equal. lia. }
    unfold add. cbv zeta. rewrite Hid.
    destruct (_ !! _) as [c|] eqn:E.
    { exfalso. destruct (proj1 (Hkeys _) (ex_intro _ c E)) as (j & Hj & Hjk).
      rewrite (N.mod_small j W) in Hjk by lia.
      destruct (N.eq_dec (N.of_nat (S n)) W) as [HeqW|HneW].
      - rewrite HeqW, N.Div0.mod_same in Hjk. lia.
      - rewrite N.mod_small in Hjk by lia. lia. }
    simpl.
    split; [done|]. split; [done|]. split; [done|].
    intros k. unfold find. simpl. split.
    + intros Hk. destruct (N.eq_dec k (N.of_nat (S n) mod W)) as [->|Hne].
      * exists (N.of_nat (S n)). split; [lia|done].
      * rewrite lookup_insert_ne in Hk by done.
        destruct (proj1 (Hkeys k) Hk) as (j & Hj & Hjk). exists j. split; [lia|done].
    + intros (j & Hj & ->).
      destruct (N.eq_dec (j mod W) (N.of_nat (S n) mod W)) as [->|Hne].
      * rewrite lookup_insert_eq. eauto.
      * rewrite lookup_insert_ne by done. apply Hkeys. exists j. split; [|done].
        destruct (N.eq_dec j (N.of_nat (S n))) as [->|]; [done|lia].
Qed.

Lemma next_id_taken_Reachable io :
  handshake_succeeded io = true ->
  exists s, Reachable s /\ accept_loop s = InHandshake
    /\ is_Some (find (ConnectionId_incr (m_lastConnId (table s))) (table s)).
Proof.
  intros Hok. pose proof (N.pow_nonzero 2 ConnectionId_bits ltac:(lia)) as HW.
  set (n := N.to_nat (2 ^ ConnectionId_bits)).
  destruct (accept_n_keys io n Hok ltac:(lia)) as (Hst & Hal & Hlast & Hkeys).
  set (s0 := accept_n io n ServerImpl_new) in *.
  exists (step (Worker (Accepted 0%Z)) s0).
  assert (Hs1 : step (Worker (Accepted 0%Z)) s0 = set_accept_loop InHandshake s0).
  { simpl. rewrite Hal. unfold acceptLoop. by rewrite Hst. }
  split; [|rewrite Hs1; split; [done|]].
  - apply (Reachable_step (Worker (Accepted 0%Z))). apply accept_n_Reachable. by exists [].
  - change (table (set_accept_loop InHandshake s0)) with (table s0).
    apply Hkeys. exists 1. split; [lia|].
    rewrite Hlast. unfold ConnectionId_incr. subst n.
    rewrite N2Nat.id, N.Div0.mod_same. done.
Qed.

(** C1: a connection object is not only destroyed when it is closed and
    neither reading nor sending. [add] makes the connection, whose
    constructor starts the first read, before [emplace] looks the key up:
    when the identifier is taken, which every width of [ConnectionId]
    allows once the counter has wrapped around, the new object is
    destroyed at once, not closed, reading, its read outstanding, and the
    assertion of its destructor fails. That is the only such destruction:
    every other object destroyed was removable, and a connection that a
    step removes from the table is destroyed by that step, closed, neither
    reading nor sending, with no operation outstanding. *)
Theorem add_destroys_connection_while_reading (io : HandshakeIO) :
  handshake_succeeded io = true ->
  (forall s, Reachable s -> accept_loop s = InHandshake ->
     is_Some (find (ConnectionId_incr (m_lastConnId (table s))) (table s)) ->
     let c := Connection_new (ConnectionId_incr (m_lastConnId (table s))) Socket_new in
     let s' := dispatch (HandshakeDone io) s in
     destroyed (table s') = destroyed (table s) ++ [c]
     /\ m_isClosed c = false /\ m_isReading c = true
     /\ reads_pending (m_socket c) = 1%nat
     /\ Connection_dtor_assert c = false
     /\ m_connections (table s') = m_connections (table s))
  /\ (exists s, Reachable s /\ accept_loop s = InHandshake
        /\ is_Some (find (ConnectionId_incr (m_lastConnId (table s))) (table s)))
  /\ (forall s c, Reachable s -> In c (destroyed (table s)) ->
        (m_isClosed c = true /\ m_isReading c = false /\ m_isSending c = false
         /\ reads_pending (m_socket c) = 0%nat /\ writes_pending (m_socket c) = []
         /\ Connection_dtor_assert c = true)
        \/ c = Connection_new (m_id c) Socket_new)
  /\ (forall s a id, Reachable s ->
        is_Some (find id (table s)) -> find id (table (step a s)) = None ->
        exists c, destroyed (table (step a s)) = destroyed (table s) ++ [c]
          /\ m_id c = id /\ m_isClosed c = true
          /\ m_isReading c = false /\ m_isSending c = false
          /\ reads_pending (m_socket c) = 0%nat /\ writes_pending (m_socket c) = []).
Proof.
  intros Hok. split; [|split; [|split]].
  - intros s _ Hal [present Hp] c s'. subst s'. simpl. rewrite Hal.
    unfold acceptLoop_handshake, table. simpl.
    unfold onAccept. rewrite (performHandshake_ok _ _ Hok).
    unfold add. cbv zeta. unfold find, table in Hp. rewrite Hp. simpl. done.
  - by apply (next_id_taken_Reachable io).
  - intros s c Hr Hin. destruct (Reachable_ok s Hr) as [_ Hd].
    rewrite List.Forall_forall in Hd.
    destruct (Hd c Hin) as [(Hc & Hrd & Hsd & Hrp & Hwp)|Hnew]; [left|by right].
    unfold Connection_dtor_assert. auto 10.
  - intros s a id Hr Hin Hout. pose proof (Reachable_ok s Hr) as Ht.
    destruct (step_erased a s id Ht Hin Hout)
      as (c & Hd & Hid & Hc & Hrd & Hsd & Hrp & Hwp).
    exists c. auto 10.
Qed.
End Lifecycle.

Section LifecycleExamples.
#[local] Existing Instance ConnectionId8.
#[local] Existing Instance PingFrames.
#[local] Existing Instance AcceptAll.

Lemma add_destroys_connection_while_reading_witness :
  Reachable all_ids_taken
  /\ size (m_connections (table all_ids_taken)) = 256%nat
  /\ destroyed (table (dispatch (HandshakeDone io_ok) all_ids_taken))
     = [Connection_new 1 Socket_new]
  /\ m_isReading (Connection_new 1 Socket_new) = true
  /\ Connection_dtor_assert (Connection_new 1 Socket_new) = false.
Proof.
  assert (Hr : Reachable all_ids_taken).
  { apply (Reachable_step (Worker (Accepted 0%Z)) (accept_n io_ok 256 ServerImpl_new)).
    apply (accept_n_Reachable io_ok 256). by exists []. }
  assert (Hal : accept_loop all_ids_taken = InHandshake) by (vm_compute; reflexivity).
  assert (Hk : is_Some (find (ConnectionId_incr (m_lastConnId (table all_ids_taken)))
                          (table all_ids_taken))) by (vm_compute; eauto).
  assert (Hok : handshake_succeeded io_ok = true) by reflexivity.
  destruct (add_destroys_connection_while_reading io_ok Hok) as [Hdiv _].
  destruct (Hdiv all_ids_taken Hr Hal Hk) as (Hd & _).
  split; [exact Hr|]. split; [vm_compute; reflexivity|].
  split; [rewrite Hd; vm_compute; reflexivity|].
  split; reflexivity.
Defined.
End LifecycleExamples.

Section DisconnectDelivery.
Context `{ServerFwd} `{Frames} `{Handshake}.

End DisconnectDelivery.

Section DisconnectDeliveryExamples.
#[local] Existing Instance ConnectionId64.
#[local] Existing Instance PingFrames.
#[local] Existing Instance AcceptAll.

End DisconnectDeliveryExamples.

(** * Shutdown *)

Section StopEvents.
Context `{ServerFwd} `{Frames} `{Handshake}.

(** C3: when [stop] returns, the acceptor is closed and the accept loop
    has returned, the worker has run out of work and has been joined, and
    every connection has been removed from the table; but no Disconnect
    has been delivered for any connection that was in the table when
    [stop] was called: [closeAll] marks them closed without the callback,
    and [drop] then finds them closed already. Only the identifier that
    [add] hands out next, to the connection of a handshake in progress
    during [stop], can receive one; when no handshake was in progress,
    no event at all is delivered from the call of [stop] on. *)
Theorem stop_delivers_no_Disconnect (sched : list Completion) (s s' : ServerImpl) :
  Reachable s -> stop sched s = Returned s' ->
  (forall id, id <> ConnectionId_incr (m_lastConnId (table s)) ->
     Disconnects id (events s') = Disconnects id (events s))
  /\ (accept_loop s <> InHandshake -> events s' = events s)
  /\ m_connections (table s') = ∅
  /\ m_isStopped s' = true /\ m_acceptor s' = false /\ accept_loop s' = LoopReturned
  /\ m_ioService s' = [] /\ m_workerThread s' = false.
Proof.
  intros Hr Hs. pose proof (Reachable_ok s Hr) as Ht.
  destruct (stop_Returned sched s s' Ht Hs) as (H2 & H3 & H4 & H5 & H6 & H7 & H8 & H9).
  auto 10.
Qed.

(** [stop] when the worker has been joined already. *)
Lemma stop_again_throws (sched sched' : list Completion) (s s' : ServerImpl) :
  stop sched s = Returned s' -> stop sched' s' = Throws (stop_begin s').
Proof.
  rewrite (stop_unfold sched s). cbv zeta. destruct (m_workerThread s); [|done].
  destruct (io_service_has_work _); [done|]. intros [= <-].
  by apply stop_not_joinable.
Qed.

(** C7: after [stop] has returned, the destructor does not call it a
    second time: it returns at once and leaves the server as it is,
    stopped. A second direct call of [stop] does not complete: the join
    of the worker thread, which has been joined already, throws. *)
Theorem destructor_after_stop_is_safe (sched sched' : list Completion) (s s' : ServerImpl) :
  stop sched s = Returned s' ->
  ServerImpl_dtor sched' s' = Returned s'
  /\ m_isStopped s' = true
  /\ stop sched' s' = Throws (stop_begin s').
Proof.
  intros Hs. pose proof (stop_again_throws sched sched' s s' Hs) as Hthrow.
  revert Hs. rewrite (stop_unfold sched s). cbv zeta.
  destruct (m_workerThread s); [|done].
  destruct (io_service_has_work _); [done|]. intros [= <-].
  destruct (run_fields sched (stop_begin s)) as (Hst & _).
  unfold ServerImpl_dtor. simpl. rewrite Hst. simpl. done.
Qed.
End StopEvents.

Section StopExamples.
#[local] Existing Instance ConnectionId64.
#[local] Existing Instance PingFrames.
#[local] Existing Instance AcceptAll.

Lemma stop_delivers_no_Disconnect_witness :
  size (m_connections (table hundred_open)) = 100%nat
  /\ stop hundred_drain hundred_open = Returned hundred_stopped
  /\ m_connections (table hundred_stopped) = ∅
  /\ length (events hundred_stopped) = 100%nat
  /\ forall id, Disconnects id (events hundred_stopped) = 0%nat.
Proof.
  assert (Hr : Reachable hundred_open) by (eexists; reflexivity).
  assert (Hs : stop hundred_drain hundred_open = Returned hundred_stopped)
    by (vm_compute; reflexivity).
  destruct (stop_delivers_no_Disconnect hundred_drain hundred_open hundred_stopped Hr Hs)
    as (_ & Hev & Hempty & _).
  split; [vm_compute; reflexivity|]. split; [exact Hs|]. split; [exact Hempty|].
  rewrite Hev by (vm_compute; discriminate).
  split; [vm_compute; reflexivity|].
  intros id. vm_compute. reflexivity.
Defined.

Lemma destructor_after_stop_is_safe_witness :
  ServerImpl_dtor [] two_open_stopped = Returned two_open_stopped
  /\ m_isStopped two_open_stopped = true.
Proof.
  assert (Hs : stop two_open_drain two_open = Returned two_open_stopped)
    by (vm_compute; reflexivity).
  destruct (destructor_after_stop_is_safe two_open_drain [] two_open two_open_stopped Hs)
    as (Hd & Hst & _).
  split; [exact Hd|exact Hst].
Defined.

(** [stop] called a second time, after the first call has returned. *)
Lemma second_stop_throws :
  stop two_open_drain two_open = Returned two_open_stopped
  /\ stop [] two_open_stopped = Throws (stop_begin two_open_stopped).
Proof. split; vm_compute; reflexivity. Qed.
End StopExamples.

(** * The Close frame of the peer *)

Section CloseFrame.
Context `{ServerFwd} `{Frames} `{Handshake}.

(** A valid Close frame arrives on an open connection that has no write
    outstanding: the write of the Close reply is started, the socket is
    closed and one Disconnect is delivered at once; when the write has
    completed the connection is removed, and the reply has reached the
    peer if the write ended without error. *)
Lemma Close_reply_when_idle (s : ServerImpl) (id : ConnectionId) (c : Connection)
    (ec ec' : error_code) (n : N) :
  Reachable s -> find id (table s) = Some c ->
  m_isClosed c = false -> m_sendQueue c = [] -> ec_failed ec = false ->
  isValidFrame (addBytes n (m_receiver c)) = true ->
  opcode (addBytes n (m_receiver c)) = Close ->
  let s1 := dispatch (RecvDone id ec n) s in
  let s2 := dispatch (SendDone id ec') s1 in
  (exists c1, find id (table s1) = Some c1 /\ m_isClosed c1 = true
     /\ writes_pending (m_socket c1) = [mkServerFrame Close ""])
  /\ events s1 = events s ++ [(Disconnect, id, ""%string)]
  /\ find id (table s2) = None
  /\ events s2 = events s1
  /\ exists c2, destroyed (table s2) = destroyed (table s) ++ [c2]
       /\ wire (m_socket c2)
          = wire (m_socket c) ++ (if ec_failed ec' then [] else [mkServerFrame Close ""]).
Proof.
  intros Hr Hf Ec Eq Eec Hv Hop s1 s2.
  pose proof (Reachable_ok s Hr) as Ht.
  destruct (RecvDone_Close id ec n s c Ht Hf Ec Eec Hv Hop)
    as (c1 & Hf1 & Hc1 & Hr1 & Hs1 & Hk1 & Hq1 & Hw1 & Hwire1 & Hev1 & Hd1).
  fold s1 in Hf1, Hev1, Hd1.
  assert (Ht1 : Table_ok (table s1)) by by apply dispatch_ok.
  destruct (SendDone_closed id ec' s1 c1 Ht1 Hf1 Hc1 Hr1 Hs1)
    as (c2 & Hf2 & Hd2 & Hq2 & Hwire2 & Hev2).
  fold s2 in Hf2, Hd2, Hev2.
  destruct (proj1 Ht _ _ Hf) as [_ [_ Hwp Hsq _] _ _ _].
  assert (Hw0 : writes_pending (m_socket c) = []).
  { rewrite Hwp. destruct (m_isSending c); [|done]. by rewrite Eq. }
  rewrite Eq, Hw0 in *. simpl in *.
  split; [by exists c1|]. split; [done|]. split; [done|]. split; [done|].
  exists c2. split; [by rewrite Hd2, Hd1|]. by rewrite Hwire2, Hwire1, Hq1.
Qed.

(** C4: a valid Close frame arrives on an open connection while a write
    is outstanding. The Close reply goes through [sendFrame] and is
    queued behind the frames that wait, but no write is started for it;
    the socket is closed and exactly one Disconnect is delivered at once;
    when the outstanding write has completed, with or without error, the
    connection is removed with the Close reply still in its queue: the
    reply has never been handed to the transport. *)
Theorem Close_reply_not_written_when_busy (s : ServerImpl) (id : ConnectionId)
    (c : Connection) (f : ServerFrame) (q : list ServerFrame)
    (ec ec' : error_code) (n : N) :
  Reachable s -> find id (table s) = Some c ->
  m_isClosed c = false -> m_sendQueue c = f :: q -> ec_failed ec = false ->
  isValidFrame (addBytes n (m_receiver c)) = true ->
  opcode (addBytes n (m_receiver c)) = Close ->
  let s1 := dispatch (RecvDone id ec n) s in
  let s2 := dispatch (SendDone id ec') s1 in
  (exists c1, find id (table s1) = Some c1
     /\ m_isClosed c1 = true /\ sock_open (m_socket c1) = false
     /\ m_sendQueue c1 = f :: q ++ [mkServerFrame Close ""]
     /\ writes_pending (m_socket c1) = [f]
     /\ wire (m_socket c1) = wire (m_socket c))
  /\ events s1 = events s ++ [(Disconnect, id, ""%string)]
  /\ find id (table s2) = None
  /\ events s2 = events s1
  /\ exists c2, destroyed (table s2) = destroyed (table s) ++ [c2]
       /\ m_sendQueue c2 = f :: q ++ [mkServerFrame Close ""]
       /\ wire (m_socket c2) = wire (m_socket c) ++ (if ec_failed ec' then [] else [f]).
Proof.
  intros Hr Hf Ec Eq Eec Hv Hop s1 s2.
  pose proof (Reachable_ok s Hr) as Ht.
  destruct (RecvDone_Close id ec n s c Ht Hf Ec Eec Hv Hop)
    as (c1 & Hf1 & Hc1 & Hr1 & Hs1 & Hk1 & Hq1 & Hw1 & Hwire1 & Hev1 & Hd1).
  fold s1 in Hf1, Hev1, Hd1.
  assert (Ht1 : Table_ok (table s1)) by by apply dispatch_ok.
  destruct (SendDone_closed id ec' s1 c1 Ht1 Hf1 Hc1 Hr1 Hs1)
    as (c2 & Hf2 & Hd2 & Hq2 & Hwire2 & Hev2).
  fold s2 in Hf2, Hd2, Hev2.
  destruct (ok_open_front id c f q (proj1 Ht _ _ Hf) Ec Eq) as [_ Hw0].
  rewrite Eq, Hw0 in *. simpl in *.
  split; [exists c1; auto 10|]. split; [done|]. split; [done|]. split; [done|].
  exists c2. split; [by rewrite Hd2, Hd1|]. split; [by rewrite Hq2, Hq1|].
  by rewrite Hwire2, Hwire1, Hq1.
Qed.
End CloseFrame.

Section CloseFrameExamples.
#[local] Existing Instance ConnectionId64.
#[local] Existing Instance CloseFrames.
#[local] Existing Instance AcceptAll.

Lemma Close_reply_not_written_when_busy_witness :
  let s2 := steps [Worker (RecvDone 1 0%Z 2); Worker (SendDone 1 0%Z)] one_busy in
  find 1 (table s2) = None
  /\ events s2 = [(NewConnection, 1, ""%string); (Disconnect, 1, ""%string)]
  /\ exists c2, destroyed (table s2) = [c2]
       /\ m_sendQueue c2 = [mkServerFrame Text "hello"; mkServerFrame Close ""]
       /\ wire (m_socket c2) = [mkServerFrame Text "hello"].
Proof.
  assert (Hr : Reachable one_busy) by (eexists; reflexivity).
  destruct (Close_reply_not_written_when_busy one_busy 1 one_busy_conn
              (mkServerFrame Text "hello") [] 0%Z 0%Z 2 Hr)
    as (_ & Hev1 & Hf2 & Hev2 & c2 & Hd2 & Hq2 & Hw2);
    [vm_compute; reflexivity|reflexivity|reflexivity|reflexivity|reflexivity|reflexivity|].
  split; [exact Hf2|]. split.
  - change (events (dispatch (SendDone 1 0%Z) (dispatch (RecvDone 1 0%Z 2) one_busy))
            = [(NewConnection, 1, ""%string); (Disconnect, 1, ""%string)]).
    rewrite Hev2, Hev1. reflexivity.
  - exists c2. split; [exact Hd2|]. split; [exact Hq2|exact Hw2].
Defined.
End CloseFrameExamples.

(** * Accepting a connection *)

Section Accept.
Context `{ServerFwd} `{Frames} `{Handshake}.

Lemma performHandshake_succeeded io L :
  fst (performHandshake io L) = handshake_succeeded io.
Proof.
  unfold performHandshake, handshake_succeeded.
  destruct (ec_failed (hs_read_ec io)); [done|].
  destruct (handshake (hs_request io)) as [[|code] reply]; [|done].
  simpl. by destruct (ec_failed (hs_write_ec io)).
Qed.

(** C5: on an accepted socket, NewConnection is delivered if and only if
    the handshake succeeded, that is the request was read without error,
    the status computed from it is OK and the reply was written without
    error. When it succeeded, exactly that one event is delivered and it
    carries the identifier under which the connection is in the table;
    when it failed, no event is delivered and the table is unchanged. *)
Theorem NewConnection_iff_handshake_succeeded (io : HandshakeIO) (L : ServerLogic) :
  fst (performHandshake io L) = handshake_succeeded io
  /\ if handshake_succeeded io
     then exists conn,
            m_callback (onAccept io L)
            = m_callback L ++ [(NewConnection, m_id conn, ""%string)]
            /\ find (ConnectionId_incr (m_lastConnId (m_connTable L)))
                 (m_connTable (onAccept io L)) = Some conn
     else m_callback (onAccept io L) = m_callback L
          /\ m_connTable (onAccept io L) = m_connTable L.
Proof.
  split; [apply performHandshake_succeeded|].
  rewrite <- (performHandshake_succeeded io L). unfold onAccept.
  destruct (performHandshake_quiet io L) as [Ht Hc].
  destruct (performHandshake io L) as [[|] L1]; simpl in *; [|done].
  unfold add. rewrite Ht.
  destruct (_ !! _) as [present|] eqn:E; simpl.
  - exists present. rewrite Hc. split; [done|]. exact E.
  - exists (Connection_new (ConnectionId_incr (m_lastConnId (m_connTable L))) Socket_new).
    rewrite Hc. split; [reflexivity|].
    unfold find. simpl. by rewrite lookup_insert_eq.
Qed.
End Accept.

(** * The send queue *)

Section SendQueueOrder.
Context `{ServerFwd} `{Frames} `{Handshake}.

Lemma steps_app l1 l2 s : steps (l1 ++ l2) s = steps l2 (steps l1 s).
Proof. unfold steps. apply fold_left_app. Qed.

(** C6: [sendFrame] appends to the queue and starts a write only when the
    queue was empty, so a connection never has more than one write
    outstanding; when a write completes without error on an open
    connection, its frame is popped and the write of the next frame, if
    there is one, is started; hence texts sent back to back reach the
    peer in the order of the calls. *)
Theorem send_queue_fifo_single_write (s : ServerImpl) (id : ConnectionId)
    (c : Connection) (msgs : list string) :
  Reachable s -> find id (table s) = Some c -> m_isClosed c = false ->
  m_ioService s = [] ->
  (forall op data d,
     m_sendQueue (sendFrame op data d) = m_sendQueue d ++ [mkServerFrame op data]
     /\ writes_pending (m_socket (sendFrame op data d))
        = writes_pending (m_socket d)
          ++ match m_sendQueue d with [] => [mkServerFrame op data] | _ :: _ => [] end)
  /\ (forall k d, find k (table s) = Some d ->
        (length (writes_pending (m_socket d)) <= 1)%nat)
  /\ (forall k d f q ec, find k (table s) = Some d -> m_isClosed d = false ->
        m_sendQueue d = f :: q -> ec_failed ec = false ->
        exists d', find k (table (dispatch (SendDone k ec) s)) = Some d'
          /\ m_sendQueue d' = q
          /\ writes_pending (m_socket d') = firstn 1 q
          /\ wire (m_socket d') = wire (m_socket d) ++ [f])
  /\ let frames := m_sendQueue c ++ map (mkServerFrame Text) msgs in
     let sent := steps (map (fun m => CallSend id m false) msgs
                        ++ repeat (Worker Posted) (length msgs)) s in
     let done := steps (repeat (Worker (SendDone id 0%Z)) (length frames)) sent in
     (exists d, find id (table sent) = Some d
        /\ m_sendQueue d = frames
        /\ writes_pending (m_socket d) = firstn 1 frames
        /\ wire (m_socket d) = wire (m_socket c))
     /\ (exists d, find id (table done) = Some d
           /\ m_sendQueue d = []
           /\ writes_pending (m_socket d) = []
           /\ wire (m_socket d) = wire (m_socket c) ++ frames)
     /\ events done = events s.
Proof.
  intros Hr Hf Ec Hq. pose proof (Reachable_ok s Hr) as Ht.
  split; [|split; [|split]].
  - intros op data d. split; [apply sendFrame_queue|apply sendFrame_writes].
  - intros k d Hk. apply (ok_writes_at_most_one k). apply (proj1 Ht _ _ Hk).
  - intros k d f q ec Hk Hc Hd Hec.
    destruct (SendDone_success k ec s d f q Ht Hk Hc Hd Hec)
      as (d' & H1' & _ & H2' & H3' & H4' & _).
    exists d'. auto.
  - intros frames sent done.
    assert (Esent : sent
      = {| m_isStopped := m_isStopped s; m_ioService := [];
           m_acceptor := m_acceptor s; accept_loop := accept_loop s;
           m_workerThread := m_workerThread s;
           m_logic := fold_left (fun L f => runTask f L) (SendTasks id msgs) (m_logic s) |}).
    { subst sent. rewrite steps_app, CallSend_posts.
      replace (length msgs) with (length (SendTasks id msgs))
        by (unfold SendTasks; apply length_map).
      rewrite (Posted_runs (SendTasks id msgs)) by (simpl; by rewrite Hq).
      reflexivity. }
    destruct (SendTasks_queue id msgs (m_logic s) c Ht Hf Ec)
      as (Ht' & Hcb & d & Hfd & Ecd & Eqd & Hwd).
    assert (Htab : table sent
              = m_connTable (fold_left (fun L f => runTask f L) (SendTasks id msgs) (m_logic s)))
      by by rewrite Esent.
    assert (Hts : Table_ok (table sent)) by by rewrite Htab.
    assert (Hfs : find id (table sent) = Some d) by by rewrite Htab.
    destruct (queue_drains_in_order id frames sent d Hts Hfs Ecd Eqd)
      as (d' & Hfd' & _ & Eqd' & Hwd' & Hpd' & Hev').
    split; [|split].
    + exists d. split; [done|]. split; [done|]. split; [|done].
      destruct (proj1 Hts _ _ Hfs) as [_ [_ Hwp _ _] _ Hoq _].
      rewrite Hwp. subst frames. rewrite <- Eqd.
      destruct (m_isSending d) eqn:Es; [done|]. by rewrite (Hoq Ecd eq_refl).
    + exists d'. split; [done|]. split; [done|]. split; [done|]. by rewrite Hwd', Hwd.
    + subst done. rewrite Hev'. unfold events. rewrite Esent. simpl. exact Hcb.
Qed.
End SendQueueOrder.

Section SendQueueExamples.
#[local] Existing Instance ConnectionId64.
#[local] Existing Instance PingFrames.
#[local] Existing Instance AcceptAll.

Lemma send_queue_fifo_single_write_witness :
  exists d,
    find 1 (table (steps [CallSend 1 "hello" false; CallSend 1 "world" false;
                          Worker Posted; Worker Posted;
                          Worker (SendDone 1 0%Z); Worker (SendDone 1 0%Z)] one_open))
    = Some d
    /\ wire (m_socket d) = [mkServerFrame Text "hello"; mkServerFrame Text "world"].
Proof.
  assert (Hr : Reachable one_open) by (eexists; reflexivity).
  destruct (send_queue_fifo_single_write one_open 1 (Connection_new 1 Socket_new)
              ["hello"%string; "world"%string] Hr)
    as (_ & _ & _ & _ & (d & Hd & _ & _ & Hw) & _);
    [vm_compute; reflexivity|reflexivity|reflexivity|].
  exists d. split; [exact Hd|exact Hw].
Defined.
End SendQueueExamples.

(** * Frames that are not acted upon *)

Section OtherOpcodes.
Context `{ServerFwd} `{Frames} `{Handshake}.

(** C8: a complete valid frame arrives on an open connection and its
    opcode is neither Text nor Binary nor Close. The code reads the opcode
    twice, before unmasking for the test against Close and after it for
    [processFrame]; the statement follows it. Then no event is delivered,
    the warning about the opcode is the one line logged, the connection
    stays in the table, open, with its socket open and its queue
    untouched, the frame is shifted out of the receive buffer and the
    next read is outstanding. *)
Theorem other_opcodes_are_logged_and_ignored (s : ServerImpl) (id : ConnectionId)
    (c : Connection) (ec : error_code) (n : N) :
  Reachable s -> find id (table s) = Some c -> m_isClosed c = false ->
  ec_failed ec = false ->
  isValidFrame (addBytes n (m_receiver c)) = true ->
  opcode (addBytes n (m_receiver c)) <> Close ->
  opcode (unmask (addBytes n (m_receiver c))) <> Text ->
  opcode (unmask (addBytes n (m_receiver c))) <> Binary ->
  let s' := dispatch (RecvDone id ec n) s in
  events s' = events s
  /\ m_log (m_logic s')
     = m_log (m_logic s)
       ++ [LogUnknownOpcode id (opcode (unmask (addBytes n (m_receiver c))))]
  /\ exists c', find id (table s') = Some c'
       /\ m_isClosed c' = false /\ sock_open (m_socket c') = true
       /\ m_isReading c' = true /\ reads_pending (m_socket c') = 1%nat
       /\ m_sendQueue c' = m_sendQueue c
       /\ writes_pending (m_socket c') = writes_pending (m_socket c)
       /\ m_receiver c' = shiftBuffer (unmask (addBytes n (m_receiver c))).
Proof.
  intros Hr Hf Ec Eec Hv Hc Ht Hb s'.
  pose proof (Reachable_ok s Hr) as Hok.
  destruct (RecvDone_frame id ec n s c Hok Hf Ec Eec Hv Hc) as (Htab & Hlog & Hev).
  fold s' in Htab, Hlog, Hev.
  destruct (ok_open_read id c (proj1 Hok _ _ Hf) Ec) as (Er & Hrp & Hk).
  destruct (proj1 Hok _ _ Hf) as [Hid _ _ _ _].
  assert (Hp : forall msg,
    processFrame id (opcode (unmask (addBytes n (m_receiver c)))) msg (m_logic s)
    = log (LogUnknownOpcode id (opcode (unmask (addBytes n (m_receiver c))))) (m_logic s)).
  { intros msg. unfold processFrame.
    by destruct (opcode (unmask (addBytes n (m_receiver c)))). }
  rewrite Hp in Hlog, Hev. split; [exact Hev|]. split; [exact Hlog|].
  eexists. split.
  - rewrite Htab. unfold find. simpl. rewrite Hid. apply lookup_insert_eq.
  - simpl. rewrite Hrp. auto 10.
Qed.
End OtherOpcodes.

Section OtherOpcodesExamples.
#[local] Existing Instance ConnectionId64.
#[local] Existing Instance PingFrames.
#[local] Existing Instance AcceptAll.

Lemma other_opcodes_are_logged_and_ignored_witness :
  let s' := dispatch (RecvDone 1 0%Z 6) one_open in
  events s' = [(NewConnection, 1, ""%string)]
  /\ m_log (m_logic s') = [LogUnknownOpcode 1 Ping]
  /\ exists c', find 1 (table s') = Some c'
       /\ m_isClosed c' = false /\ m_isReading c' = true.
Proof.
  assert (Hr : Reachable one_open) by (eexists; reflexivity).
  destruct (other_opcodes_are_logged_and_ignored one_open 1 (Connection_new 1 Socket_new)
              0%Z 6 Hr)
    as (Hev & Hlog & c' & Hf & Hc & _ & Hrd & _);
    [vm_compute; reflexivity|reflexivity|reflexivity|reflexivity
    |discriminate|discriminate|discriminate|].
  split; [exact Hev|]. split; [exact Hlog|]. exists c'. auto.
Defined.
End OtherOpcodesExamples.

(** * Connection identifiers *)

Section IdentifierAllocation.
Context `{ServerFwd} `{Frames}.

(** C9: the identifiers that [add] hands out, over any sequence of [add]
    and [erase] on a new table in which [add] is called fewer than two to
    the width of [ConnectionId] times, are strictly increasing, hence
    pairwise distinct: none is handed out twice, whether or not its
    connection has been erased in between. *)
Theorem ConnectionIds_increase_until_wrap (ops : list TableOp) :
  count_adds ops < 2 ^ ConnectionId_bits ->
  StronglySorted N.lt (allocated ops ConnectionTable_new)
  /\ NoDup (allocated ops ConnectionTable_new).
Proof.
  intros Hlt.
  destruct (allocated_increasing ops ConnectionTable_new) as [Hs _].
  - intros k [c Hc]. simpl in Hc. by rewrite lookup_empty in Hc.
  - simpl. lia.
  - split; [done|]. by apply StronglySorted_lt_NoDup.
Qed.
End IdentifierAllocation.

Section IdentifierExamples.
#[local] Existing Instance PingFrames.

Lemma ConnectionIds_increase_until_wrap_witness :
  let ops := [OpAdd Socket_new; OpAdd Socket_new; OpErase 1; OpAdd Socket_new] in
  @allocated ConnectionId64 _ ops ConnectionTable_new = [1; 2; 3]
  /\ StronglySorted N.lt (@allocated ConnectionId64 _ ops ConnectionTable_new).
Proof.
  split; [vm_compute; reflexivity|].
  apply (@ConnectionIds_increase_until_wrap ConnectionId64 _). vm_compute. reflexivity.
Defined.

(** The counter of a new table after [2 ^ bits] connections have come
    and gone is back at zero. *)
Lemma come_and_go_wraps (W : ServerFwd) :
  let t := @come_and_go W _ (2 ^ ConnectionId_bits) ConnectionTable_new in
  m_connections t = ∅ /\ m_lastConnId t = 0.
Proof.
  destruct (@come_and_go_counter W _ (2 ^ ConnectionId_bits) ConnectionTable_new)
    as [He Hl]; [done|simpl; pose proof (N.pow_nonzero 2 ConnectionId_bits); lia|].
  split; [exact He|]. rewrite Hl. simpl. rewrite N.add_0_l. apply N.Div0.mod_same.
Qed.

(** With a [ConnectionId] of 64 bits, and likewise of 32 bits: after
    [2 ^ 64] connections have been added and erased one after the other,
    the next [add] hands out 1, the identifier of the first connection
    ever, again; and the [add] before it handed out 0 after
    [2 ^ 64 - 1]. *)
Lemma ConnectionId_reused_after_wrap :
  (let t := @come_and_go ConnectionId64 _ (2 ^ 64) ConnectionTable_new in
   m_id (fst (@add ConnectionId64 _ Socket_new t)) = 1
   /\ m_id (fst (@add ConnectionId64 _ Socket_new ConnectionTable_new)) = 1)
  /\ (let t := @come_and_go ConnectionId64 _ (2 ^ 64 - 1) ConnectionTable_new in
      m_lastConnId t = 2 ^ 64 - 1
      /\ m_id (fst (@add ConnectionId64 _ Socket_new t)) = 0)
  /\ (let t := @come_and_go ConnectionId32 _ (2 ^ 32) ConnectionTable_new in
      m_id (fst (@add ConnectionId32 _ Socket_new t)) = 1
      /\ m_id (fst (@add ConnectionId32 _ Socket_new ConnectionTable_new)) = 1).
Proof.
  split; [|split].
  - destruct (come_and_go_wraps ConnectionId64) as [He Hl]. cbv zeta.
    split; [|reflexivity].
    unfold add. change (2 ^ 64) with (2 ^ @ConnectionId_bits ConnectionId64).
    rewrite He, Hl. reflexivity.
  - destruct (@come_and_go_counter ConnectionId64 _ (2 ^ 64 - 1) ConnectionTable_new)
      as [He Hl]; [done|reflexivity|].
    cbv zeta. split.
    + rewrite Hl. reflexivity.
    + unfold add. rewrite He, Hl. reflexivity.
  - destruct (come_and_go_wraps ConnectionId32) as [He Hl]. cbv zeta.
    split; [|reflexivity].
    unfold add. change (2 ^ 32) with (2 ^ @ConnectionId_bits ConnectionId32).
    rewrite He, Hl. reflexivity.
Qed.
End IdentifierExamples.

(** * Calls for a connection that is not there *)

Section AbsentConnection.
Context `{ServerFwd} `{Frames} `{Handshake}.

(** C10: [send] and [drop] for an identifier that has no connection in
    the table when the posted work runs do nothing: the calls themselves
    only post their task, and running either task leaves the logic, that
    is the events delivered, the log and the whole table, as it was. *)
Theorem send_drop_on_absent_id_do_nothing (s : ServerImpl) (id : ConnectionId)
    (message : string) (isBinary : bool) :
  find id (table s) = None ->
  m_logic (ServerImpl_send id message isBinary s) = m_logic s
  /\ m_logic (ServerImpl_drop id s) = m_logic s
  /\ runTask (SendTask id message isBinary) (m_logic s) = m_logic s
  /\ runTask (DropTask id) (m_logic s) = m_logic s
  /\ (m_ioService s = [] ->
      dispatch Posted (ServerImpl_send id message isBinary s) = s
      /\ dispatch Posted (ServerImpl_drop id s) = s).
Proof.
  intros Hf. unfold table in Hf.
  assert (Hs : runTask (SendTask id message isBinary) (m_logic s) = m_logic s)
    by (simpl; unfold ServerLogic_find; by rewrite Hf).
  assert (Hd : runTask (DropTask id) (m_logic s) = m_logic s)
    by (simpl; unfold ServerLogic_find; by rewrite Hf).
  split; [done|]. split; [done|]. split; [done|]. split; [done|].
  intros Hq. split.
  - unfold dispatch, ServerImpl_send, enqueue. cbn [m_ioService]. rewrite Hq.
    cbn [app m_logic m_isStopped m_acceptor accept_loop m_workerThread].
    rewrite Hs. destruct s; simpl in *; by subst.
  - unfold dispatch, ServerImpl_drop, enqueue. cbn [m_ioService]. rewrite Hq.
    cbn [app m_logic m_isStopped m_acceptor accept_loop m_workerThread].
    rewrite Hd. destruct s; simpl in *; by subst.
Qed.
End AbsentConnection.

Section AbsentConnectionExamples.
#[local] Existing Instance ConnectionId64.
#[local] Existing Instance PingFrames.
#[local] Existing Instance AcceptAll.

Lemma send_drop_on_absent_id_do_nothing_witness :
  find 7 (table one_open) = None
  /\ steps [CallSend 7 "hello" false; Worker Posted] one_open = one_open
  /\ steps [CallDrop 7; Worker Posted] one_open = one_open.
Proof.
  destruct (send_drop_on_absent_id_do_nothing one_open 7 "hello" false)
    as (_ & _ & _ & _ & Hrun); [reflexivity|].
  destruct (Hrun eq_refl) as [Hs Hd].
  split; [reflexivity|]. split; [exact Hs|exact Hd].
Defined.
End AbsentConnectionExamples.

(** * Further properties *)

(** ** What a completed read does *)

Section ReadOutcomes.
Context `{ServerFwd} `{Frames} `{Handshake}.

(** What [ServerLogic::drop] does, in one equation per member. *)
Lemma drop_members conn L :
  m_connTable (drop conn L) = dropped conn (m_connTable L)
  /\ m_callback (drop conn L)
     = m_callback L ++ (if m_isClosed conn then [] else [(Disconnect, m_id conn, ""%string)])
  /\ m_log (drop conn L) = m_log L.
Proof.
  rewrite drop_unfold. cbv zeta. unfold dropped.
  destruct (negb (m_isReading conn) && negb (m_isSending conn));
    destruct (m_isClosed conn); simpl; by rewrite ?app_nil_r.
Qed.

(** The handler of a read that ends in [drop] without a reply, run for
    an open connection of the table: one Disconnect is delivered, no
    write is started, and the connection is erased at once unless a
    write is outstanding. *)
Lemma open_connection_dropped id c c0 (L0 : ServerLogic) s :
  Table_ok (table s) -> find id (table s) = Some c -> m_isClosed c = false ->
  m_connTable L0 = table s -> m_callback L0 = events s ->
  m_id c0 = id -> m_isClosed c0 = false -> m_isReading c0 = false ->
  m_isSending c0 = m_isSending c -> m_sendQueue c0 = m_sendQueue c ->
  m_socket c0 = read_completes (m_socket c) ->
  m_callback (drop c0 L0) = events s ++ [(Disconnect, id, ""%string)]
  /\ m_log (drop c0 L0) = m_log L0
  /\ if m_isSending c
     then exists c', find id (m_connTable (drop c0 L0)) = Some c'
            /\ m_isClosed c' = true /\ sock_open (m_socket c') = false
            /\ m_isReading c' = false /\ m_isSending c' = true
            /\ m_sendQueue c' = m_sendQueue c
            /\ writes_pending (m_socket c') = writes_pending (m_socket c)
            /\ wire (m_socket c') = wire (m_socket c)
     else find id (m_connTable (drop c0 L0)) = None
          /\ exists c', destroyed (m_connTable (drop c0 L0)) = destroyed (table s) ++ [c']
               /\ m_id c' = id /\ writes_pending (m_socket c') = []
               /\ wire (m_socket c') = wire (m_socket c).
Proof.
  intros Ht Hf Ec HL0 Hcb Hid Hc0 Hr0 Hs0 Hq0 Hk0.
  destruct (drop_members c0 L0) as (Htab & Hev & Hlog).
  rewrite Hev, Hc0, Hcb, Hid. split; [done|]. split; [done|].
  rewrite Htab, HL0. unfold dropped. rewrite Hr0, Hs0.
  destruct (proj1 Ht _ _ Hf) as [_ [_ Hw _ _] _ _ _].
  unfold close. rewrite Hc0.
  destruct (m_isSending c) eqn:Es; simpl.
  - eexists. unfold find. simpl. rewrite Hid, lookup_insert_eq.
    split; [reflexivity|]. simpl. rewrite Hk0. simpl. auto 10.
  - unfold find. simpl. rewrite Hid, lookup_delete_eq. split; [done|].
    eexists. split; [reflexivity|]. simpl. rewrite Hk0. simpl. by rewrite Hw.
Qed.

(** X1: a valid Text or Binary frame arrives on an open connection:
    exactly one Message event is delivered, with the identifier of the
    connection and the unmasked payload; nothing is logged; the frame is
    shifted out of the buffer, the connection stays open and its next read
    is outstanding. *)
Theorem data_frame_is_delivered (s : ServerImpl) (id : ConnectionId)
    (c : Connection) (ec : error_code) (n : N) :
  Reachable s -> find id (table s) = Some c -> m_isClosed c = false ->
  ec_failed ec = false ->
  isValidFrame (addBytes n (m_receiver c)) = true ->
  opcode (addBytes n (m_receiver c)) <> Close ->
  opcode (unmask (addBytes n (m_receiver c))) = Text
  \/ opcode (unmask (addBytes n (m_receiver c))) = Binary ->
  let s' := dispatch (RecvDone id ec n) s in
  events s' = events s ++ [(Message, id, message (unmask (addBytes n (m_receiver c))))]
  /\ m_log (m_logic s') = m_log (m_logic s)
  /\ exists c', find id (table s') = Some c'
       /\ m_isClosed c' = false /\ m_isReading c' = true
       /\ reads_pending (m_socket c') = 1%nat
       /\ m_receiver c' = shiftBuffer (unmask (addBytes n (m_receiver c)))
       /\ m_sendQueue c' = m_sendQueue c
       /\ writes_pending (m_socket c') = writes_pending (m_socket c).
Proof.
  intros Hr Hf Ec Eec Hv Hc Hop s'.
  pose proof (Reachable_ok s Hr) as Hok.
  destruct (RecvDone_frame id ec n s c Hok Hf Ec Eec Hv Hc) as (Htab & Hlog & Hev).
  fold s' in Htab, Hlog, Hev.
  destruct (ok_open_read id c (proj1 Hok _ _ Hf) Ec) as (Er & Hrp & Hk).
  destruct (proj1 Hok _ _ Hf) as [Hid _ _ _ _].
  assert (Hp : forall msg,
    processFrame id (opcode (unmask (addBytes n (m_receiver c)))) msg (m_logic s)
    = callback Message id msg (m_logic s)).
  { intros msg. unfold processFrame. by destruct Hop as [-> | ->]. }
  rewrite Hp in Hlog, Hev. split; [exact Hev|]. split; [exact Hlog|].
  eexists. split.
  - rewrite Htab. unfold find. simpl. rewrite Hid. apply lookup_insert_eq.
  - simpl. rewrite Hrp. auto 10.
Qed.

(** X2: a frame that is not valid arrives on an open connection: the
    connection is dropped. "invalid frame" is the one line logged, one
    Disconnect and no Message is delivered, nothing is queued and no
    write is started; the connection is erased at once, unless a write is
    outstanding, in which case it stays in the table, closed, until that
    write has completed. *)
Theorem invalid_frame_drops_connection (s : ServerImpl) (id : ConnectionId)
    (c : Connection) (ec : error_code) (n : N) :
  Reachable s -> find id (table s) = Some c -> m_isClosed c = false ->
  ec_failed ec = false ->
  isValidFrame (addBytes n (m_receiver c)) = false ->
  let s' := dispatch (RecvDone id ec n) s in
  events s' = events s ++ [(Disconnect, id, ""%string)]
  /\ m_log (m_logic s') = m_log (m_logic s) ++ [LogInvalidFrame id]
  /\ if m_isSending c
     then exists c', find id (table s') = Some c'
            /\ m_isClosed c' = true /\ sock_open (m_socket c') = false
            /\ m_isReading c' = false /\ m_isSending c' = true
            /\ m_sendQueue c' = m_sendQueue c
            /\ writes_pending (m_socket c') = writes_pending (m_socket c)
            /\ wire (m_socket c') = wire (m_socket c)
     else find id (table s') = None
          /\ exists c', destroyed (table s') = destroyed (table s) ++ [c']
               /\ m_id c' = id /\ writes_pending (m_socket c') = []
               /\ wire (m_socket c') = wire (m_socket c).
Proof.
  intros Hr Hf Ec Eec Hv s'.
  pose proof (Reachable_ok s Hr) as Hok.
  destruct (ok_open_read id c (proj1 Hok _ _ Hf) Ec) as (Er & Hrp & Hk).
  destruct (proj1 Hok _ _ Hf) as [Hid _ _ _ _].
  subst s'. unfold dispatch, ServerLogic_find. pose proof Hf as Hf'.
  unfold table in Hf'. rewrite Hf', Hrp.
  unfold table, events, with_logic, onRecvComplete. cbn [m_logic].
  rewrite Eec. cbn [m_isClosed set_isReading set_socket m_receiver set_receiver].
  rewrite Ec. simpl negb. cbv iota zeta.
  cbn [m_isClosed set_isReading set_socket m_receiver set_receiver m_id].
  rewrite Hv.
  set (c0 := set_receiver _ _).
  destruct (open_connection_dropped id c c0 (log (LogInvalidFrame (m_id c)) (m_logic s)) s)
    as (H1' & H2' & H3'); try done.
  rewrite Hid in *. rewrite H1', H2'. split; [done|]. split; [done|]. exact H3'.
Qed.

(** X3: a read of an open connection ends with an error: the connection
    is dropped. One Disconnect and no Message is delivered; the error is
    logged, except the end of file, which is not; no write is started;
    the connection is erased at once unless a write is outstanding. *)
Theorem read_error_drops_connection (s : ServerImpl) (id : ConnectionId)
    (c : Connection) (ec : error_code) (n : N) :
  Reachable s -> find id (table s) = Some c -> m_isClosed c = false ->
  ec_failed ec = true ->
  let s' := dispatch (RecvDone id ec n) s in
  events s' = events s ++ [(Disconnect, id, ""%string)]
  /\ m_log (m_logic s')
     = m_log (m_logic s) ++ (if (ec =? asio_error_eof)%Z then [] else [LogRecvError id ec])
  /\ if m_isSending c
     then exists c', find id (table s') = Some c'
            /\ m_isClosed c' = true /\ sock_open (m_socket c') = false
            /\ m_isReading c' = false /\ m_isSending c' = true
            /\ m_sendQueue c' = m_sendQueue c
            /\ writes_pending (m_socket c') = writes_pending (m_socket c)
            /\ wire (m_socket c') = wire (m_socket c)
     else find id (table s') = None
          /\ exists c', destroyed (table s') = destroyed (table s) ++ [c']
               /\ m_id c' = id /\ writes_pending (m_socket c') = []
               /\ wire (m_socket c') = wire (m_socket c).
Proof.
  intros Hr Hf Ec Eec s'.
  pose proof (Reachable_ok s Hr) as Hok.
  destruct (ok_open_read id c (proj1 Hok _ _ Hf) Ec) as (Er & Hrp & Hk).
  destruct (proj1 Hok _ _ Hf) as [Hid _ _ _ _].
  subst s'. unfold dispatch, ServerLogic_find. pose proof Hf as Hf'.
  unfold table in Hf'. rewrite Hf', Hrp.
  unfold table, events, with_logic, onRecvComplete. cbn [m_logic].
  rewrite Eec. cbn [m_id set_isReading set_socket].
  set (c0 := set_isReading false _).
  set (L0 := if negb _ then _ else _).
  destruct (open_connection_dropped id c c0 L0 s) as (H1' & H2' & H3'); try done;
    try (subst L0; by destruct (negb _)).
  rewrite H1', H2'. split; [done|]. split; [|exact H3'].
  subst L0. rewrite Hid. destruct (ec =? asio_error_eof)%Z; simpl; by rewrite ?app_nil_r.
Qed.
End ReadOutcomes.

Section ReadOutcomesExamples.
#[local] Existing Instance ConnectionId64.
#[local] Existing Instance AcceptAll.

Lemma data_frame_is_delivered_witness :
  events (@dispatch ConnectionId64 TextFrames AcceptAll (RecvDone 1 0%Z 4) one_open_text)
  = [(NewConnection, 1, ""%string); (Message, 1, "hi"%string)].
Proof.
  assert (Hr : @Reachable ConnectionId64 TextFrames AcceptAll one_open_text)
    by (eexists; reflexivity).
  destruct (@data_frame_is_delivered ConnectionId64 TextFrames AcceptAll one_open_text 1
              (@Connection_new TextFrames 1 Socket_new) 0%Z 4 Hr)
    as (Hev & _);
    [vm_compute; reflexivity|reflexivity|reflexivity|reflexivity|discriminate
    |left; reflexivity|].
  exact Hev.
Defined.

Lemma invalid_frame_drops_connection_witness :
  let s' := @dispatch ConnectionId64 InvalidFrames AcceptAll (RecvDone 1 0%Z 4)
              one_open_invalid in
  events s' = [(NewConnection, 1, ""%string); (Disconnect, 1, ""%string)]
  /\ m_log (m_logic s') = [LogInvalidFrame 1]
  /\ find 1 (table s') = None.
Proof.
  assert (Hr : @Reachable ConnectionId64 InvalidFrames AcceptAll one_open_invalid)
    by (eexists; reflexivity).
  destruct (@invalid_frame_drops_connection ConnectionId64 InvalidFrames AcceptAll
              one_open_invalid 1 (@Connection_new InvalidFrames 1 Socket_new) 0%Z 4 Hr)
    as (Hev & Hlog & Hgone & _);
    [vm_compute; reflexivity|reflexivity|reflexivity|reflexivity|].
  split; [exact Hev|]. split; [exact Hlog|exact Hgone].
Defined.

Lemma read_error_drops_connection_witness :
  let s' := @dispatch ConnectionId64 PingFrames AcceptAll (RecvDone 1 asio_error_eof 0)
              one_open in
  events s' = [(NewConnection, 1, ""%string); (Disconnect, 1, ""%string)]
  /\ m_log (m_logic s') = []
  /\ find 1 (table s') = None.
Proof.
  assert (Hr : @Reachable ConnectionId64 PingFrames AcceptAll one_open)
    by (eexists; reflexivity).
  destruct (@read_error_drops_connection ConnectionId64 PingFrames AcceptAll
              one_open 1 (@Connection_new PingFrames 1 Socket_new) asio_error_eof 0 Hr)
    as (Hev & Hlog & Hgone & _);
    [vm_compute; reflexivity|reflexivity|reflexivity|].
  split; [exact Hev|]. split; [exact Hlog|exact Hgone].
Defined.
End ReadOutcomesExamples.

(** ** Completions on a closed connection, and failed writes *)

Section ClosedCompletions.
Context `{ServerFwd} `{Frames} `{Handshake}.

Lemma dropped_closed conn t :
  m_isClosed conn = true ->
  dropped conn t
  = if negb (m_isReading conn) && negb (m_isSending conn) then erase conn t
    else store conn t.
Proof. intros Hc. unfold dropped. by rewrite (close_idem conn Hc). Qed.

(** The read of a closed connection completes. *)
Lemma RecvDone_on_closed id ec n s c :
  Table_ok (table s) -> find id (table s) = Some c ->
  m_isClosed c = true -> m_isReading c = true ->
  let c1 := set_isReading false (set_socket (read_completes (m_socket c)) c) in
  table (dispatch (RecvDone id ec n) s)
  = (if m_isSending c then store c1 (table s) else erase c1 (table s))
  /\ events (dispatch (RecvDone id ec n) s) = events s
  /\ m_log (m_logic (dispatch (RecvDone id ec n) s))
     = m_log (m_logic s)
       ++ (if ec_failed ec && negb (ec =? asio_error_eof)%Z
           then [LogRecvError id ec] else []).
Proof.
  intros Ht Hf Ec Er c1.
  destruct (proj1 Ht _ _ Hf) as [Hid [Hrp _ _ _] _ _ _]. rewrite Er in Hrp.
  unfold dispatch, ServerLogic_find. unfold table in Hf. rewrite Hf, Hrp.
  unfold table, events, with_logic, onRecvComplete. cbn [m_logic].
  fold c1.
  assert (Hd : forall L0 : ServerLogic,
    m_connTable (drop c1 L0)
    = (if m_isSending c then store c1 (m_connTable L0) else erase c1 (m_connTable L0))
    /\ m_callback (drop c1 L0) = m_callback L0 /\ m_log (drop c1 L0) = m_log L0).
  { intros L0. destruct (drop_members c1 L0) as (-> & -> & ->).
    rewrite dropped_closed by done. subst c1. simpl. rewrite Ec, app_nil_r.
    by destruct (m_isSending c). }
  destruct (ec_failed ec); cbn [andb].
  - destruct (negb (ec =? asio_error_eof)%Z).
    + destruct (Hd (log (LogRecvError (m_id c1) ec) (m_logic s))) as (-> & -> & ->).
      subst c1. simpl. by rewrite Hid.
    + destruct (Hd (m_logic s)) as (-> & -> & ->). by rewrite app_nil_r.
  - cbn [m_isClosed c1 set_isReading set_socket]. rewrite Ec. simpl negb. cbv iota.
    destruct (Hd (m_logic s)) as (-> & -> & ->). by rewrite app_nil_r.
Qed.

(** The write of a closed connection completes. *)
Lemma SendDone_on_closed id ec s c :
  Table_ok (table s) -> find id (table s) = Some c ->
  m_isClosed c = true -> m_isSending c = true ->
  let c1 := set_isSending false (set_socket (write_completes ec (m_socket c)) c) in
  table (dispatch (SendDone id ec) s)
  = (if m_isReading c then store c1 (table s) else erase c1 (table s))
  /\ events (dispatch (SendDone id ec) s) = events s
  /\ m_log (m_logic (dispatch (SendDone id ec) s))
     = m_log (m_logic s) ++ (if ec_failed ec then [LogSendError id ec] else []).
Proof.
  intros Ht Hf Ec Es c1.
  destruct (proj1 Ht _ _ Hf) as [Hid [_ Hw Hsq _] _ _ _]. rewrite Es in Hw.
  destruct (m_sendQueue c) as [|f q] eqn:Eq; [by destruct Hsq|]. simpl in Hw.
  unfold dispatch, ServerLogic_find. unfold table in Hf. rewrite Hf, Hw.
  unfold table, events, with_logic, onSendComplete. cbn [m_logic].
  fold c1.
  assert (Hd : forall L0 : ServerLogic,
    m_connTable (drop c1 L0)
    = (if m_isReading c then store c1 (m_connTable L0) else erase c1 (m_connTable L0))
    /\ m_callback (drop c1 L0) = m_callback L0 /\ m_log (drop c1 L0) = m_log L0).
  { intros L0. destruct (drop_members c1 L0) as (-> & -> & ->).
    rewrite dropped_closed by done. subst c1. simpl. rewrite Ec, app_nil_r.
    by destruct (m_isReading c). }
  destruct (ec_failed ec).
  - destruct (Hd (log (LogSendError (m_id c1) ec) (m_logic s))) as (-> & -> & ->).
    subst c1. simpl. by rewrite Hid.
  - cbn [m_isClosed c1 set_isSending set_socket]. rewrite Ec. simpl negb. cbv iota.
    destruct (Hd (m_logic s)) as (-> & -> & ->). by rewrite app_nil_r.
Qed.
End ClosedCompletions.

Section ClosedCompletionsTheorems.
Context `{ServerFwd} `{Frames} `{Handshake}.

(** X4: a read or a write of a closed connection completes, with or
    without error: no event is delivered, no frame is processed or
    popped, no operation is started, and the connection is erased exactly
    when the other operation is not outstanding; otherwise it stays in
    the table, closed, with that flag cleared. *)
Theorem completion_on_closed_connection (s : ServerImpl) (id : ConnectionId)
    (c : Connection) :
  Reachable s -> find id (table s) = Some c -> m_isClosed c = true ->
  (forall ec n, m_isReading c = true ->
     let s' := dispatch (RecvDone id ec n) s in
     events s' = events s
     /\ if m_isSending c
        then exists c', find id (table s') = Some c'
               /\ m_isClosed c' = true /\ m_isReading c' = false
               /\ reads_pending (m_socket c') = 0%nat
               /\ m_isSending c' = true /\ m_sendQueue c' = m_sendQueue c
               /\ m_receiver c' = m_receiver c
        else find id (table s') = None)
  /\ (forall ec, m_isSending c = true ->
        let s' := dispatch (SendDone id ec) s in
        events s' = events s
        /\ if m_isReading c
           then exists c', find id (table s') = Some c'
                  /\ m_isClosed c' = true /\ m_isSending c' = false
                  /\ writes_pending (m_socket c') = []
                  /\ m_isReading c' = true /\ m_sendQueue c' = m_sendQueue c
           else find id (table s') = None).
Proof.
  intros Hr Hf Ec. pose proof (Reachable_ok s Hr) as Ht.
  destruct (proj1 Ht _ _ Hf) as [Hid [Hrp Hw Hsq _] _ _ _].
  split.
  - intros ec n Er s'.
    destruct (RecvDone_on_closed id ec n s c Ht Hf Ec Er) as (Htab & Hev & _).
    fold s' in Htab, Hev. split; [done|]. rewrite Htab. unfold find.
    destruct (m_isSending c) eqn:Es; simpl; rewrite Hid.
    + rewrite lookup_insert_eq. eexists. split; [reflexivity|]. simpl.
      rewrite Hrp, Er. simpl. auto 10.
    + apply lookup_delete_eq.
  - intros ec Es s'.
    destruct (SendDone_on_closed id ec s c Ht Hf Ec Es) as (Htab & Hev & _).
    fold s' in Htab, Hev. split; [done|]. rewrite Htab. unfold find.
    rewrite Es in Hw. destruct (m_sendQueue c) as [|f q] eqn:Eq; [by destruct Hsq|].
    destruct (m_isReading c) eqn:Er; simpl; rewrite Hid.
    + rewrite lookup_insert_eq. eexists. split; [reflexivity|]. simpl.
      unfold write_completes. rewrite Hw. simpl. auto 10.
    + apply lookup_delete_eq.
Qed.

(** X5: a write of an open connection ends with an error: the error is
    logged and the connection is dropped. One Disconnect is delivered, the
    frame stays at the front of the queue and is not on the wire, no
    further write is started; the connection stays in the table, closed,
    because its read is still outstanding. *)
Theorem write_error_drops_connection (s : ServerImpl) (id : ConnectionId)
    (c : Connection) (f : ServerFrame) (q : list ServerFrame) (ec : error_code) :
  Reachable s -> find id (table s) = Some c -> m_isClosed c = false ->
  m_sendQueue c = f :: q -> ec_failed ec = true ->
  let s' := dispatch (SendDone id ec) s in
  events s' = events s ++ [(Disconnect, id, ""%string)]
  /\ m_log (m_logic s') = m_log (m_logic s) ++ [LogSendError id ec]
  /\ exists c', find id (table s') = Some c'
       /\ m_isClosed c' = true /\ sock_open (m_socket c') = false
       /\ m_isSending c' = false /\ m_isReading c' = true
       /\ m_sendQueue c' = f :: q
       /\ writes_pending (m_socket c') = []
       /\ wire (m_socket c') = wire (m_socket c).
Proof.
  intros Hr Hf Ec Eq Eec s'. pose proof (Reachable_ok s Hr) as Ht.
  pose proof (proj1 Ht _ _ Hf) as Hok.
  destruct (ok_open_front id c f q Hok Ec Eq) as [Es Ew].
  destruct (ok_open_read id c Hok Ec) as (Er & _).
  destruct Hok as [Hid _ _ _ _].
  subst s'. unfold dispatch, ServerLogic_find. pose proof Hf as Hf'.
  unfold table in Hf'. rewrite Hf', Ew.
  unfold table, events, with_logic, onSendComplete. cbn [m_logic]. rewrite Eec.
  set (c1 := set_isSending false _).
  destruct (drop_members c1 (log (LogSendError (m_id c1) ec) (m_logic s)))
    as (-> & -> & ->).
  unfold dropped. subst c1. simpl. rewrite Ec, Er, Hid. simpl.
  split; [done|]. split; [done|].
  unfold close. simpl. rewrite Ec. unfold find. simpl. rewrite Hid, lookup_insert_eq.
  eexists. split; [reflexivity|]. simpl.
  unfold write_completes. rewrite Ew, Eec. simpl. auto 10.
Qed.

(** X6: the application drops an open connection. The Disconnect is
    delivered when the posted task runs, and the connection stays in the
    table, closed, as long as its read or a write is outstanding: it is
    erased by the completion that comes last, in whichever order the two
    come and whatever their results, and no further event is delivered. *)
Theorem dropped_connection_removed_by_last_completion (s : ServerImpl)
    (id : ConnectionId) (c : Connection) (ec ec' : error_code) (n : N) :
  Reachable s -> find id (table s) = Some c -> m_isClosed c = false ->
  m_ioService s = [] ->
  let s1 := steps [CallDrop id; Worker Posted] s in
  let after_read := dispatch (RecvDone id ec n) s1 in
  let after_write := dispatch (SendDone id ec') s1 in
  find id (table s1) = Some (close c)
  /\ events s1 = events s ++ [(Disconnect, id, ""%string)]
  /\ events after_read = events s1
  /\ if m_isSending c
     then is_Some (find id (table after_read))
          /\ is_Some (find id (table after_write))
          /\ find id (table (dispatch (SendDone id ec') after_read)) = None
          /\ find id (table (dispatch (RecvDone id ec n) after_write)) = None
          /\ events (dispatch (SendDone id ec') after_read) = events s1
          /\ events (dispatch (RecvDone id ec n) after_write) = events s1
     else find id (table after_read) = None.
Proof.
  intros Hr Hf Ec Hq s1 after_read after_write.
  pose proof (Reachable_ok s Hr) as Ht.
  pose proof (proj1 Ht _ _ Hf) as Hok.
  destruct (ok_open_read id c Hok Ec) as (Er & _).
  destruct Hok as [Hid _ _ _ _].
  destruct (close_flags c) as (Hci & Hcr & Hcs & Hcq).
  pose proof (close_closed c) as Hcc.
  assert (Hr1 : Reachable s1) by by apply Reachable_steps.
  pose proof (Reachable_ok s1 Hr1) as Ht1.
  assert (Hs1 : m_logic s1 = drop c (m_logic s)).
  { subst s1. unfold steps. simpl. rewrite Hq. simpl. unfold ServerLogic_find.
    unfold table in Hf. by rewrite Hf. }
  destruct (drop_members c (m_logic s)) as (Htab & Hev & _).
  assert (Hf1 : find id (table s1) = Some (close c)).
  { unfold table. rewrite Hs1, Htab. unfold dropped. rewrite Er. simpl.
    unfold find. simpl. rewrite Hci, Hid. apply lookup_insert_eq. }
  assert (Hev1 : events s1 = events s ++ [(Disconnect, id, ""%string)]).
  { unfold events. rewrite Hs1, Hev, Ec, Hid. done. }
  split; [done|]. split; [done|].
  destruct (RecvDone_on_closed id ec n s1 (close c) Ht1 Hf1 Hcc) as (Htr & Hevr & _);
    [congruence|].
  fold after_read in Htr, Hevr. split; [done|].
  rewrite Hcs in Htr.
  destruct (m_isSending c) eqn:Es.
  - assert (Hfr : find id (table after_read)
             = Some (set_isReading false
                       (set_socket (read_completes (m_socket (close c))) (close c)))).
    { rewrite Htr. unfold find. simpl. rewrite Hci, Hid. apply lookup_insert_eq. }
    destruct (SendDone_on_closed id ec' s1 (close c) Ht1 Hf1 Hcc) as (Htw & Hevw & _);
      [congruence|].
    fold after_write in Htw, Hevw. rewrite Hcr, Er in Htw.
    assert (Hfw : find id (table after_write)
             = Some (set_isSending false
                       (set_socket (write_completes ec' (m_socket (close c))) (close c)))).
    { rewrite Htw. unfold find. simpl. rewrite Hci, Hid. apply lookup_insert_eq. }
    assert (Htar : Table_ok (table after_read)) by by apply dispatch_ok.
    assert (Htaw : Table_ok (table after_write)) by by apply dispatch_ok.
    destruct (SendDone_on_closed id ec' after_read _ Htar Hfr) as (Htrw & Hevrw & _);
      [done|simpl; congruence|].
    destruct (RecvDone_on_closed id ec n after_write _ Htaw Hfw) as (Htwr & Hevwr & _);
      [done|simpl; congruence|].
    cbn [m_isReading m_isSending set_isReading set_isSending set_socket] in Htrw, Htwr.
    split; [by rewrite Hfr|]. split; [by rewrite Hfw|].
    split; [rewrite Htrw; unfold find; simpl; rewrite Hci, Hid; apply lookup_delete_eq|].
    split; [rewrite Htwr; unfold find; simpl; rewrite Hci, Hid; apply lookup_delete_eq|].
    split; [by rewrite Hevrw|by rewrite Hevwr, Hevw].
  - rewrite Htr. unfold find. simpl. rewrite Hci, Hid. apply lookup_delete_eq.
Qed.
End ClosedCompletionsTheorems.

Section ClosedCompletionsExamples.
#[local] Existing Instance ConnectionId64.
#[local] Existing Instance PingFrames.
#[local] Existing Instance AcceptAll.

Lemma completion_on_closed_connection_witness :
  let s' := dispatch (RecvDone 1 0%Z 6) one_closing in
  events one_closing = [(NewConnection, 1, ""%string); (Disconnect, 1, ""%string)]
  /\ events s' = [(NewConnection, 1, ""%string); (Disconnect, 1, ""%string)]
  /\ exists c', find 1 (table s') = Some c'
       /\ m_isClosed c' = true /\ m_isReading c' = false /\ m_isSending c' = true.
Proof.
  assert (Hr : Reachable one_closing)
    by (apply (Reachable_steps [CallDrop 1; Worker Posted]); eexists; reflexivity).
  destruct (completion_on_closed_connection one_closing 1 (close one_sending_conn) Hr)
    as [Hread _]; [vm_compute; reflexivity|reflexivity|].
  destruct (Hread 0%Z 6 eq_refl) as [Hev (c' & Hf & Hc & Hrd & _ & Hs & _)].
  split; [reflexivity|]. split; [rewrite Hev; reflexivity|].
  exists c'. auto.
Defined.

Lemma write_error_drops_connection_witness :
  let s' := dispatch (SendDone 1 operation_aborted) one_sending in
  events s' = [(NewConnection, 1, ""%string); (Disconnect, 1, ""%string)]
  /\ m_log (m_logic s') = [LogSendError 1 operation_aborted]
  /\ exists c', find 1 (table s') = Some c'
       /\ m_isClosed c' = true
       /\ m_sendQueue c' = [mkServerFrame Text "hello"]
       /\ wire (m_socket c') = [].
Proof.
  assert (Hr : Reachable one_sending) by (eexists; reflexivity).
  destruct (write_error_drops_connection one_sending 1 one_sending_conn
              (mkServerFrame Text "hello") [] operation_aborted Hr)
    as (Hev & Hlog & c' & Hf & Hc & _ & _ & _ & Hq & _ & Hw);
    [vm_compute; reflexivity|reflexivity|reflexivity|reflexivity|].
  split; [exact Hev|]. split; [exact Hlog|]. exists c'. auto.
Defined.

Lemma dropped_connection_removed_by_last_completion_witness :
  let s1 := steps [CallDrop 1; Worker Posted] one_sending in
  let s2 := dispatch (RecvDone 1 operation_aborted 0)
              (dispatch (SendDone 1 operation_aborted) s1) in
  is_Some (find 1 (table s1))
  /\ is_Some (find 1 (table (dispatch (SendDone 1 operation_aborted) s1)))
  /\ find 1 (table s2) = None
  /\ events s2 = [(NewConnection, 1, ""%string); (Disconnect, 1, ""%string)].
Proof.
  assert (Hr : Reachable one_sending) by (eexists; reflexivity).
  destruct (dropped_connection_removed_by_last_completion one_sending 1 one_sending_conn
              operation_aborted operation_aborted 0 Hr)
    as (Hf1 & Hev1 & _ & _ & Hw & _ & Hgone & _ & Hev2);
    [vm_compute; reflexivity|reflexivity|reflexivity|].
  split; [rewrite Hf1; eauto|]. split; [exact Hw|]. split; [exact Hgone|].
  cbv zeta. rewrite Hev2, Hev1. reflexivity.
Defined.
End ClosedCompletionsExamples.

(** ** The connections of the table *)

Section TableConnections.
Context `{ServerFwd} `{Frames} `{Handshake}.

(** X7: in every reachable state a connection of the table is stored
    under its own identifier; its socket is open exactly while it is not
    closed; it never has more than one read outstanding, and has exactly
    one while it is open; some operation of it is always outstanding, so
    that a completion that can remove it is still to come; while it is
    sending, the one outstanding write carries the frame at the front of
    its queue; and while it is open, frames wait in its queue only while
    it is sending. *)
Theorem table_connections_consistent (s : ServerImpl) (id : ConnectionId) (c : Connection) :
  Reachable s -> find id (table s) = Some c ->
  m_id c = id
  /\ sock_open (m_socket c) = negb (m_isClosed c)
  /\ (reads_pending (m_socket c) <= 1)%nat
  /\ (m_isClosed c = false -> m_isReading c = true /\ reads_pending (m_socket c) = 1%nat)
  /\ m_isReading c || m_isSending c = true
  /\ (m_isSending c = true ->
      exists f q, m_sendQueue c = f :: q /\ writes_pending (m_socket c) = [f])
  /\ (m_isClosed c = false -> m_sendQueue c <> [] -> m_isSending c = true).
Proof.
  intros Hr Hf. destruct (proj1 (Reachable_ok s Hr) _ _ Hf)
    as [Hid [Hrp Hw Hsq Hk] Hor Hoq Hl].
  split; [done|]. split; [done|]. split.
  { rewrite Hrp. destruct (m_isReading c); lia. }
  split.
  { intros Ec. rewrite Hrp, (Hor Ec). done. }
  split; [done|]. split.
  - intros Es. rewrite Es in Hw.
    destruct (m_sendQueue c) as [|f q]; [by destruct Hsq|]. by exists f, q.
  - intros Ec Hq. destruct (m_isSending c) eqn:Es; [done|].
    by destruct Hq; apply Hoq.
Qed.
End TableConnections.

Section TableOperations.
Context `{ServerFwd} `{Frames}.

(** X8: when the identifier that follows the counter is free, [add]
    returns the connection it has just made, open and reading, under that
    identifier, which is the new value of the counter; it is found there,
    the other entries are untouched and nothing is destroyed. Once that
    connection has become removable, [c] being the object as its handlers
    have left it, [erase] leaves the connections of the table exactly as
    they were before the [add], [c] is the one object destroyed, and the
    assertion of its destructor holds; the counter is not taken back. *)
Theorem add_find_erase_roundtrip (socket : Socket) (t : ConnectionTable)
    (c : Connection) :
  find (ConnectionId_incr (m_lastConnId t)) t = None ->
  m_id c = ConnectionId_incr (m_lastConnId t) -> Removable c ->
  let conn := fst (add socket t) in
  let t' := snd (add socket t) in
  conn = Connection_new (ConnectionId_incr (m_lastConnId t)) socket
  /\ find (m_id conn) t' = Some conn
  /\ m_lastConnId t' = m_id conn
  /\ (forall k, k <> m_id conn -> find k t' = find k t)
  /\ destroyed t' = destroyed t
  /\ find (m_id conn) (erase c (store c t')) = None
  /\ m_connections (erase c (store c t')) = m_connections t
  /\ m_lastConnId (erase c (store c t')) = m_id conn
  /\ destroyed (erase c (store c t')) = destroyed t ++ [c]
  /\ Connection_dtor_assert c = true.
Proof.
  intros Hfree Hid (Hc & _). unfold add. cbv zeta. unfold find in Hfree.
  destruct (m_connections t !! ConnectionId_incr (m_lastConnId t)) as [present|] eqn:E;
    [discriminate|].
  unfold find. simpl. rewrite Hid.
  split; [done|]. split; [apply lookup_insert_eq|]. split; [done|]. split.
  { intros k Hk. by rewrite lookup_insert_ne. }
  split; [done|]. split; [apply lookup_delete_eq|]. split.
  { rewrite !delete_insert_eq. by apply delete_id. }
  done.
Qed.

Lemma closeAll_twice (t : ConnectionTable) : closeAll (closeAll t) = closeAll t.
Proof.
  unfold closeAll. simpl. f_equal. rewrite <- map_fmap_compose.
  apply map_fmap_ext. intros k c _. simpl. apply close_idem, close_closed.
Qed.
End TableOperations.

Section CloseAll.
Context `{ServerFwd} `{Frames} `{Handshake}.

(** X9: [closeAll] closes every connection and does nothing else: it
    delivers no event, logs nothing, erases and destroys no connection,
    and leaves the flags, the queue and the outstanding operations of
    every connection as they are, so that each connection stays in the
    table until its completions have run; a second [closeAll] changes
    nothing. *)
Theorem closeAll_only_closes (L : ServerLogic) :
  let L' := ServerLogic_closeAll L in
  m_callback L' = m_callback L /\ m_log L' = m_log L
  /\ destroyed (m_connTable L') = destroyed (m_connTable L)
  /\ m_lastConnId (m_connTable L') = m_lastConnId (m_connTable L)
  /\ (forall id, find id (m_connTable L') = close <$> find id (m_connTable L))
  /\ (forall id c, find id (m_connTable L) = Some c ->
        m_isClosed (close c) = true
        /\ m_id (close c) = m_id c
        /\ m_isReading (close c) = m_isReading c
        /\ m_isSending (close c) = m_isSending c
        /\ m_sendQueue (close c) = m_sendQueue c
        /\ reads_pending (m_socket (close c)) = reads_pending (m_socket c)
        /\ writes_pending (m_socket (close c)) = writes_pending (m_socket c)
        /\ wire (m_socket (close c)) = wire (m_socket c))
  /\ ServerLogic_closeAll L' = L'.
Proof.
  cbv zeta. split; [done|]. split; [done|]. split; [done|]. split; [done|]. split.
  { intros id. unfold find. simpl. apply lookup_fmap. }
  split.
  - intros id c _. destruct (close_flags c) as (Hi & Hr & Hs & Hq).
    split; [apply close_closed|]. do 4 (split; [done|]).
    unfold close. by destruct (m_isClosed c).
  - unfold ServerLogic_closeAll, with_connTable. simpl. by rewrite closeAll_twice.
Qed.

Lemma calls_post fs :
  forall s, steps (map call_of_task fs) s
  = {| m_isStopped := m_isStopped s; m_ioService := m_ioService s ++ fs;
       m_acceptor := m_acceptor s; accept_loop := accept_loop s;
       m_workerThread := m_workerThread s; m_logic := m_logic s |}.
Proof.
  induction fs as [|f fs IH]; intros s; simpl.
  - rewrite app_nil_r. by destruct s.
  - rewrite IH. destruct f; simpl; by rewrite <- app_assoc.
Qed.

(** X10: the calls of [send] and [drop] take effect in the order in
    which they were made: after the calls that post the tasks [fs] and as
    many runs of a posted handler as there are tasks in the io_service,
    the queue of the io_service is empty and the logic is the result of
    running its former tasks and then [fs], one after the other in that
    order. *)
Theorem posted_tasks_run_in_call_order (fs : list Task) (s : ServerImpl) :
  steps (map call_of_task fs ++ repeat (Worker Posted) (length (m_ioService s ++ fs))) s
  = {| m_isStopped := m_isStopped s; m_ioService := [];
       m_acceptor := m_acceptor s; accept_loop := accept_loop s;
       m_workerThread := m_workerThread s;
       m_logic := fold_left (fun L f => runTask f L) (m_ioService s ++ fs) (m_logic s) |}.
Proof.
  rewrite steps_app, calls_post.
  by rewrite (Posted_runs (m_ioService s ++ fs)).
Qed.
End CloseAll.

Section TableExamples.
#[local] Existing Instance ConnectionId64.
#[local] Existing Instance PingFrames.
#[local] Existing Instance AcceptAll.

Lemma table_connections_consistent_witness :
  m_isSending one_sending_conn = true
  /\ exists f q, m_sendQueue one_sending_conn = f :: q
       /\ writes_pending (m_socket one_sending_conn) = [f].
Proof.
  assert (Hr : Reachable one_sending) by (eexists; reflexivity).
  destruct (table_connections_consistent one_sending 1 one_sending_conn Hr)
    as (_ & _ & _ & _ & _ & Hfront & _); [vm_compute; reflexivity|].
  split; [reflexivity|]. exact (Hfront eq_refl).
Defined.

Lemma add_find_erase_roundtrip_witness :
  let conn := fst (add Socket_new ConnectionTable_new) in
  let t' := snd (add Socket_new ConnectionTable_new) in
  find 1 t' = Some conn
  /\ m_connections (erase one_removable_conn (store one_removable_conn t')) = ∅
  /\ destroyed (erase one_removable_conn (store one_removable_conn t'))
     = [one_removable_conn].
Proof.
  destruct (add_find_erase_roundtrip Socket_new ConnectionTable_new one_removable_conn)
    as (_ & Hf & _ & _ & _ & _ & Hm & _ & Hd & _).
  - reflexivity.
  - reflexivity.
  - unfold Removable. simpl. done.
  - split; [exact Hf|]. split; [exact Hm|exact Hd].
Defined.
End TableExamples.

(** ** More on shutdown *)

Section StopEdges.
Context `{ServerFwd} `{Frames} `{Handshake}.

(** The io_service has no work left exactly when nothing is posted, the
    accept loop has returned and the table is empty. *)
Lemma no_work_iff s :
  Table_ok (table s) ->
  io_service_has_work s = false
  <-> m_ioService s = [] /\ accept_loop s = LoopReturned /\ m_connections (table s) = ∅.
Proof.
  intros Ht. split.
  - intros Hw. destruct (no_work_empty s Ht Hw) as (Hm & Hq & Ha). done.
  - intros (Hq & Ha & Hm). unfold io_service_has_work. unfold table in Hm.
    rewrite Hq, Ha, Hm. by rewrite map_to_list_empty.
Qed.

(** X11: when [stop] returns depends on where the worker thread is
    when the flag is set, the thread being joinable. A worker inside
    [m_ioService.run()] runs the handlers that become ready, and [stop]
    returns exactly when it is left with no posted handler, an accept loop
    that has returned and an empty table: as long as one connection is in
    the table, [stop] does not return. A worker that is about to test its
    loop guard, as when the server has just been made, leaves at once:
    [stop] returns without any handler having run, whatever is posted or
    outstanding, the accept loop where it was. *)
Theorem stop_return_by_worker_position (sched : list Completion) (s : ServerImpl) :
  Reachable s -> m_workerThread s = true ->
  let s1 := run sched (stop_begin s) in
  ((exists s', ServerImpl_stop InsideRun sched s = Returned s')
   <-> m_ioService s1 = [] /\ accept_loop s1 = LoopReturned
       /\ m_connections (table s1) = ∅)
  /\ (m_connections (table s1) <> ∅ -> ServerImpl_stop InsideRun sched s = Blocked s1)
  /\ ServerImpl_stop AtLoopGuard sched s
     = Returned
         {| m_isStopped := true; m_ioService := m_ioService s;
            m_acceptor := false; accept_loop := accept_loop s;
            m_workerThread := false;
            m_logic := ServerLogic_closeAll (m_logic s) |}
  /\ stop sched s = ServerImpl_stop InsideRun sched s.
Proof.
  intros Hr Hj s1. pose proof (Reachable_ok s Hr) as Ht.
  assert (Ht1 : Table_ok (table s1)).
  { apply run_ok. unfold table. simpl. by apply closeAll_ok. }
  pose proof (no_work_iff s1 Ht1) as Hiff.
  assert (Hin : ServerImpl_stop InsideRun sched s = stop sched s) by reflexivity.
  rewrite Hin, stop_unfold, Hj. cbv zeta. fold s1.
  split; [|split; [|split]].
  - destruct (io_service_has_work s1) eqn:Hw.
    + split; [by intros [s' Hs']|]. intros Hd. apply Hiff in Hd. discriminate.
    + split; [intros _; by apply Hiff|]. intros _. eauto.
  - intros Hne. destruct (io_service_has_work s1) eqn:Hw; [done|].
    destruct (proj1 Hiff eq_refl) as (_ & _ & Hm). done.
  - unfold ServerImpl_stop, join_from, workerThread. simpl. by rewrite Hj.
  - reflexivity.
Qed.

(** X12: a handshake is in progress when [stop] is called, and it
    succeeds afterwards: the accept loop tests [m_isStopped] only after
    [async_accept], so the connection is still added and announced by
    NewConnection. It was not in the table when [closeAll] ran: it is open
    with its read outstanding, and the worker has work left. *)
Theorem handshake_completing_after_stop (s : ServerImpl) (io : HandshakeIO) :
  accept_loop s = InHandshake -> handshake_succeeded io = true ->
  find (ConnectionId_incr (m_lastConnId (table s))) (table s) = None ->
  let nid := ConnectionId_incr (m_lastConnId (table s)) in
  let s1 := dispatch (HandshakeDone io) (stop_begin s) in
  m_isStopped s1 = true
  /\ events s1 = events s ++ [(NewConnection, nid, ""%string)]
  /\ (exists c, find nid (table s1) = Some c /\ m_isClosed c = false
                /\ m_isReading c = true /\ reads_pending (m_socket c) = 1%nat)
  /\ accept_loop s1 = WaitingAccept
  /\ io_service_has_work s1 = true.
Proof.
  intros Hl Hok Hfree nid s1.
  assert (Hs1 : s1 = acceptLoop_handshake io (stop_begin s)).
  { subst s1. simpl. by rewrite Hl. }
  assert (Hadd : onAccept io (ServerLogic_closeAll (m_logic s))
    = callback NewConnection nid ""
        (with_connTable (fun _ =>
           {| m_lastConnId := nid;
              m_connections := <[nid := Connection_new nid Socket_new]>
                                 (close <$> m_connections (table s));
              destroyed := destroyed (table s) |})
           (ServerLogic_closeAll (m_logic s)))).
  { unfold onAccept. rewrite (performHandshake_ok _ _ Hok).
    unfold add. simpl. fold (table s). fold nid.
    unfold find in Hfree. fold nid in Hfree.
    by rewrite lookup_fmap, Hfree. }
  clearbody s1. subst s1. unfold acceptLoop_handshake.
  unfold events, table. simpl. rewrite Hadd. simpl.
  split; [done|]. split; [done|]. split.
  { exists (Connection_new nid Socket_new). unfold find. simpl.
    by rewrite lookup_insert_eq. }
  split; [done|].
  unfold io_service_has_work. simpl. by rewrite orb_true_r.
Qed.
End StopEdges.

Section StopEdgesExamples.
#[local] Existing Instance ConnectionId64.
#[local] Existing Instance PingFrames.
#[local] Existing Instance AcceptAll.

Lemma stop_return_by_worker_position_witness :
  (exists s', ServerImpl_stop InsideRun [Accepted operation_aborted] ServerImpl_new
              = Returned s')
  /\ exists s', ServerImpl_stop AtLoopGuard [Accepted operation_aborted] ServerImpl_new
                = Returned s'
       /\ accept_loop s' = WaitingAccept.
Proof.
  destruct (stop_return_by_worker_position [Accepted operation_aborted] ServerImpl_new)
    as (Hiff & _ & Hguard & _).
  - by exists [].
  - reflexivity.
  - split.
    + apply Hiff. vm_compute. done.
    + eexists. split; [exact Hguard|reflexivity].
Defined.

Lemma handshake_completing_after_stop_witness :
  events (dispatch (HandshakeDone io_ok) (stop_begin one_open_one_handshaking))
  = events one_open_one_handshaking ++ [(NewConnection, 2%N, ""%string)].
Proof.
  refine (proj1 (proj2 (handshake_completing_after_stop one_open_one_handshaking io_ok _ _ _))).
  - reflexivity.
  - reflexivity.
  - vm_compute. reflexivity.
Defined.
End StopEdgesExamples.

(** ** The events a step delivers *)

Section Delivery.
Context `{ServerFwd} `{Frames} `{Handshake}.

Lemma drop_delivers conn c L0 L :
  m_callback L0 = m_callback L -> m_id conn = m_id c -> m_isClosed conn = m_isClosed c ->
  Delivers_for c L (drop conn L0).
Proof.
  intros Hc Hid Hcl. rewrite drop_unfold. cbv zeta. unfold Delivers_for.
  destruct (m_isClosed conn) eqn:E.
  - left. by destruct (negb (m_isReading conn) && negb (m_isSending conn)).
  - right. split; [done|]. exists Disconnect, ""%string. split; [by right|].
    rewrite <- Hid, <- Hc.
    by destruct (negb (m_isReading conn) && negb (m_isSending conn)).
Qed.

Lemma onSendComplete_delivers ec sock c L :
  Delivers_for c L (onSendComplete ec (set_socket sock c) L).
Proof.
  unfold onSendComplete. cbv zeta.
  destruct (ec_failed ec); [by apply drop_delivers|].
  destruct (negb (m_isClosed _)) eqn:E; [by left|]. by apply drop_delivers.
Qed.

Lemma onRecvComplete_delivers ec n sock c L :
  Delivers_for c L (onRecvComplete ec n (set_socket sock c) L).
Proof.
  unfold onRecvComplete. cbv zeta.
  destruct (ec_failed ec).
  { apply drop_delivers; [|done..]. by destruct (negb _). }
  destruct (negb (m_isClosed _)) eqn:E; [|by apply drop_delivers].
  assert (Eo : m_isClosed c = false) by (simpl in E; by destruct (m_isClosed c)).
  destruct (isValidFrame _); [|by apply drop_delivers].
  set (c2 := set_receiver _ _).
  assert (Hproc : Delivers_for c L
    (with_connTable
       (store (beginRecvFrame (set_receiver (shiftBuffer (m_receiver
          (set_receiver (unmask (m_receiver c2)) c2)))
          (set_receiver (unmask (m_receiver c2)) c2))))
       (processFrame (m_id (set_receiver (unmask (m_receiver c2)) c2))
          (opcode (m_receiver (set_receiver (unmask (m_receiver c2)) c2)))
          (message (m_receiver (set_receiver (unmask (m_receiver c2)) c2))) L))).
  { unfold processFrame.
    destruct (opcode (m_receiver (set_receiver (unmask (m_receiver c2)) c2)));
      try (by left); right; (split; [done|]); eexists Message, _; (split; [by left|]);
      reflexivity. }
  destruct (opcode (m_receiver c2)); try exact Hproc.
  destruct (sendFrame_flags Close "" c2) as (Hi & Hc & _).
  apply drop_delivers; [done|by rewrite Hi|by rewrite Hc].
Qed.

Lemma runTask_delivers f conn L :
  find (match f with SendTask connId _ _ => connId | DropTask connId => connId end)
    (m_connTable L) = Some conn ->
  Delivers_for conn L (runTask f L).
Proof.
  intros Hf. destruct f as [connId message isBinary|connId]; simpl;
    unfold ServerLogic_find; rewrite Hf.
  - by left.
  - by apply drop_delivers.
Qed.
End Delivery.

Section StepCases.
Context `{ServerFwd} `{Frames} `{Handshake}.

Lemma Touches_keys k conn L L' :
  find k (m_connTable L) = Some conn -> Touches k L L' ->
  m_lastConnId (m_connTable L') = m_lastConnId (m_connTable L)
  /\ forall j, is_Some (find j (m_connTable L')) -> is_Some (find j (m_connTable L)).
Proof.
  intros Hf [Hl Ho]. split; [done|]. intros j Hj.
  destruct (N.eq_dec j k) as [->|Hne]; [by rewrite Hf|]. by rewrite <- (Ho j Hne).
Qed.

(** A handshake that does not succeed leaves the table and the events
    as they are. *)
Lemma onAccept_failed io L :
  handshake_succeeded io = false ->
  m_connTable (onAccept io L) = m_connTable L /\ m_callback (onAccept io L) = m_callback L.
Proof.
  intros Hno. unfold onAccept.
  pose proof (performHandshake_succeeded io L) as Hp.
  pose proof (performHandshake_quiet io L) as Hq.
  destruct (performHandshake io L) as [ok L1]. simpl in Hp, Hq.
  rewrite Hno in Hp. by subst ok.
Qed.

(** One step either runs for one connection of the table, or is the
    end of a handshake that has succeeded, or leaves table and events
    alone. *)
Lemma step_cases a s :
  Table_ok (table s) ->
  (m_lastConnId (table (step a s)) = m_lastConnId (table s)
   /\ (forall j, is_Some (find j (table (step a s))) -> is_Some (find j (table s)))
   /\ (events (step a s) = events s
       \/ exists conn, find (m_id conn) (table s) = Some conn
            /\ Delivers_for conn (m_logic s) (m_logic (step a s))))
  \/ (exists io, a = Worker (HandshakeDone io) /\ handshake_succeeded io = true
        /\ table (step a s) = snd (add Socket_new (table s))
        /\ events (step a s)
           = events s ++ [(NewConnection, m_id (fst (add Socket_new (table s))), ""%string)]).
Proof.
  intros Ht.
  assert (Hsame : forall s', m_logic s' = m_logic s ->
    m_lastConnId (table s') = m_lastConnId (table s)
    /\ (forall j, is_Some (find j (table s')) -> is_Some (find j (table s)))
    /\ (events s' = events s
        \/ exists conn, find (m_id conn) (table s) = Some conn
             /\ Delivers_for conn (m_logic s) (m_logic s'))).
  { intros s' E. unfold table, events. rewrite E. split; [done|]. split; [done|]. by left. }
  assert (Hfor : forall k conn L', find k (table s) = Some conn ->
    Touches k (m_logic s) L' -> Delivers_for conn (m_logic s) L' ->
    m_lastConnId (m_connTable L') = m_lastConnId (table s)
    /\ (forall j, is_Some (find j (m_connTable L')) -> is_Some (find j (table s)))
    /\ (m_callback L' = events s
        \/ exists conn, find (m_id conn) (table s) = Some conn
             /\ Delivers_for conn (m_logic s) L')).
  { intros k conn L' Hf Hto Hd.
    destruct (Touches_keys k conn _ _ Hf Hto) as [Hl Hk].
    split; [done|]. split; [done|]. right. exists conn. split; [|done].
    destruct (proj1 Ht _ _ Hf) as [Hid _ _ _ _]. by rewrite Hid. }
  destruct a as [[|ec|io|k ec n|k ec]|connId text isBinary|connId|]; simpl.
  - left. destruct (m_ioService s) as [|f rest] eqn:Eq; [by apply Hsame|].
    unfold table, events. simpl.
    set (k := match f with SendTask connId _ _ => connId | DropTask connId => connId end).
    destruct (find k (table s)) as [conn|] eqn:Hf.
    + apply (Hfor k conn); [done| |].
      * by apply (runTask_touches f k conn).
      * by apply runTask_delivers.
    + assert (E : runTask f (m_logic s) = m_logic s).
      { subst k. destruct f; simpl; unfold ServerLogic_find; fold (table s); by rewrite Hf. }
      rewrite E. split; [done|]. split; [done|]. by left.
  - left. destruct (accept_loop s); try (by apply Hsame). unfold acceptLoop.
    destruct (m_isStopped s); [by apply Hsame|].
    destruct (negb (ec_failed ec)); [by apply Hsame|].
    unfold table, events. simpl. split; [done|]. split; [done|]. by left.
  - destruct (accept_loop s) eqn:El; try (left; by apply Hsame).
    destruct (handshake_succeeded io) eqn:Hok.
    + right. exists io. split; [done|]. split; [done|].
      unfold table, events, acceptLoop_handshake. simpl.
      unfold onAccept. rewrite (performHandshake_ok _ _ Hok).
      by destruct (add Socket_new (m_connTable (m_logic s))).
    + left. unfold table, events, acceptLoop_handshake. simpl.
      destruct (onAccept_failed io (m_logic s) Hok) as [-> ->].
      split; [done|]. split; [done|]. by left.
  - left. unfold ServerLogic_find. fold (table s).
    destruct (find k (table s)) as [conn|] eqn:Hf; [|by apply Hsame].
    destruct (reads_pending (m_socket conn)); [by apply Hsame|].
    unfold table at 1 2, events at 1. simpl.
    destruct (proj1 Ht _ _ Hf) as [Hid _ _ _ _].
    apply (Hfor k conn); [done| |].
    + rewrite <- Hid. apply onRecvComplete_touches.
    + apply onRecvComplete_delivers.
  - left. unfold ServerLogic_find. fold (table s).
    destruct (find k (table s)) as [conn|] eqn:Hf; [|by apply Hsame].
    destruct (writes_pending (m_socket conn)); [by apply Hsame|].
    unfold table at 1 2, events at 1. simpl.
    destruct (proj1 Ht _ _ Hf) as [Hid _ _ _ _].
    apply (Hfor k conn); [done| |].
    + rewrite <- Hid. apply onSendComplete_touches.
    + apply onSendComplete_delivers.
  - left. by apply (Hsame (ServerImpl_send connId text isBinary s)).
  - left. by apply (Hsame (ServerImpl_drop connId s)).
  - left. unfold table, events. simpl. split; [done|]. split; [|by left].
    intros j. unfold find. simpl. rewrite lookup_fmap.
    by destruct (m_connections (m_connTable (m_logic s)) !! j).
Qed.
End StepCases.

Section Announcements.
Context `{ServerFwd} `{Frames} `{Handshake}.

Lemma add_id socket t :
  Table_ok t -> m_id (fst (add socket t)) = ConnectionId_incr (m_lastConnId t).
Proof.
  intros Ht. unfold add. cbv zeta.
  destruct (m_connections t !! ConnectionId_incr (m_lastConnId t)) as [present|] eqn:E;
    simpl; [|done].
  by destruct (proj1 Ht _ _ E) as [Hid _ _ _ _].
Qed.

(** X13: one step delivers at most one event. A [Message] or a
    [Disconnect] is delivered only for an identifier that designates a
    connection of the table that is open when the step begins: never for an
    identifier that is not in the table, never for a connection that has
    been closed. [NewConnection] is delivered only when a handshake ends
    with success, and carries the identifier that follows the last one
    handed out. *)
Theorem events_only_for_open_connections (a : Step) (s : ServerImpl) :
  Reachable s ->
  exists evs, events (step a s) = events s ++ evs
    /\ (length evs <= 1)%nat /\ Forall (Deliverable a s) evs.
Proof.
  intros Hr. pose proof (Reachable_ok s Hr) as Ht.
  destruct (step_cases a s Ht) as [(_ & _ & [He|(conn & Hf & [He|(Ho & e & msg & Hk & He)])])
                                  |(io & -> & Hok & _ & He)].
  - exists []. rewrite app_nil_r. split; [done|]. split; [simpl; lia|constructor].
  - exists []. rewrite app_nil_r. split; [done|]. split; [simpl; lia|constructor].
  - exists [(e, m_id conn, msg)]. split; [done|]. split; [simpl; lia|].
    constructor; [|constructor]. destruct Hk as [-> | ->]; simpl; eauto.
  - eexists. split; [exact He|]. split; [simpl; lia|].
    constructor; [|constructor]. simpl. split; [by apply add_id|]. split; [done|]. eauto.
Qed.

Lemma NewConnection_ids_app l1 l2 :
  NewConnection_ids (l1 ++ l2) = NewConnection_ids l1 ++ NewConnection_ids l2.
Proof.
  induction l1 as [|[[e id] msg] l1 IH]; simpl; [done|].
  destruct e; simpl; by rewrite IH.
Qed.

Lemma Delivers_for_ids conn L L' :
  Delivers_for conn L L' ->
  NewConnection_ids (m_callback L') = NewConnection_ids (m_callback L).
Proof.
  intros [->|(_ & e & msg & Hk & ->)]; [done|].
  rewrite NewConnection_ids_app. destruct Hk as [-> | ->]; simpl; by rewrite app_nil_r.
Qed.

Lemma StronglySorted_snoc (l : list N) (x : N) :
  StronglySorted N.lt l -> Forall (fun y => y < x) l -> StronglySorted N.lt (l ++ [x]).
Proof.
  induction 1 as [|y l Hs IH Hy]; intros Hx; simpl.
  - constructor; constructor.
  - inversion Hx as [|? ? Hyx Hlx]; subst. constructor; [by apply IH|].
    apply Forall_app. split; [done|]. by constructor.
Qed.

Lemma step_announced a s n :
  Announced_ok s -> m_lastConnId (table s) <= n ->
  n + (if is_handshake_end a then 1 else 0) < 2 ^ ConnectionId_bits ->
  Announced_ok (step a s)
  /\ m_lastConnId (table (step a s)) <= n + (if is_handshake_end a then 1 else 0).
Proof.
  intros (Ht & Hk & Hs & Hb) Hn Hlt.
  pose proof (step_ok a s Ht) as Ht'.
  destruct (step_cases a s Ht) as [(Hl & Hkeys & Hev)|(io & -> & Hok & Htab & He)].
  - assert (Hids : NewConnection_ids (events (step a s)) = NewConnection_ids (events s)).
    { destruct Hev as [->|(conn & _ & Hd)]; [done|]. by apply (Delivers_for_ids conn). }
    split; [|rewrite Hl; destruct (is_handshake_end a); lia].
    split; [done|]. split.
    { intros j Hj. rewrite Hl. apply Hk. by apply Hkeys. }
    rewrite Hids, Hl. done.
  - cbn [is_handshake_end] in Hlt |- *.
    destruct (add_fresh Socket_new (table s) Hk ltac:(lia)) as (Hid & Hl & Hk').
    rewrite <- Htab in Hl, Hk'. rewrite Hid in He.
    unfold Announced_ok. rewrite He, NewConnection_ids_app, Hl.
    cbn [NewConnection_ids]. split; [|lia].
    split; [done|]. split; [done|]. split.
    + apply StronglySorted_snoc; [done|].
      eapply List.Forall_impl; [|exact Hb]. cbv beta. intros y Hy. lia.
    + apply Forall_app. split.
      * eapply List.Forall_impl; [|exact Hb]. cbv beta. intros y Hy. lia.
      * constructor; [lia|constructor].
Qed.

Lemma steps_announced l :
  forall s n, Announced_ok s -> m_lastConnId (table s) <= n ->
  n + handshakes l < 2 ^ ConnectionId_bits ->
  Announced_ok (steps l s).
Proof.
  induction l as [|a l IH]; intros s n Ha Hn Hlt; [done|].
  simpl. unfold handshakes in Hlt. simpl in Hlt.
  destruct (step_announced a s n Ha Hn) as [Ha' Hn'].
  { destruct (is_handshake_end a); simpl in Hlt; lia. }
  apply (IH _ _ Ha' Hn'). unfold handshakes.
  destruct (is_handshake_end a); simpl in Hlt; lia.
Qed.

(** X14: as long as fewer than 2^w handshakes have ended since the
    server was made, w being the width of [ConnectionId], the identifiers
    that [NewConnection] has announced are strictly increasing in the order
    of the events: no identifier is announced twice, whatever was closed
    and erased in between. They start from 1 and none exceeds the counter
    of the table. *)
Theorem NewConnection_ids_increase (l : list Step) :
  handshakes l < 2 ^ ConnectionId_bits ->
  let s := steps l ServerImpl_new in
  StronglySorted N.lt (NewConnection_ids (events s))
  /\ NoDup (NewConnection_ids (events s))
  /\ Forall (fun id => 0 < id <= m_lastConnId (table s)) (NewConnection_ids (events s)).
Proof.
  intros Hlt s.
  assert (Ha : Announced_ok s).
  { apply (steps_announced l ServerImpl_new 0); [|simpl; lia|lia].
    split; [apply (Reachable_ok ServerImpl_new); by exists []|].
    split; [|split; simpl; constructor].
    intros k [c Hc]. simpl in Hc. by rewrite lookup_empty in Hc. }
  destruct Ha as (_ & _ & Hs & Hb). split; [done|]. split; [|done].
  by apply StronglySorted_lt_NoDup.
Qed.
End Announcements.

Section DeliveryExamples.
#[local] Existing Instance ConnectionId64.
#[local] Existing Instance TextFrames.
#[local] Existing Instance AcceptAll.

Lemma events_only_for_open_connections_witness :
  exists evs, events (step (Worker (RecvDone 1 0%Z 2)) one_open_text)
              = events one_open_text ++ evs
    /\ (length evs <= 1)%nat
    /\ Forall (Deliverable (Worker (RecvDone 1 0%Z 2)) one_open_text) evs.
Proof.
  apply (events_only_for_open_connections (Worker (RecvDone 1 0%Z 2)) one_open_text).
  eexists; reflexivity.
Defined.

Lemma NewConnection_ids_increase_witness :
  NewConnection_ids
    (events (steps [Worker (Accepted 0%Z); Worker (HandshakeDone io_ok);
                    Worker (RecvDone 1 asio_error_eof 0);
                    Worker (Accepted 0%Z); Worker (HandshakeDone io_ok)] ServerImpl_new))
  = [1; 2]
  /\ NoDup (NewConnection_ids
    (events (steps [Worker (Accepted 0%Z); Worker (HandshakeDone io_ok);
                    Worker (RecvDone 1 asio_error_eof 0);
                    Worker (Accepted 0%Z); Worker (HandshakeDone io_ok)] ServerImpl_new))).
Proof.
  split; [reflexivity|].
  refine (proj1 (proj2 (NewConnection_ids_increase
    [Worker (Accepted 0%Z); Worker (HandshakeDone io_ok);
     Worker (RecvDone 1 asio_error_eof 0);
     Worker (Accepted 0%Z); Worker (HandshakeDone io_ok)] _))).
  vm_compute. reflexivity.
Defined.
End DeliveryExamples.

(** ** Sending to a connection that has been dropped *)

Section SendAfterDrop.
Context `{ServerFwd} `{Frames} `{Handshake}.

(** X15: the task of [send] does not test [m_isClosed]. For a
    connection that has been closed and is still in the table, its queue
    empty, [sendFrame] queues the frame and starts its write on the closed
    socket; nothing is delivered to the application. The connection now
    outlives its read: when the read completes, it is still in the table,
    the write being outstanding. *)
Theorem send_after_drop_starts_write (s : ServerImpl) (id : ConnectionId)
    (c : Connection) (text : string) (isBinary : bool) (ec : error_code) (n : N) :
  Reachable s -> m_ioService s = [] ->
  find id (table s) = Some c -> m_isClosed c = true -> m_sendQueue c = [] ->
  let frame := mkServerFrame (if isBinary then Binary else Text) text in
  let s1 := steps [CallSend id text isBinary; Worker Posted] s in
  let c1 := set_socket (async_write frame (m_socket c))
              (set_isSending true (set_sendQueue [frame] c)) in
  find id (table s1) = Some c1
  /\ m_isClosed c1 = true /\ sock_open (m_socket c1) = false
  /\ writes_pending (m_socket c1) = [frame]
  /\ events s1 = events s
  /\ is_Some (find id (table (dispatch (RecvDone id ec n) s1))).
Proof.
  intros Hr Hq Hf Ec Eq frame s1 c1.
  pose proof (Reachable_ok s Hr) as Ht.
  destruct (proj1 Ht _ _ Hf) as [Hid [Hwr Hww Hws Hwo] _ _ Hlive].
  assert (Es : m_isSending c = false).
  { destruct (m_isSending c); [|done]. by destruct Hws. }
  rewrite Es in Hww, Hlive. rewrite orb_false_r in Hlive.
  assert (Hs1 : m_logic s1 = with_connTable (store c1) (m_logic s)).
  { subst s1. unfold steps. simpl. rewrite Hq. simpl.
    unfold ServerLogic_find. fold (table s). rewrite Hf.
    by rewrite (sendFrame_empty _ _ _ Eq). }
  assert (Hf1 : find id (table s1) = Some c1).
  { unfold table. rewrite Hs1. unfold find, store. simpl. rewrite Hid.
    by rewrite lookup_insert_eq. }
  split; [done|]. split; [done|]. split; [simpl; by rewrite Hwo, Ec|].
  split; [simpl; by rewrite Hww|]. split; [unfold events; by rewrite Hs1|].
  assert (Hr1 : Reachable s1) by (by apply Reachable_steps).
  destruct (RecvDone_on_closed id ec n s1 c1 (Reachable_ok s1 Hr1) Hf1 Ec Hlive)
    as (Htab & _ & _).
  rewrite Htab. simpl. unfold find, store. simpl. rewrite Hid.
  rewrite lookup_insert_eq. eauto.
Qed.
End SendAfterDrop.

Section SendAfterDropExamples.
#[local] Existing Instance ConnectionId64.
#[local] Existing Instance PingFrames.
#[local] Existing Instance AcceptAll.

Lemma send_after_drop_starts_write_witness :
  is_Some (find 1
    (table (dispatch (RecvDone 1 operation_aborted 0)
       (steps [CallSend 1 "late" false; Worker Posted] one_dropped)))).
Proof.
  refine (proj2 (proj2 (proj2 (proj2 (proj2
    (send_after_drop_starts_write one_dropped 1 one_dropped_conn "late" false
       operation_aborted 0 _ _ _ _ _)))))).
  - apply (Reachable_steps [CallDrop 1; Worker Posted]). eexists; reflexivity.
  - reflexivity.
  - reflexivity.
  - reflexivity.
  - reflexivity.
Defined.
End SendAfterDropExamples.
